(** * cmk.base.checkers.agent: the agent-output parser and its summarizer

    A shallow embedding of [src/cmk/base/checkers/agent.py]: the section
    header mini-language ([AgentParserSectionHeader]), the three parser
    states ([NOOPParser], [PiggybackSectionParser], [HostSectionParser]),
    the line loop of [AgentParser._parse_host_section], and the version and
    only-from sub-checks of [AgentSummarizerDefault].

    The first part holds the definitions, the second part the properties
    proved about them, the third further properties of the code: edge
    cases, invariants of the line loop and round trips. *)

From Stdlib Require Import ZArith NArith List Bool Lia.
From Stdlib Require Import Strings.Byte Strings.String Numbers.DecimalString.
From Stdlib Require Import Numbers.DecimalZ.
From Stdlib Require Import Floats.SpecFloat.
From stdpp Require Import gmap list sorting.

Set Default Proof Using "Type".
Local Open Scope Z_scope.

(** * Part I: the embedding *)

(** ** Python values

    [bytes] are lists of 8-bit bytes; [str] is a list of Unicode code
    points.  Literals are written as Rocq strings (ASCII only). *)

Abbreviation bytes := (list byte).
Abbreviation str := (list N).

Definition b (s : string) : bytes := list_byte_of_string s.
Definition u (s : string) : str := Byte.to_N <$> list_byte_of_string s.

#[global] Instance byte_eq_decision : EqDecision byte := Byte.byte_eq_dec.

Module Py.

(** [bytes.strip()] removes ASCII whitespace: space, \t, \n, \r, \x0b, \x0c. *)
Definition is_space (c : byte) : bool :=
  match c with
  | x09 | x0a | x0b | x0c | x0d | x20 => true
  | _ => false
  end.

Fixpoint lstrip (l : bytes) : bytes :=
  match l with
  | c :: t => if is_space c then lstrip t else l
  | [] => []
  end.

Definition rstrip (l : bytes) : bytes := rev (lstrip (rev l)).
Definition strip (l : bytes) : bytes := rstrip (lstrip l).

Fixpoint startswith {A} `{EqDecision A} (p l : list A) : bool :=
  match p, l with
  | [], _ => true
  | a :: p', c :: l' => if decide (a = c) then startswith p' l' else false
  | _ :: _, [] => false
  end.

Definition endswith {A} `{EqDecision A} (p l : list A) : bool :=
  startswith (rev p) (rev l).

(** [needle in hay] on sequences. *)
Fixpoint contains {A} `{EqDecision A} (needle hay : list A) : bool :=
  startswith needle hay ||
  match hay with
  | [] => false
  | _ :: t => contains needle t
  end.

(** [l[i:-j]] for non-negative literals [i], [j]: the stop index
    [len(l) - j] is clamped at 0, and an empty slice results when the
    start is not before the stop. *)
Definition slice {A} (i j : nat) (l : list A) : list A :=
  drop i (take (length l - j) l).

(** [l.split(sep)] for a one-element separator: exact, keeps empty
    fields, never returns the empty list. *)
Fixpoint split {A} `{EqDecision A} (sep : A) (l : list A) : list (list A) :=
  match l with
  | [] => [[]]
  | c :: t =>
      if decide (c = sep) then [] :: split sep t
      else match split sep t with
           | h :: r => (c :: h) :: r
           | [] => [[c]]
           end
  end.

(** [l.lstrip(chars)] and [l.rstrip(chars)] for a one-byte [chars]. *)
Fixpoint lstrip_byte (c : byte) (l : bytes) : bytes :=
  match l with
  | x :: t => if decide (x = c) then lstrip_byte c t else l
  | [] => []
  end.

Definition rstrip_byte (c : byte) (l : bytes) : bytes :=
  rev (lstrip_byte c (rev l)).

(** ["%d" % n] *)
Definition fmt_d (n : Z) : bytes :=
  list_byte_of_string (NilZero.string_of_int (Z.to_int n)).

End Py.

(** ** [PiggybackSectionParser._add_cached_info] *)

Definition _add_cached_info (orig_section_header : bytes) (cached_at cache_age : Z)
  : bytes :=
  if Py.contains (b ":cached(") orig_section_header
     || Py.contains (b ":persist(") orig_section_header
  then orig_section_header
  else b "<<<" ++ Py.slice 3 3 orig_section_header
       ++ b ":cached(" ++ Py.fmt_d cached_at ++ b "," ++ Py.fmt_d cache_age
       ++ b ")>>>".

(** ** Exceptions and fallible computations *)

Inductive exn :=
| ValueError
| AssertionError
| IndexError
| KeyError
| TypeError
| UnicodeDecodeError
| LookupError
| OverflowError
| MKGeneralException (msg : str)
| ExternalError (tag : N).

(** [inl e] is "raise e", [inr v] is "return v". *)
Abbreviation result := (sum exn).

Definition bind {A B} (m : result A) (f : A → result B) : result B :=
  match m with inl e => inl e | inr x => f x end.

Notation "x <- m ;; k" := (bind m (λ x, k))
  (at level 100, m at next level, right associativity,
   format "'[v' x  <-  m  ;;  '/' k ']'").

Fixpoint map_result {A B} (f : A → result B) (l : list A) : result (list B) :=
  match l with
  | [] => inr []
  | x :: l => y <- f x ;; ys <- map_result f l ;; inr (y :: ys)
  end.

Definition raised {A} (r : result A) : Prop := ∃ e, r = inl e.

(** ** [str] operations *)

Module Str.

(** Code points for which [str.isspace()] holds; [str.split()] without
    a separator splits on runs of them. *)
Definition isspace (c : N) : bool :=
  ((9 <=? c) && (c <=? 13) || (28 <=? c) && (c <=? 32)
   || (c =? 133) || (c =? 160) || (c =? 5760)
   || (8192 <=? c) && (c <=? 8202)
   || (c =? 8232) || (c =? 8233) || (c =? 8239) || (c =? 8287)
   || (c =? 12288))%N.

(** [s.split(sep, 1)]: the text before and after the first [sep], when
    there is one. *)
Fixpoint split1 (sep : N) (s : str) : option (str * str) :=
  match s with
  | [] => None
  | c :: t =>
      if (c =? sep)%N then Some ([], t)
      else '(h, r) ← split1 sep t; Some (c :: h, r)
  end.

(** [s.split()]: split on runs of whitespace, no empty fields. *)
Fixpoint split_ws_from (cur : str) (s : str) : list str :=
  match s with
  | [] => match cur with [] => [] | _ => [rev cur] end
  | c :: t =>
      if isspace c
      then match cur with
           | [] => split_ws_from [] t
           | _ => rev cur :: split_ws_from [] t
           end
      else split_ws_from (c :: cur) t
  end.
Definition split_ws (s : str) : list str := split_ws_from [] s.

(** [s.replace(c, "")] for a one-character [c]. *)
Definition remove (c : N) (s : str) : str := filter (λ x, x ≠ c) s.

(** [sep.join(parts)] *)
Fixpoint join (sep : str) (parts : list str) : str :=
  match parts with
  | [] => []
  | [p] => p
  | p :: rest => p ++ sep ++ join sep rest
  end.

(** [chr(n)]: defined on [range(0x110000)]. *)
Definition chr (n : Z) : result N :=
  if (0 <=? n) && (n <? 1114112) then inr (Z.to_N n) else inl ValueError.

(** The strict UTF-8 decoder behind [bytes.decode("utf-8")]: shortest
    forms only, no surrogates, nothing above U+10FFFF. *)
Definition cont (c : byte) : option N :=
  let n := Byte.to_N c in
  if ((128 <=? n) && (n <=? 191))%N then Some (n - 128)%N else None.

Definition in_range (lo hi : N) (c : byte) : bool :=
  ((lo <=? Byte.to_N c) && (Byte.to_N c <=? hi))%N.

Fixpoint utf8 (l : bytes) : option str :=
  match l with
  | [] => Some []
  | c0 :: t =>
      let n0 := Byte.to_N c0 in
      if (n0 <? 128)%N then cons n0 <$> utf8 t
      else if in_range 194 223 c0 then
        match t with
        | c1 :: t1 =>
            x1 ← cont c1;
            cons ((n0 - 192) * 64 + x1)%N <$> utf8 t1
        | _ => None
        end
      else if in_range 224 239 c0 then
        match t with
        | c1 :: c2 :: t2 =>
            x1 ← cont c1; x2 ← cont c2;
            if (n0 =? 224)%N && negb (in_range 160 191 c1) then None
            else if (n0 =? 237)%N && negb (in_range 128 159 c1) then None
            else cons ((n0 - 224) * 4096 + x1 * 64 + x2)%N <$> utf8 t2
        | _ => None
        end
      else if in_range 240 244 c0 then
        match t with
        | c1 :: c2 :: c3 :: t3 =>
            x1 ← cont c1; x2 ← cont c2; x3 ← cont c3;
            if (n0 =? 240)%N && negb (in_range 144 191 c1) then None
            else if (n0 =? 244)%N && negb (in_range 128 143 c1) then None
            else cons ((n0 - 240) * 262144 + x1 * 4096 + x2 * 64 + x3)%N
                   <$> utf8 t3
        | _ => None
        end
      else None
  end.

(** [bytes.decode("latin-1")]: total. *)
Definition latin1 (l : bytes) : str := Byte.to_N <$> l.

End Str.

(** [six.ensure_str] on [bytes]: [s.decode("utf-8", "strict")]. *)
Definition ensure_str (s : bytes) : result str :=
  match Str.utf8 s with
  | Some t => inr t
  | None => inl UnicodeDecodeError
  end.

(** ** Collaborators

    What [agent.py] imports and does not define: the codec machinery,
    the [int] built-in on text, the [SectionName] constructor of
    [cmk.utils.type_defs], [config.translate_piggyback_host] and the
    character class [REGEX_HOST_NAME_CHARS].  The development is
    parametric in them; [reference_runtime] below is the instance used
    to run the scenarios. *)

Record Runtime := {
  (** [value.decode(encoding)]: [UnicodeDecodeError] on undecodable
      input, [LookupError] on an unknown codec. *)
  decode : str → bytes → result str;
  (** [int(text)] *)
  int_of_str : str → result Z;
  (** [SectionName(text)] *)
  SectionName : str → result str;
  (** [config.translate_piggyback_host(hostname, piggybacked_hostname)] *)
  translate_piggyback_host : str → str → result str;
  (** membership in the class [[%s] % REGEX_HOST_NAME_CHARS] *)
  REGEX_HOST_NAME_CHARS : N → bool;
}.

(** Modelled from the spec: [cmk.utils.encoding.ensure_str_with_fallback]
    is not under src.  "Decode the resulting bytes using header.encoding;
    on decode failure, fall back to latin-1." *)
Definition ensure_str_with_fallback (rt : Runtime)
    (value : bytes) (encoding fallback : str) : result str :=
  match decode rt encoding value with
  | inl UnicodeDecodeError => decode rt fallback value
  | r => r
  end.

(** ** Line recognition *)

(** [PiggybackSectionParser.is_footer] *)
Definition piggyback_is_footer (line : bytes) : bool :=
  bool_decide (Py.strip line = b "<<<<>>>>").

(** [PiggybackSectionParser.is_header] *)
Definition piggyback_is_header (line : bytes) : bool :=
  Py.startswith (b "<<<<") (Py.strip line)
  && Py.endswith (b ">>>>") (Py.strip line)
  && negb (piggyback_is_footer line).

(** [HostSectionParser.is_footer] *)
Definition host_is_footer (line : bytes) : bool :=
  bool_decide (Py.strip line = b "<<<>>>").

(** [HostSectionParser.is_header]; the local [line] is the stripped one. *)
Definition host_is_header (line : bytes) : bool :=
  let line := Py.strip line in
  Py.startswith (b "<<<") line
  && Py.endswith (b ">>>") line
  && negb (host_is_footer line)
  && negb (piggyback_is_header line)
  && negb (piggyback_is_footer line).

(** ** [AgentParserSectionHeader] *)

Record AgentParserSectionHeader := {
  name : str;
  options : gmap str str;
}.

(** The generator [parse_options] inside [from_headerline], run to the
    end as [dict(...)] does. An empty value makes [value[-1]] raise
    [IndexError]; a value that does not end in ")" fails the assertion. *)
Fixpoint parse_options (elems : list str) : result (list (str * str)) :=
  match elems with
  | [] => inr []
  | option :: elems =>
      match Str.split1 40 option with
      | None => parse_options elems
      | Some (name, value) =>
          match last value with
          | None => inl IndexError
          | Some c =>
              if (c =? 41)%N
              then rest <- parse_options elems ;;
                   inr ((name, removelast value) :: rest)
              else inl AssertionError
          end
      end
  end.

(** [dict(pairs)]: a later pair overrides an earlier one. *)
Definition dict (pairs : list (str * str)) : gmap str str :=
  foldl (λ m kv, <[kv.1 := kv.2]> m) ∅ pairs.

(** [AgentParserSectionHeader.from_headerline]; the slice is taken from
    the line as passed, not from the stripped line. *)
Definition from_headerline (rt : Runtime) (headerline : bytes)
  : result AgentParserSectionHeader :=
  if negb (host_is_header headerline) then inl ValueError
  else
    text <- ensure_str (Py.slice 3 3 headerline) ;;
    let headerparts := Py.split 58%N text in
    n <- SectionName rt (hd [] headerparts) ;;
    opts <- parse_options (tl headerparts) ;;
    inr {| name := n; options := dict opts |}.

Section HeaderAccessors.

Context (rt : Runtime) (self : AgentParserSectionHeader).

(** property [cached] *)
Definition cached : result (list Z) :=
  match options self !! u "cached" with
  | None => inr []
  | Some v => map_result (int_of_str rt) (Py.split 44%N v)
  end.

(** property [encoding] *)
Definition encoding : str := default (u "utf-8") (options self !! u "encoding").

(** property [nostrip] *)
Definition nostrip : bool := bool_decide (is_Some (options self !! u "nostrip")).

(** property [persist] *)
Definition persist : result (option Z) :=
  match options self !! u "persist" with
  | None => inr None
  | Some v => n <- int_of_str rt v ;; inr (Some n)
  end.

(** property [separator] *)
Definition separator : result (option N) :=
  match options self !! u "sep" with
  | None => inr None
  | Some v => n <- int_of_str rt v ;; c <- Str.chr n ;; inr (Some c)
  end.

End HeaderAccessors.

(** [HostSectionParser.parse_header] *)
Definition host_parse_header (rt : Runtime) (line : bytes) :=
  from_headerline rt line.

(** [PiggybackSectionParser.parse_header] *)
Definition piggyback_parse_header (rt : Runtime) (line : bytes) (hostname : str)
  : result str :=
  piggybacked_hostname <- ensure_str (Py.slice 4 4 (Py.strip line)) ;;
  match piggybacked_hostname with
  | [] => inl AssertionError
  | _ =>
      piggybacked_hostname <-
        translate_piggyback_host rt hostname piggybacked_hostname ;;
      inr ((λ c, if REGEX_HOST_NAME_CHARS rt c then c else 95%N)
             <$> piggybacked_hostname)
  end.

(** ** The parser states and the objects they share

    All three states hold references to the same [host_sections] and
    [persisted_sections] objects and to the logger; [Memory] is that
    shared store.  A section payload is a list object: [sections] and
    [persisted_sections] hold its address in [heap], so that an append
    through one name is seen through every other reference. *)

Abbreviation loc := nat.
Abbreviation AgentSectionContent := (list (list str)).

Record Memory := {
  heap : list AgentSectionContent;
  sections : gmap str loc;
  cache_info : gmap str (Z * Z);
  piggybacked_raw_data : gmap str (list bytes);
  persisted_sections : gmap str (Z * Z * loc);
  (** the lines named in [logger.warning], oldest first *)
  warnings : list bytes;
}.

Definition empty_memory : Memory :=
  {| heap := []; sections := ∅; cache_info := ∅; piggybacked_raw_data := ∅;
     persisted_sections := ∅; warnings := [] |}.

Definition with_heap (f : list AgentSectionContent → list AgentSectionContent)
    (m : Memory) : Memory :=
  {| heap := f (heap m); sections := sections m; cache_info := cache_info m;
     piggybacked_raw_data := piggybacked_raw_data m;
     persisted_sections := persisted_sections m; warnings := warnings m |}.

Definition with_sections (f : gmap str loc → gmap str loc) (m : Memory) : Memory :=
  {| heap := heap m; sections := f (sections m); cache_info := cache_info m;
     piggybacked_raw_data := piggybacked_raw_data m;
     persisted_sections := persisted_sections m; warnings := warnings m |}.

Definition with_cache_info (f : gmap str (Z * Z) → gmap str (Z * Z))
    (m : Memory) : Memory :=
  {| heap := heap m; sections := sections m; cache_info := f (cache_info m);
     piggybacked_raw_data := piggybacked_raw_data m;
     persisted_sections := persisted_sections m; warnings := warnings m |}.

Definition with_piggybacked_raw_data
    (f : gmap str (list bytes) → gmap str (list bytes)) (m : Memory) : Memory :=
  {| heap := heap m; sections := sections m; cache_info := cache_info m;
     piggybacked_raw_data := f (piggybacked_raw_data m);
     persisted_sections := persisted_sections m; warnings := warnings m |}.

Definition with_persisted_sections
    (f : gmap str (Z * Z * loc) → gmap str (Z * Z * loc)) (m : Memory) : Memory :=
  {| heap := heap m; sections := sections m; cache_info := cache_info m;
     piggybacked_raw_data := piggybacked_raw_data m;
     persisted_sections := f (persisted_sections m); warnings := warnings m |}.

(** [self._logger.warning("Ignoring invalid raw section: %r" % line, ...)] *)
Definition log_warning (line : bytes) (m : Memory) : Memory :=
  {| heap := heap m; sections := sections m; cache_info := cache_info m;
     piggybacked_raw_data := piggybacked_raw_data m;
     persisted_sections := persisted_sections m;
     warnings := warnings m ++ [line] |}.

(** [host_sections.sections.setdefault(name, [])]: a fresh list object is
    bound only when the key is absent. *)
Definition setdefault_section (n : str) (m : Memory) : Memory :=
  match sections m !! n with
  | Some _ => m
  | None =>
      with_sections (insert n (length (heap m))) (with_heap (λ h, h ++ [[]]) m)
  end.

(** What a reader of the mapping sees: every name with the current
    content of its list object. *)
Definition payload (m : Memory) (l : loc) : AgentSectionContent :=
  default [] (heap m !! l).

Definition sections_view (m : Memory) : gmap str AgentSectionContent :=
  payload m <$> sections m.

Definition persisted_view (m : Memory) : gmap str (Z * Z * AgentSectionContent) :=
  (λ e, (e.1.1, e.1.2, payload m e.2)) <$> persisted_sections m.

Inductive State :=
| NOOPParser
| PiggybackSectionParser (piggybacked_hostname : str)
| HostSectionParser (section_header : AgentParserSectionHeader).

(** The fields of [ParserState] that are not shared objects. *)
Record ParserState := {
  hostname : str;
  cached_at : Z;
  cache_age : Z;
  state : State;
}.

Definition to_noop_parser (self : ParserState) : ParserState :=
  {| hostname := hostname self; cached_at := cached_at self;
     cache_age := cache_age self; state := NOOPParser |}.

Definition to_piggyback_section_parser (self : ParserState)
    (piggybacked_hostname : str) : ParserState :=
  {| hostname := hostname self; cached_at := cached_at self;
     cache_age := cache_age self;
     state := PiggybackSectionParser piggybacked_hostname |}.

Section StateMachine.

Context (rt : Runtime).

(** [to_host_section_parser], that is [HostSectionParser.__init__].
    What it wrote before raising stays written. *)
Definition to_host_section_parser (self : ParserState)
    (section_header : AgentParserSectionHeader) (m : Memory)
  : result ParserState * Memory :=
  let n := name section_header in
  let m := setdefault_section n m in
  match persist rt section_header with
  | inl e => (inl e, m)
  | inr p =>
      let staged : result unit * Memory :=
        match p with
        | None => (inr (), m)
        | Some persist_until =>
            let cache_interval := persist_until - cached_at self in
            let m := with_cache_info (insert n (cached_at self, cache_interval)) m in
            match sections m !! n with
            | None => (inl KeyError, m)
            | Some l =>
                (inr (),
                 with_persisted_sections
                   (insert n (cached_at self, persist_until, l)) m)
            end
        end in
      match staged with
      | (inl e, m) => (inl e, m)
      | (inr _, m) =>
          let parser :=
            {| hostname := hostname self; cached_at := cached_at self;
               cache_age := cache_age self;
               state := HostSectionParser section_header |} in
          match cached rt section_header with
          | inl e => (inl e, m)
          | inr [] => (inr parser, m)
          | inr [_] => (inl IndexError, m)
          | inr (c0 :: c1 :: _) =>
              (inr parser, with_cache_info (insert n (c0, c1)) m)
          end
      end
  end.

(** The [except Exception] clause shared by the three [__call__]s: log
    the line and hand over to a NOOP parser. *)
Definition except (self : ParserState) (line : bytes)
    (r : result ParserState * Memory) : ParserState * Memory :=
  match r with
  | (inr parser, m) => (parser, m)
  | (inl _, m) => (to_noop_parser self, log_warning line m)
  end.

Definition blank (line : bytes) : bool := bool_decide (Py.strip line = []).

(** [NOOPParser.__call__] *)
Definition noop_call (self : ParserState) (line : bytes) (m : Memory)
  : ParserState * Memory :=
  if blank line then (self, m)
  else if piggyback_is_header line then
    except self line
      match piggyback_parse_header rt line (hostname self) with
      | inl e => (inl e, m)
      | inr piggybacked_hostname =>
          if bool_decide (piggybacked_hostname = hostname self)
          then (inr self, m)
          else (inr (to_piggyback_section_parser self piggybacked_hostname), m)
      end
  else if host_is_header line then
    except self line
      match host_parse_header rt line with
      | inl e => (inl e, m)
      | inr section_header => to_host_section_parser self section_header m
      end
  else (self, m).

(** [piggybacked_raw_data.setdefault(host, []).append(line)] *)
Definition append_raw (host : str) (line : bytes) (m : Memory) : Memory :=
  with_piggybacked_raw_data
    (λ d, <[host := default [] (d !! host) ++ [line]]> d) m.

(** [PiggybackSectionParser.__call__] *)
Definition piggyback_call (self : ParserState) (piggybacked_hostname : str)
    (line : bytes) (m : Memory) : ParserState * Memory :=
  if blank line then (self, m)
  else if piggyback_is_footer line then (to_noop_parser self, m)
  else if piggyback_is_header line then
    except self line
      match piggyback_parse_header rt line (hostname self) with
      | inl e => (inl e, m)
      | inr piggybacked_hostname =>
          if bool_decide (piggybacked_hostname = hostname self)
          then (inr (to_noop_parser self), m)
          else (inr (to_piggyback_section_parser self piggybacked_hostname), m)
      end
  else
    let line :=
      if host_is_header line
      then _add_cached_info (Py.strip line) (cached_at self) (cache_age self)
      else line in
    (self, append_raw piggybacked_hostname line m).

(** The row a content line decodes to under [section_header]. *)
Definition decode_row (section_header : AgentParserSectionHeader)
    (line : bytes) : result (list str) :=
  text <- ensure_str_with_fallback rt line (encoding section_header)
            (u "latin-1") ;;
  sep <- separator rt section_header ;;
  inr match sep with
      | None => Str.split_ws text
      | Some c => Py.split c text
      end.

(** [HostSectionParser.__call__].  The content branch rebinds [line] to
    the stripped line before anything in it can raise, so that is the
    line its warning names. *)
Definition host_call (self : ParserState)
    (section_header : AgentParserSectionHeader)
    (line : bytes) (m : Memory) : ParserState * Memory :=
  if blank line then (self, m)
  else if piggyback_is_header line then
    except self line
      match piggyback_parse_header rt line (hostname self) with
      | inl e => (inl e, m)
      | inr piggybacked_hostname =>
          if bool_decide (piggybacked_hostname = hostname self)
          then (inr self, m)
          else (inr (to_piggyback_section_parser self piggybacked_hostname), m)
      end
  else if host_is_footer line then (to_noop_parser self, m)
  else if host_is_header line then
    except self line
      match host_parse_header rt line with
      | inl e => (inl e, m)
      | inr section_header => to_host_section_parser self section_header m
      end
  else
    let line := if nostrip section_header then line else Py.strip line in
    except self line
      match sections m !! name section_header with
      | None => (inl KeyError, m)
      | Some l =>
          match decode_row section_header line with
          | inl e => (inl e, m)
          | inr row => (inr self, with_heap (alter (λ p, p ++ [row]) l) m)
          end
      end.

(** [parser(line)] *)
Definition call (self : ParserState) (line : bytes) (m : Memory)
  : ParserState * Memory :=
  match state self with
  | NOOPParser => noop_call self line m
  | PiggybackSectionParser piggybacked_hostname =>
      piggyback_call self piggybacked_hostname line m
  | HostSectionParser section_header => host_call self section_header line m
  end.

(** The loop of [_parse_host_section]:
    [for line in ...: parser = parser(line.rstrip(b"\n"))]. *)
Definition feed (pm : ParserState * Memory) (lines : list bytes)
  : ParserState * Memory :=
  foldl (λ pm line, call pm.1 (Py.rstrip_byte x0a line) pm.2) pm lines.

End StateMachine.

(** ** Binary64 arithmetic, as far as [int(1.5 * 60 * check_interval)]
    needs it: IEEE 754 double precision, round to nearest even. *)

Module Float.

Definition prec : Z := 53.
Definition emax : Z := 1024.

(** [float(n)] for an [int]: [OverflowError] beyond the double range. *)
Definition of_int (n : Z) : result spec_float :=
  match binary_normalize prec emax n 0 false with
  | S754_infinity _ => inl OverflowError
  | x => inr x
  end.

Definition mul (x y : spec_float) : spec_float := SFmul prec emax x y.

(** [int(x)]: truncation towards zero. *)
Definition to_int (x : spec_float) : result Z :=
  match x with
  | S754_zero _ => inr 0
  | S754_finite s m e =>
      inr (cond_Zopp s (if 0 <=? e then Z.pos m * 2 ^ e
                        else Z.pos m / 2 ^ (- e)))
  | S754_infinity _ => inl OverflowError
  | S754_nan => inl ValueError
  end.

(** the literal [1.5] *)
Definition lit_1_5 : spec_float := binary_normalize prec emax 3 (-1) false.

End Float.

(** [int(1.5 * 60 * check_interval)], evaluated left to right. *)
Definition cache_age_of (check_interval : Z) : result Z :=
  sixty <- Float.of_int 60 ;;
  interval <- Float.of_int check_interval ;;
  Float.to_int (Float.mul (Float.mul Float.lit_1_5 sixty) interval).

(** [AgentParser._parse_host_section]; [now] is [int(time.time())].
    Returns the last parser and the store holding [parser.host_sections]
    and [persisted_sections]. *)
Definition _parse_host_section (rt : Runtime) (self_hostname : str) (now : Z)
    (raw_data : bytes) (check_interval : Z) : result (ParserState * Memory) :=
  age <- cache_age_of check_interval ;;
  let parser :=
    {| hostname := self_hostname; cached_at := now; cache_age := age;
       state := NOOPParser |} in
  inr (feed rt (parser, empty_memory) (Py.split x0a raw_data)).

(** ** A reference instance of the collaborators

    Enough of each collaborator to run the scenarios of the
    specification: the codecs "utf-8" and "latin-1", [int] on ASCII
    text, no piggyback translation rules, and the host-name alphabet
    [-0-9a-zA-Z_.]. *)

Module Reference.

Definition is_digit (c : N) : bool := ((48 <=? c) && (c <=? 57))%N.

Fixpoint lstrip_ws (s : str) : str :=
  match s with
  | c :: t => if Str.isspace c then lstrip_ws t else s
  | [] => []
  end.

Definition strip_ws (s : str) : str := rev (lstrip_ws (rev (lstrip_ws s))).

(** Decimal digits, with single underscores between digits. *)
Fixpoint digits (acc : Z) (after_digit : bool) (s : str) : option Z :=
  match s with
  | [] => if after_digit then Some acc else None
  | c :: t =>
      if is_digit c then digits (10 * acc + (Z.of_N c - 48)) true t
      else if (c =? 95)%N && after_digit
           then match t with [] => None | _ => digits acc false t end
      else None
  end.

Definition int (s : str) : result Z :=
  let r :=
    match strip_ws s with
    | 43%N :: t => digits 0 false t
    | 45%N :: t => Z.opp <$> digits 0 false t
    | t => digits 0 false t
    end in
  match r with Some n => inr n | None => inl ValueError end.

Definition codec (encoding : str) (value : bytes) : result str :=
  if bool_decide (encoding = u "utf-8") then ensure_str value
  else if bool_decide (encoding = u "latin-1") then inr (Str.latin1 value)
  else inl LookupError.

Definition is_identifier_char (c : N) : bool :=
  (is_digit c || (65 <=? c) && (c <=? 90) || (97 <=? c) && (c <=? 122)
   || (c =? 95))%N.

(** Modelled from the spec: [cmk.utils.type_defs.SectionName] is not
    under src.  "SectionName: opaque identifier; string-like,
    case-sensitive, non-empty, restricted to identifier characters." *)
Definition section_name (s : str) : result str :=
  match s with
  | [] => inl ValueError
  | _ => if forallb is_identifier_char s then inr s else inl ValueError
  end.

(** Modelled from the spec: [REGEX_HOST_NAME_CHARS] of [cmk.utils.regex]
    is not under src; the allowed host-name alphabet, which contains
    the replacement character "_". *)
Definition host_name_char (c : N) : bool :=
  (is_identifier_char c || (c =? 45) || (c =? 46))%N.

Definition runtime : Runtime :=
  {| decode := codec;
     int_of_str := int;
     SectionName := section_name;
     translate_piggyback_host := λ _ piggybacked_hostname, inr piggybacked_hostname;
     REGEX_HOST_NAME_CHARS := host_name_char |}.

End Reference.

(** ** Self-piggyback inside an open host section *)

Definition section_a : AgentParserSectionHeader := {| name := u "a"; options := ∅ |}.

Definition in_section_a : ParserState :=
  {| hostname := u "me"; cached_at := 1500; cache_age := 90;
     state := HostSectionParser section_a |}.

(** ** Footers at end of input *)

(** The footer that closes the block a parser in state [s] has open. *)
Definition closing_footer (s : State) : list bytes :=
  match s with
  | NOOPParser => []
  | PiggybackSectionParser _ => [b "<<<<>>>>"]
  | HostSectionParser _ => [b "<<<>>>"]
  end.

(** The stream followed by one more line for each of [footers]: after a
    final newline each added line brings its own newline, otherwise each
    is preceded by one. *)
Definition with_lines (raw_data : bytes) (footers : list bytes) : bytes :=
  if bool_decide (last raw_data = Some x0a)
  then raw_data ++ concat ((λ f, f ++ [x0a]) <$> footers)
  else raw_data ++ concat ((λ f, x0a :: f) <$> footers).

Definition open_section_stream : bytes := b "<<<a>>>" ++ [x0a] ++ b "x".

(** ** Malformed option tokens *)

(** An option token with an opening parenthesis whose value (the text
    after the first "(") does not end in ")". *)
Definition malformed_option (tok : str) : Prop :=
  ∃ nm value, tok = nm ++ (40%N :: value) ∧ (40%N ∉ nm) ∧ last value ≠ Some 41%N.

(** Scenario E5: [<<<garbage:broken(>>>], [<<<ok>>>], [x]. *)
Definition noop_me : ParserState :=
  {| hostname := u "me"; cached_at := 1500; cache_age := 90; state := NOOPParser |}.

(** ** Piggybacked host names *)



(** ** Binding and staging sections *)
(** [n] has a persisted entry, and that entry holds the very list
    object that [sections] binds [n] to. *)
Definition linked (n : str) (m : Memory) : Prop :=
  ∃ l T U, sections m !! n = Some l
           ∧ persisted_sections m !! n = Some (T, U, l).

(** The ways in which the constructor raises after having bound the
    section: an option value that [int] rejects, or a [cached] option
    with a single number. *)
Definition init_raises (rt : Runtime) (hdr : AgentParserSectionHeader) : Prop :=
  raised (persist rt hdr) ∨ raised (cached rt hdr) ∨ ∃ c, cached rt hdr = inr [c].

(** ** Scenarios *)
Definition piggyback_stream : bytes :=
  b "<<<<web 01>>>>" ++ [x0a] ++ b "<<<uptime>>>" ++ [x0a] ++ b "123" ++ [x0a]
  ++ b "<<<<me>>>>" ++ [x0a] ++ b "zzz" ++ [x0a].

Definition persist_abc : AgentParserSectionHeader :=
  {| name := u "foo"; options := {[ u "persist" := u "abc" ]} |}.

Definition persist_2000 : AgentParserSectionHeader :=
  {| name := u "foo"; options := {[ u "persist" := u "2000" ]} |}.

(** ** [AgentSummarizerDefault] *)

(** [config.AgentTargetVersion]: nothing, a version text, or a pair such
    as [("at_least", {"daily_build": ..., "release": ...})]. *)
Inductive AgentTargetVersion :=
| TargetNone
| TargetVersion (version : str)
| TargetTuple (kind : str) (spec : gmap str str).

Record HostConfig := {
  is_cluster : bool;
  agent_target_version : AgentTargetVersion;
  (** [only_from]: nothing, one text, or a list of texts *)
  only_from : option (str + list str);
}.

Abbreviation MetricTuple := (str * Z)%type.
Abbreviation ServiceCheckResult := (Z * str * list MetricTuple)%type.

(** What the summarizer imports and [agent.py] does not define. *)
Record Environment := {
  (** [cmk.utils.misc.is_daily_build_version] *)
  is_daily_build_version : str → result bool;
  (** [cmk.utils.misc.branch_of_daily_build] *)
  branch_of_daily_build : str → result str;
  (** [cmk.utils.werks.parse_check_mk_version] *)
  parse_check_mk_version : str → result Z;
  (** [cmk.base.ip_lookup.normalize_ip_addresses] *)
  normalize_ip_addresses : str + list str → result (list str);
  (** [cmk.base.check_api_utils.state_markers] *)
  state_markers : list str;
  (** [cmk.utils.debug.enabled()] *)
  debug_enabled : bool;
  (** [config.agent_min_version] *)
  agent_min_version : Z;
  (** [str.lower] *)
  lower : str → str;
  (** the order in which a [set] of texts is iterated *)
  iter_set : gset str → list str;
  (** ["%s" % expected_version] and ["%s" % e] for an exception *)
  show_target : AgentTargetVersion → str;
  show_exn : exn → str;
}.

Module Seq.

(** [t[i]] on a tuple or list, negative indices counting from the end. *)
Definition index {A} (t : list A) (i : Z) : result A :=
  let n := Z.of_nat (length t) in
  let j := if i <? 0 then n + i else i in
  if (0 <=? j) && (j <? n)
  then match t !! Z.to_nat j with Some x => inr x | None => inl IndexError end
  else inl IndexError.

(** Texts compare by code point, lexicographically. *)
Fixpoint le (x y : str) : bool :=
  match x, y with
  | [], _ => true
  | _ :: _, [] => false
  | a :: x, c :: y => (a <? c)%N || ((a =? c)%N && le x y)
  end.

End Seq.

#[global] Instance str_le_dec : RelDecision (λ x y : str, Seq.le x y = true) :=
  λ x y, decide (Seq.le x y = true).

(** [sorted(s)] for a set of texts. *)
Definition sorted (s : gset str) : list str :=
  merge_sort (λ x y, Seq.le x y = true) (elements s).

Section Summarizer.

Context (rt : Runtime) (env : Environment).

Context (exit_spec : gmap str Z) (host_config : HostConfig).

(** [AgentSummarizerDefault._get_agent_info] *)
Definition _get_agent_info (cmk_section : option AgentSectionContent)
  : result (gmap str (option str)) :=
  let agent_info : gmap str (option str) :=
    {[ u "version" := Some (u "unknown"); u "agentos" := Some (u "unknown") ]} in
  match cmk_section with
  | None | Some [] => inr agent_info
  | Some lines =>
      foldl (λ acc line,
               agent_info <- acc ;;
               match line with
               | [] => inl IndexError
               | key :: rest =>
                   let value :=
                     match rest with
                     | [] => None
                     | _ => Some (Str.join (u " ") rest)
                     end in
                   inr (<[lower env (removelast key) := value]> agent_info)
               end)
            (inr agent_info) lines
  end.

(** The body of the [try] in [_is_expected_agent_version]. *)
Definition compare_agent_version (agent_version : option str)
    (expected_version : AgentTargetVersion) : result bool :=
  match agent_version with
  | None => inr false
  | Some agent_version =>
      if bool_decide (agent_version ∈ [u "(unknown)"; u "None"]) then inr false
      else
        match expected_version with
        | TargetNone => inr true
        | TargetVersion expected =>
            inr (bool_decide (expected = agent_version))
        | TargetTuple kind spec =>
            if bool_decide (kind = u "at_least") then
              daily <- is_daily_build_version env agent_version ;;
              match daily, spec !! u "daily_build", spec !! u "release" with
              | true, Some daily_build, _ =>
                  expected <- int_of_str rt (Str.remove 46 daily_build) ;;
                  branch <- branch_of_daily_build env agent_version ;;
                  agent <-
                    (if bool_decide (branch = u "master")
                     then int_of_str rt (Str.remove 46 agent_version)
                     else
                       part <- Seq.index (Py.split 45%N agent_version) 1 ;;
                       int_of_str rt (Str.remove 46 part)) ;;
                  inr (negb (agent <? expected))
              | _, _, Some release =>
                  daily <- is_daily_build_version env agent_version ;;
                  if daily then inr false
                  else
                    agent <- parse_check_mk_version env agent_version ;;
                    expected <- parse_check_mk_version env release ;;
                    inr (negb (agent <? expected))
              | _, _, None => inr true
              end
            else inr true
        end
  end.

Definition version_check_message (agent_version : option str)
    (expected_version : AgentTargetVersion) (e : exn) : str :=
  u "Unable to check agent version (Agent: "
    ++ default (u "None") agent_version
    ++ u " Expected: " ++ show_target env expected_version
    ++ u ", Error: " ++ show_exn env e ++ u ")".

(** [AgentSummarizerDefault._is_expected_agent_version] *)
Definition _is_expected_agent_version (agent_version : option str)
    (expected_version : AgentTargetVersion) : result bool :=
  match compare_agent_version agent_version expected_version with
  | inr answer => inr answer
  | inl e =>
      if debug_enabled env then inl e
      else inl (MKGeneralException
                  (version_check_message agent_version expected_version e))
  end.

(** [self.exit_spec.get(key, 1)] *)
Definition exit_state (key : str) : Z := default 1 (exit_spec !! key).

(** The text after "should be" in the version mismatch message. *)
Definition expected_text (expected_version : AgentTargetVersion) : str :=
  match expected_version with
  | TargetTuple kind spec =>
      if bool_decide (kind = u "at_least") then
        u "at least"
        ++ match spec !! u "daily_build" with
           | Some daily_build => u " build " ++ daily_build
           | None => []
           end
        ++ match spec !! u "release" with
           | Some release =>
               (if bool_decide (is_Some (spec !! u "daily_build"))
                then u " or" else [])
               ++ u " release " ++ release
           | None => []
           end
      else show_target env expected_version
  | _ => show_target env expected_version
  end.

Definition truthy (expected_version : AgentTargetVersion) : bool :=
  match expected_version with
  | TargetNone => false
  | TargetVersion v => negb (bool_decide (v = []))
  | TargetTuple _ _ => true
  end.

(** [AgentSummarizerDefault._sub_result_version].  With a non-zero
    [config.agent_min_version] the last test compares a text with a
    number, which raises [TypeError]. *)
Definition _sub_result_version (agent_info : gmap str (option str))
  : result (option ServiceCheckResult) :=
  match agent_info !! u "version" with
  | None => inl KeyError
  | Some version =>
      let agent_version := default (u "None") version in
      let expected_version := agent_target_version host_config in
      unexpected <-
        (if truthy expected_version && negb (bool_decide (agent_version = []))
         then ok <- _is_expected_agent_version (Some agent_version)
                      expected_version ;;
              inr (negb ok)
         else inr false) ;;
      if unexpected : bool then
        let status := exit_state (u "wrong_version") in
        marker <- Seq.index (state_markers env) status ;;
        inr (Some (status,
                   u "unexpected agent version " ++ agent_version
                     ++ u " (should be " ++ expected_text expected_version
                     ++ u ")" ++ marker,
                   []))
      else if bool_decide (agent_min_version env ≠ 0) then inl TypeError
      else inr None
  end.

(** [AgentSummarizerDefault._sub_result_only_from] *)
Definition _sub_result_only_from (agent_info : gmap str (option str))
  : result (option ServiceCheckResult) :=
  match agent_info !! u "onlyfrom" with
  | None | Some None => inr None
  | Some (Some agent_only_from) =>
      match only_from host_config with
      | None => inr None
      | Some config_only_from =>
          allowed <- normalize_ip_addresses env (inl agent_only_from) ;;
          expected <- normalize_ip_addresses env config_only_from ;;
          let allowed_nets : gset str := list_to_set allowed in
          let expected_nets : gset str := list_to_set expected in
          if bool_decide (allowed_nets = expected_nets) then
            marker <- Seq.index (state_markers env) 0 ;;
            inr (Some (0,
                       u "Allowed IP ranges: "
                         ++ Str.join (u " ") (iter_set env allowed_nets)
                         ++ marker,
                       []))
          else
            let exceeding := allowed_nets ∖ expected_nets in
            let missing := expected_nets ∖ allowed_nets in
            let infotexts :=
              (if bool_decide (exceeding = ∅) then []
               else [u "exceeding: " ++ Str.join (u " ") (sorted exceeding)])
              ++ (if bool_decide (missing = ∅) then []
                  else [u "missing: " ++ Str.join (u " ") (sorted missing)]) in
            let mismatch_state := exit_state (u "restricted_address_mismatch") in
            marker <- Seq.index (state_markers env) mismatch_state ;;
            inr (Some (mismatch_state,
                       u "Unexpected allowed IP ranges ("
                         ++ Str.join (u ", ") infotexts ++ u ")" ++ marker,
                       []))
      end
  end.

(** [AgentSummarizerDefault._summarize_impl]; both sub-results are
    computed before the loop looks at either. *)
Definition _summarize_impl (cmk_section : option AgentSectionContent)
    (for_checking : bool) : result ServiceCheckResult :=
  agent_info <- _get_agent_info cmk_section ;;
  agent_version <-
    match agent_info !! u "version" with
    | Some v => inr v
    | None => inl KeyError
    end ;;
  let output :=
    match agent_version with
    | Some v => if is_cluster host_config then [] else [u "Version: " ++ v]
    | None => []
    end in
  agentos <-
    (if is_cluster host_config then inr None
     else match agent_info !! u "agentos" with
          | Some v => inr v
          | None => inl KeyError
          end) ;;
  let output :=
    output ++ match agentos with Some v => [u "OS: " ++ v] | None => [] end in
  sub_results <-
    (if for_checking
        && match cmk_section with None | Some [] => false | Some _ => true end
     then version <- _sub_result_version agent_info ;;
          only <- _sub_result_only_from agent_info ;;
          inr [version; only]
     else inr []) ;;
  let '(status, output, perfdata) :=
    foldl (λ acc sub_result,
             match sub_result with
             | None => acc
             | Some (sub_status, sub_output, sub_perfdata) =>
                 let '(status, output, perfdata) := acc in
                 (Z.max status sub_status, output ++ [sub_output],
                  perfdata ++ sub_perfdata)
             end)
          (0, output, []) (sub_results : list (option ServiceCheckResult)) in
  inr (status, Str.join (u ", ") output, perfdata).

(** [AgentSummarizerDefault.summarize_success] *)
Definition summarize_success (host_sections : Memory) (checking : bool)
  : result ServiceCheckResult :=
  check_mk <- SectionName rt (u "check_mk") ;;
  _summarize_impl (sections_view host_sections !! check_mk) checking.

End Summarizer.

(** A reference instance of the summarizer's environment. *)

Module ReferenceEnv.

(** Modelled from the spec: [is_daily_build_version] and
    [branch_of_daily_build] of [cmk.utils.misc] are not under src.  A
    daily build is named by its date ("2014.06.01", ten characters);
    "for branch builds (contain -), use the portion after -", as in
    "1.2.4-2014.06.01". *)
Definition is_daily (v : str) : result bool :=
  inr (bool_decide (length v = 10%nat) || bool_decide (45%N ∈ v)).

Definition branch (v : str) : result str :=
  if bool_decide (length v = 10%nat) then inr (u "master")
  else Seq.index (Py.split 45%N v) 0.

(** Modelled from the spec: [parse_check_mk_version] of
    [cmk.utils.werks] is not under src; "monotonic integer encoding of
    a semantic version string".  Here: the decimal digits of the text
    read as one number. *)
Definition parse_version (v : str) : result Z :=
  inr (foldl (λ acc c, 10 * acc + (Z.of_N c - 48)) 0
         (filter (λ c, Reference.is_digit c = true) v)).

(** Modelled from the spec: IP-range normalization is an external
    collaborator; here the ranges are the whitespace-separated words. *)
Definition normalize (x : str + list str) : result (list str) :=
  match x with
  | inl text => inr (Str.split_ws text)
  | inr texts => inr (texts ≫= Str.split_ws)
  end.

Definition ascii_lower (s : str) : str :=
  (λ c, if (65 <=? c) && (c <=? 90) then c + 32 else c)%N <$> s.

Definition environment : Environment :=
  {| is_daily_build_version := is_daily;
     branch_of_daily_build := branch;
     parse_check_mk_version := parse_version;
     normalize_ip_addresses := normalize;
     state_markers := [u ""; u "(!)"; u "(!!)"; u "(?)"];
     debug_enabled := false;
     agent_min_version := 0;
     lower := ascii_lower;
     iter_set := elements;
     show_target := λ t, match t with
                         | TargetVersion v => v
                         | TargetNone => u "None"
                         | TargetTuple kind _ => u "(" ++ kind ++ u ", ...)"
                         end;
     show_exn := λ e, match e with
                      | ValueError => u "ValueError"
                      | IndexError => u "IndexError"
                      | _ => u "Exception"
                      end |}.

End ReferenceEnv.

Definition at_least_build : HostConfig :=
  {| is_cluster := false;
     agent_target_version :=
       TargetTuple (u "at_least") {[ u "daily_build" := u "2014.06.01" ]};
     only_from := None |}.

Definition rc_section : AgentSectionContent := [[u "Version:"; u "2.0.0-rc1"]].

(** ** The version sub-check when the comparison raises *)

(** What leaves [_is_expected_agent_version] when its body raises [e]. *)
Definition version_check_error (env : Environment) (agent_version : option str)
    (expected_version : AgentTargetVersion) (e : exn) : exn :=
  if debug_enabled env then e
  else MKGeneralException (version_check_message env agent_version expected_version e).

Definition rc_agent_info : gmap str (option str) :=
  {[ u "version" := Some (u "2.0.0-rc1"); u "agentos" := Some (u "unknown") ]}.

(** ** The only-from sub-check *)

Abbreviation str_le := (λ x y : str, Seq.le x y = true).

(** The parenthesised part of the mismatch message. *)
Definition mismatch_infotexts (exceeding missing : list str) : list str :=
  match exceeding with
  | [] => []
  | _ => [u "exceeding: " ++ Str.join (u " ") exceeding]
  end
  ++ match missing with
     | [] => []
     | _ => [u "missing: " ++ Str.join (u " ") missing]
     end.

Definition only_from_info : gmap str (option str) :=
  {[ u "onlyfrom" := Some (u "10.0.0.0/8 9.9.9.9 8.8.8.8") ]}.

Definition only_from_config : HostConfig :=
  {| is_cluster := false; agent_target_version := TargetNone;
     only_from := Some (inr [u "10.0.0.0/8"; u "1.2.3.4"]) |}.

(** ** Vocabulary of the further properties *)

(** An option token as an agent writes it: [name(value)]. *)
Definition render_option (kv : str * str) : str := kv.1 ++ [40%N] ++ kv.2 ++ [41%N].

(** The text between [<<<] and [>>>] of a header with the given name and
    options. *)
Definition render_header (n : str) (pairs : list (str * str)) : str :=
  Str.join [58%N] (n :: (render_option <$> pairs)).

(** ** The invariant behind the results of a parse *)

(** The store of a parse started at time [T]: every name in [sections]
    is bound to a list object of its own in [heap]; a persisted entry is
    stamped [T] and holds the list object its name is bound to; what has
    cache information is a section. *)
Definition store_ok (T : Z) (m : Memory) : Prop :=
  (∀ n l, sections m !! n = Some l → (l < length (heap m))%nat)
  ∧ (∀ n n' l, sections m !! n = Some l → sections m !! n' = Some l → n = n')
  ∧ (∀ n T' U l, persisted_sections m !! n = Some (T', U, l) →
       T' = T ∧ sections m !! n = Some l)
  ∧ (∀ n, is_Some (cache_info m !! n) → is_Some (sections m !! n)).

(** The invariant of the line loop: the store is in order, and the
    section a host-section parser reads into is bound. *)
Definition consistent (pm : ParserState * Memory) : Prop :=
  store_ok (cached_at pm.1) pm.2
  ∧ ∀ hdr, state pm.1 = HostSectionParser hdr →
           is_Some (sections pm.2 !! name hdr).

(** A host whose agents are expected to run version "2.0.0". *)
Definition literal_target : HostConfig :=
  {| is_cluster := false; agent_target_version := TargetVersion (u "2.0.0");
     only_from := None |}.

(** * Part II: properties *)

Example add_cached_info_E2 :
  _add_cached_info (b "<<<uptime>>>") 1000 90 = b "<<<uptime:cached(1000,90)>>>".
Proof. reflexivity. Qed.

Example fmt_d_examples :
  Py.fmt_d 0 = b "0" ∧ Py.fmt_d 1500 = b "1500" ∧ Py.fmt_d (-7) = b "-7".
Proof. by vm_compute. Qed.

Example add_cached_info_persist :
  _add_cached_info (b "<<<a:persist(7)>>>") 1000 90 = b "<<<a:persist(7)>>>".
Proof. reflexivity. Qed.

Section SeqLemmas.

Context {A : Type} `{EqDecision A}.

Lemma startswith_app (p l : list A) : Py.startswith p (p ++ l) = true.
Proof.
  induction p as [|a p IH]; simpl; [done|].
  by rewrite decide_True.
Qed.

Lemma startswith_prefix (p l : list A) :
  Py.startswith p l = true ↔ ∃ k, l = p ++ k.
Proof.
  revert l; induction p as [|a p IH]; intros l; simpl.
  - split; [eauto|done].
  - destruct l as [|c l].
    + split; [done|]. by intros [k ?].
    + case_decide as Hac.
      * subst. rewrite IH. split; intros [k Hk]; exists k; by simplify_eq.
      * split; [done|]. intros [k ?]. by simplify_eq.
Qed.

Lemma contains_startswith (needle hay : list A) :
  Py.startswith needle hay = true → Py.contains needle hay = true.
Proof. intros Hs. destruct hay; simpl; by rewrite Hs. Qed.

Lemma contains_app (needle pre post : list A) :
  Py.contains needle (pre ++ needle ++ post) = true.
Proof.
  induction pre as [|c pre IH].
  - rewrite app_nil_l. apply contains_startswith, startswith_app.
  - simpl. rewrite IH. apply orb_true_r.
Qed.

Lemma contains_infix (needle hay : list A) :
  Py.contains needle hay = true ↔ ∃ pre post, hay = pre ++ needle ++ post.
Proof.
  split.
  - induction hay as [|c hay IH]; simpl.
    + rewrite orb_false_r. intros [k ->]%startswith_prefix. by exists [], k.
    + intros [[k ->]%startswith_prefix|Hc]%orb_true_iff.
      * by exists [], k.
      * destruct (IH Hc) as (pre & post & ->). by exists (c :: pre), post.
  - intros (pre & post & ->). apply contains_app.
Qed.

End SeqLemmas.

Lemma add_cached_info_marked (h : bytes) (cached_at cache_age : Z) :
  Py.contains (b ":cached(") h || Py.contains (b ":persist(") h = true →
  _add_cached_info h cached_at cache_age = h.
Proof. intros Hc. unfold _add_cached_info. by rewrite Hc. Qed.

Lemma add_cached_info_marks (h : bytes) (cached_at cache_age : Z) :
  Py.contains (b ":cached(") (_add_cached_info h cached_at cache_age)
  || Py.contains (b ":persist(") (_add_cached_info h cached_at cache_age) = true.
Proof.
  unfold _add_cached_info.
  destruct (Py.contains (b ":cached(") h || Py.contains (b ":persist(") h) eqn:E;
    [done|].
  rewrite (app_assoc (b "<<<") (Py.slice 3 3 h)).
  by rewrite contains_app.
Qed.

(** C5: the piggyback header rewrite is idempotent.  Whatever the line and
    the pair (captured_at, cache_age), rewriting the rewritten line returns
    it unchanged: the output of the first pass either already carried
    [:cached(] or [:persist(] or has just received [:cached(]. *)
Theorem add_cached_info_idempotent (h : bytes) (cached_at cache_age : Z) :
  _add_cached_info (_add_cached_info h cached_at cache_age) cached_at cache_age
  = _add_cached_info h cached_at cache_age.
Proof. apply add_cached_info_marked, add_cached_info_marks. Qed.

Example ensure_str_ascii : ensure_str (b "a:b") = inr (u "a:b").
Proof. reflexivity. Qed.

Example ensure_str_two_bytes : ensure_str [xc3; xa9] = inr [233%N].
Proof. reflexivity. Qed.

Example ensure_str_overlong : ensure_str [xc0; x80] = inl UnicodeDecodeError.
Proof. reflexivity. Qed.

Example split_colon :
  Py.split 58%N (u "a:b::c") = [u "a"; u "b"; u ""; u "c"].
Proof. reflexivity. Qed.

Example split_ws_example :
  Str.split_ws (u "  a  b c ") = [u "a"; u "b"; u "c"].
Proof. reflexivity. Qed.

Example cache_age_of_1 : cache_age_of 1 = inr 90.
Proof. vm_compute. reflexivity. Qed.

Example cache_age_of_7 : cache_age_of 7 = inr 630.
Proof. vm_compute. reflexivity. Qed.

(** ** Recognition lemmas *)

Lemma lstrip_fixed (l : bytes) :
  head (Py.lstrip l) = None ∨ ∃ c, head (Py.lstrip l) = Some c ∧ Py.is_space c = false.
Proof.
  induction l as [|c l IH]; simpl; [by left|].
  destruct (Py.is_space c) eqn:E; [done|]. right. by exists c.
Qed.

Lemma lstrip_id (l : bytes) :
  (∀ c, head l = Some c → Py.is_space c = false) → Py.lstrip l = l.
Proof.
  destruct l as [|c l]; simpl; [done|]. intros H. by rewrite (H c).
Qed.

Lemma lstrip_idemp (l : bytes) : Py.lstrip (Py.lstrip l) = Py.lstrip l.
Proof.
  apply lstrip_id. intros c Hc.
  destruct (lstrip_fixed l) as [Hn|(c' & Hc' & Hs)]; congruence.
Qed.

Lemma rstrip_idemp (l : bytes) : Py.rstrip (Py.rstrip l) = Py.rstrip l.
Proof. unfold Py.rstrip. by rewrite rev_involutive, lstrip_idemp. Qed.

Lemma lstrip_suffix (l : bytes) : ∃ k, l = k ++ Py.lstrip l.
Proof.
  induction l as [|c l [k IH]]; simpl; [by exists []|].
  destruct (Py.is_space c); [|by exists []].
  exists (c :: k). simpl. by f_equal.
Qed.

Lemma rstrip_prefix (l : bytes) : ∃ k, l = Py.rstrip l ++ k.
Proof.
  unfold Py.rstrip. destruct (lstrip_suffix (rev l)) as [k Hk].
  exists (rev k). rewrite <- rev_app_distr, <- Hk. by rewrite rev_involutive.
Qed.

(** Stripping the right end keeps a non-space first byte in place. *)
Lemma rstrip_head (l : bytes) c :
  head l = Some c → Py.is_space c = false → head (Py.rstrip l) = Some c.
Proof.
  intros Hh Hs. destruct l as [|c' l]; simplify_eq/=.
  unfold Py.rstrip. simpl.
  destruct (lstrip_suffix (rev l ++ [c])) as [k Hk].
  destruct (Py.lstrip (rev l ++ [c])) as [|x t] eqn:E using rev_ind.
  - exfalso. clear Hk.
    assert (∀ p, Py.lstrip (p ++ [c]) ≠ []) as Hne.
    { induction p as [|y p IHp]; simpl; [by rewrite Hs|].
      destruct (Py.is_space y); [done|]. done. }
    by eapply Hne.
  - clear IHt. rewrite app_assoc in Hk.
    apply app_inj_tail in Hk as [_ ->].
    by rewrite rev_unit.
Qed.

Lemma strip_idemp (l : bytes) : Py.strip (Py.strip l) = Py.strip l.
Proof.
  unfold Py.strip.
  rewrite (lstrip_id (Py.rstrip (Py.lstrip l))); [apply rstrip_idemp|].
  intros c Hc.
  destruct (lstrip_fixed l) as [Hn|(c' & Hc' & Hs)].
  - destruct (Py.lstrip l); [|done]. done.
  - by rewrite (rstrip_head _ _ Hc' Hs) in Hc; simplify_eq.
Qed.

Lemma piggyback_is_footer_strip (line : bytes) :
  piggyback_is_footer (Py.strip line) = piggyback_is_footer line.
Proof. unfold piggyback_is_footer. by rewrite strip_idemp. Qed.

Lemma piggyback_is_header_strip (line : bytes) :
  piggyback_is_header (Py.strip line) = piggyback_is_header line.
Proof.
  unfold piggyback_is_header. by rewrite piggyback_is_footer_strip, strip_idemp.
Qed.

Lemma host_is_footer_strip (line : bytes) :
  host_is_footer (Py.strip line) = host_is_footer line.
Proof. unfold host_is_footer. by rewrite strip_idemp. Qed.

(** What a line recognised as a host-section header is not. *)
Lemma host_is_header_excludes (line : bytes) :
  host_is_header line = true →
  blank line = false ∧ piggyback_is_header line = false
  ∧ piggyback_is_footer line = false ∧ host_is_footer line = false.
Proof.
  unfold host_is_header.
  rewrite host_is_footer_strip, piggyback_is_header_strip, piggyback_is_footer_strip.
  intros H. repeat (apply andb_true_iff in H as [H ?]).
  repeat split; try by apply negb_true_iff.
  unfold blank. apply bool_decide_eq_false. intros Hb.
  by rewrite Hb in H.
Qed.

Lemma piggyback_is_header_not_blank (line : bytes) :
  piggyback_is_header line = true → blank line = false.
Proof.
  unfold piggyback_is_header. intros H.
  repeat (apply andb_true_iff in H as [H ?]).
  unfold blank. apply bool_decide_eq_false. intros Hb. by rewrite Hb in H.
Qed.

Lemma footers_not_blank :
  blank (b "<<<>>>") = false ∧ blank (b "<<<<>>>>") = false
  ∧ host_is_footer (b "<<<>>>") = true
  ∧ piggyback_is_footer (b "<<<<>>>>") = true
  ∧ piggyback_is_header (b "<<<>>>") = false
  ∧ piggyback_is_header (b "<<<<>>>>") = false.
Proof. by vm_compute. Qed.

(** The stream [<<<a>>>], [<<<<me>>>>], [x] on host "me": at the
    piggyback header naming the host itself the parser is in the host
    section [a], does not go to NOOP, and the following line [x] lands
    in [sections["a"]]. *)
Lemma host_section_self_piggyback_counterexample :
  let m := setdefault_section (u "a") empty_memory in
  piggyback_is_header (b "<<<<me>>>>") = true
  ∧ piggyback_parse_header Reference.runtime (b "<<<<me>>>>") (hostname in_section_a)
    = inr (hostname in_section_a)
  ∧ state (call Reference.runtime in_section_a (b "<<<<me>>>>") m).1 ≠ NOOPParser
  ∧ sections_view
      (feed Reference.runtime (in_section_a, m) [b "<<<<me>>>>"; b "x"]).2
    !! u "a" = Some [[u "x"]]
  ∧ ∃ p m',
      _parse_host_section Reference.runtime (u "me") 1500
        (b "<<<a>>>" ++ [x0a] ++ b "<<<<me>>>>" ++ [x0a] ++ b "x") 1 = inr (p, m')
      ∧ state p ≠ NOOPParser
      ∧ sections_view m' !! u "a" = Some [[u "x"]].
Proof.
  split; [reflexivity|]. split; [reflexivity|].
  split; [by vm_compute|]. split; [vm_compute; reflexivity|].
  eexists _, _. split; [vm_compute; reflexivity|].
  split; [done|vm_compute; reflexivity].
Qed.

(** C1 (amended): in the HostSection state, a piggyback header whose
    translated, sanitized target is the receiving host itself changes
    nothing: the parser returned is the same host-section parser and the
    shared store is untouched, so the section stays open and following
    content lines are still appended to it. *)
Theorem host_section_self_piggyback_stays (rt : Runtime) (self : ParserState)
    (section_header : AgentParserSectionHeader) (line : bytes) (m : Memory) :
  state self = HostSectionParser section_header →
  piggyback_is_header line = true →
  piggyback_parse_header rt line (hostname self) = inr (hostname self) →
  call rt self line m = (self, m)
  ∧ ∀ content, call rt (call rt self line m).1 content (call rt self line m).2
               = host_call rt self section_header content m.
Proof.
  intros Hst Hh Hp.
  assert (call rt self line m = (self, m)) as Hcall.
  { unfold call. rewrite Hst. unfold host_call.
    rewrite (piggyback_is_header_not_blank _ Hh), Hh, Hp.
    by rewrite bool_decide_eq_true_2. }
  split; [done|]. intros content. rewrite Hcall. simpl.
  unfold call. by rewrite Hst.
Qed.

Lemma host_section_self_piggyback_stays_witness :
  call Reference.runtime in_section_a (b "<<<<me>>>>")
    (setdefault_section (u "a") empty_memory)
  = (in_section_a, setdefault_section (u "a") empty_memory).
Proof.
  apply (host_section_self_piggyback_stays Reference.runtime in_section_a
           section_a (b "<<<<me>>>>")); reflexivity.
Defined.

(** ** The line loop *)

Lemma split_nonempty {A} `{EqDecision A} (sep : A) (l : list A) :
  Py.split sep l ≠ [].
Proof.
  destruct l as [|c l]; simpl; [done|].
  case_decide; [done|]. by destruct (Py.split sep l).
Qed.

Lemma split_app_sep {A} `{EqDecision A} (sep : A) (l r : list A) :
  Py.split sep (l ++ sep :: r) = Py.split sep l ++ Py.split sep r.
Proof.
  induction l as [|c l IH]; simpl.
  - by rewrite decide_True.
  - case_decide; [by rewrite IH|].
    rewrite IH. pose proof (split_nonempty sep l).
    by destruct (Py.split sep l).
Qed.

Lemma split_no_sep {A} `{EqDecision A} (sep : A) (l : list A) :
  sep ∉ l → Py.split sep l = [l].
Proof.
  induction l as [|c l IH]; simpl; [done|].
  intros [Hc Hl]%not_elem_of_cons. rewrite decide_False by done.
  by rewrite IH.
Qed.

Section Loop.

Context (rt : Runtime).

Lemma feed_app pm l1 l2 : feed rt pm (l1 ++ l2) = feed rt (feed rt pm l1) l2.
Proof. apply foldl_app. Qed.

Lemma feed_cons pm line lines :
  feed rt pm (line :: lines)
  = feed rt (call rt pm.1 (Py.rstrip_byte x0a line) pm.2) lines.
Proof. done. Qed.

Lemma to_host_section_parser_fields self section_header m p m' :
  to_host_section_parser rt self section_header m = (inr p, m') →
  hostname p = hostname self ∧ cached_at p = cached_at self
  ∧ cache_age p = cache_age self ∧ state p = HostSectionParser section_header.
Proof.
  unfold to_host_section_parser. intros H.
  repeat case_match; by simplify_eq/=.
Qed.

(** The immutable fields travel unchanged through every transition. *)
Lemma call_fields self line m :
  hostname (call rt self line m).1 = hostname self
  ∧ cached_at (call rt self line m).1 = cached_at self
  ∧ cache_age (call rt self line m).1 = cache_age self.
Proof.
  unfold call, noop_call, piggyback_call, host_call, host_parse_header, except.
  repeat case_match; simpl; try done;
    repeat match goal with
      | H : (_, _) = (_, _) |- _ => injection H as <- <-
      | H : inr _ = inr _ |- _ => injection H as <-
      | H : inl _ = inr _ |- _ => discriminate H
      | H : inr _ = inl _ |- _ => discriminate H
      end;
    simpl; try done;
    match goal with
    | H : to_host_section_parser _ _ _ _ = (inr _, _) |- _ =>
        by apply to_host_section_parser_fields in H as (? & ? & ? & _)
    end.
Qed.

Lemma feed_fields pm lines :
  hostname (feed rt pm lines).1 = hostname pm.1
  ∧ cached_at (feed rt pm lines).1 = cached_at pm.1
  ∧ cache_age (feed rt pm lines).1 = cache_age pm.1.
Proof.
  revert pm. induction lines as [|line lines IH]; intros pm; [done|].
  rewrite feed_cons.
  destruct (IH (call rt pm.1 (Py.rstrip_byte x0a line) pm.2)) as (-> & -> & ->).
  apply call_fields.
Qed.

End Loop.

Lemma call_closing_footer (rt : Runtime) (self : ParserState) (m : Memory) f :
  f ∈ closing_footer (state self) →
  call rt self (Py.rstrip_byte x0a f) m = (to_noop_parser self, m).
Proof.
  unfold call, closing_footer.
  destruct (state self); intros Hf; set_unfold; [done| |];
    destruct Hf as [->|[]]; reflexivity.
Qed.

Lemma feed_closing_footer (rt : Runtime) (self : ParserState) (m : Memory) :
  feed rt (self, m) (closing_footer (state self))
  = (match state self with NOOPParser => self | _ => to_noop_parser self end, m).
Proof.
  pose proof (call_closing_footer rt self m) as H.
  destruct (state self); simpl in *; [done| |];
    (rewrite H; [done|set_solver]).
Qed.

Lemma call_blank (rt : Runtime) (self : ParserState) (line : bytes) (m : Memory) :
  blank line = true → call rt self line m = (self, m).
Proof.
  intros Hb. unfold call, noop_call, piggyback_call, host_call.
  destruct (state self); by rewrite Hb.
Qed.

Lemma feed_with_line (rt : Runtime) (pm : ParserState * Memory)
    (raw_data f : bytes) :
  x0a ∉ f →
  feed rt pm (Py.split x0a (with_lines raw_data [f]))
  = feed rt (feed rt pm (Py.split x0a raw_data)) [f].
Proof.
  intros Hf. unfold with_lines. simpl. rewrite !app_nil_r.
  case_bool_decide as Hlast.
  - apply last_Some in Hlast as [raw' ->].
    rewrite <- (app_assoc raw'). simpl.
    rewrite !split_app_sep, !feed_app.
    rewrite (split_no_sep x0a f Hf).
    destruct (feed rt pm (Py.split x0a raw')) as [q mq].
    simpl. rewrite !(call_blank rt _ (Py.rstrip_byte x0a [])) by done.
    simpl. by destruct (call rt q (Py.rstrip_byte x0a f) mq).
  - by rewrite split_app_sep, feed_app, (split_no_sep x0a f Hf).
Qed.

(** Parsing the stream with the closing footer added is parsing the
    stream and then reading the footer. *)
Lemma feed_with_lines (rt : Runtime) (pm : ParserState * Memory)
    (raw_data : bytes) (s : State) :
  feed rt pm (Py.split x0a (with_lines raw_data (closing_footer s)))
  = feed rt (feed rt pm (Py.split x0a raw_data)) (closing_footer s).
Proof.
  destruct s as [|t|h]; simpl closing_footer.
  - unfold with_lines. simpl. rewrite !app_nil_r. by case_bool_decide.
  - apply feed_with_line, (bool_decide_eq_false_1 (_ ∈ _)). by vm_compute.
  - apply feed_with_line, (bool_decide_eq_false_1 (_ ∈ _)). by vm_compute.
Qed.

(** C6: footers are optional at end of input.  Whatever block is open
    when the stream ends, the same stream with the footer of that block
    appended as a further line ([<<<>>>] for a host section, [<<<<>>>>]
    for a piggyback block) gives the same store, hence the same
    [sections] mapping, and leaves the parser in NOOP. *)
Theorem footer_optional (rt : Runtime) (self_hostname : str) (now : Z)
    (raw_data : bytes) (check_interval : Z) (p : ParserState) (m : Memory) :
  _parse_host_section rt self_hostname now raw_data check_interval = inr (p, m) →
  state p ≠ NOOPParser →
  ∃ p' m',
    _parse_host_section rt self_hostname now
      (with_lines raw_data (closing_footer (state p))) check_interval
    = inr (p', m')
    ∧ state p' = NOOPParser
    ∧ m' = m
    ∧ sections_view m' = sections_view m.
Proof.
  unfold _parse_host_section. intros Hparse Hopen.
  destruct (cache_age_of check_interval) as [e|age]; simplify_eq/=.
  rewrite feed_with_lines.
  destruct (feed rt _ (Py.split x0a raw_data)) as [q mq] eqn:Hq.
  simplify_eq. rewrite feed_closing_footer.
  eexists _, _. split; [done|].
  by destruct (state p).
Qed.

Lemma footer_optional_witness :
  ∃ p m,
    _parse_host_section Reference.runtime (u "me") 1500 open_section_stream 1
    = inr (p, m)
    ∧ state p ≠ NOOPParser
    ∧ ∃ p' m',
        _parse_host_section Reference.runtime (u "me") 1500
          (with_lines open_section_stream (closing_footer (state p))) 1
        = inr (p', m')
        ∧ state p' = NOOPParser ∧ m' = m ∧ sections_view m' = sections_view m.
Proof.
  eexists _, _. split; [vm_compute; reflexivity|]. split; [done|].
  eapply (footer_optional Reference.runtime (u "me") 1500 open_section_stream 1);
    [vm_compute; reflexivity|done].
Defined.

Lemma split1_spec (sep : N) (nm value : str) :
  sep ∉ nm → Str.split1 sep (nm ++ sep :: value) = Some (nm, value).
Proof.
  induction nm as [|c nm IH]; simpl; intros Hn.
  - by rewrite N.eqb_refl.
  - apply not_elem_of_cons in Hn as [Hc Hn].
    destruct (N.eqb_spec c sep) as [->|_]; [done|].
    by rewrite IH.
Qed.

Lemma parse_options_malformed (elems : list str) (tok : str) :
  tok ∈ elems → malformed_option tok → raised (parse_options elems).
Proof.
  intros Hin (nm & value & -> & Hnm & Hlast).
  induction elems as [|option elems IH]; [by apply elem_of_nil in Hin|].
  apply elem_of_cons in Hin as [<-|Hin]; simpl.
  - rewrite split1_spec by done.
    destruct (last value) as [c|]; [|by eexists].
    destruct (N.eqb_spec c 41) as [->|_]; [done|by eexists].
  - destruct (Str.split1 40 option) as [[n v]|]; [|by apply IH].
    destruct (last v) as [c|]; [|by eexists].
    destruct (c =? 41)%N; [|by eexists].
    destruct (IH Hin) as [e ->]. by eexists.
Qed.

(** C7: a host-section header with an option token whose value does not
    end in ")" is rejected.  Read in the NOOP state or inside a host
    section, the line makes [from_headerline] raise; the only effect is
    the warning naming the line: no section is created, nothing else in
    the store changes, and the parser is a NOOP parser from which later
    well-formed sections are parsed as usual. *)
Theorem malformed_option_header_rejected (rt : Runtime) (self : ParserState)
    (line : bytes) (m : Memory) (text tok : str) :
  (state self = NOOPParser ∨ ∃ h, state self = HostSectionParser h) →
  host_is_header line = true →
  ensure_str (Py.slice 3 3 line) = inr text →
  tok ∈ tl (Py.split 58%N text) →
  malformed_option tok →
  raised (from_headerline rt line)
  ∧ call rt self line m = (to_noop_parser self, log_warning line m)
  ∧ state (call rt self line m).1 = NOOPParser
  ∧ sections (call rt self line m).2 = sections m
  ∧ warnings (call rt self line m).2 = warnings m ++ [line].
Proof.
  intros Hst Hh Htext Htok Hbad.
  assert (raised (from_headerline rt line)) as [e He].
  { unfold from_headerline. rewrite Hh, Htext. simpl.
    destruct (SectionName rt _); [by eexists|]. simpl.
    destruct (parse_options_malformed _ _ Htok Hbad) as [e ->]. by eexists. }
  destruct (host_is_header_excludes _ Hh) as (Hb & Hph & Hpf & Hhf).
  assert (call rt self line m = (to_noop_parser self, log_warning line m)) as ->.
  { unfold call.
    destruct Hst as [->|[h ->]]; unfold noop_call, host_call, host_parse_header;
      by rewrite Hb, Hph, ?Hhf, Hh, He. }
  split; [by eexists|]. done.
Qed.

Lemma malformed_option_header_rejected_witness :
  call Reference.runtime noop_me (b "<<<garbage:broken(>>>") empty_memory
  = (noop_me, log_warning (b "<<<garbage:broken(>>>") empty_memory)
  ∧ ∃ p m,
      _parse_host_section Reference.runtime (u "me") 1500
        (b "<<<garbage:broken(>>>" ++ [x0a] ++ b "<<<ok>>>" ++ [x0a] ++ b "x"
           ++ [x0a]) 1
      = inr (p, m)
      ∧ sections_view m = {[ u "ok" := [[u "x"]] ]}
      ∧ warnings m = [b "<<<garbage:broken(>>>"].
Proof.
  split.
  - apply (malformed_option_header_rejected Reference.runtime noop_me
             (b "<<<garbage:broken(>>>") empty_memory
             (u "garbage:broken(") (u "broken(")).
    + by left.
    + reflexivity.
    + reflexivity.
    + vm_compute. constructor.
    + exists (u "broken"), []. split; [reflexivity|]. split; [|done].
      vm_compute. intros H. by repeat (apply elem_of_cons in H as [?|H]; [done|]);
        apply elem_of_nil in H.
  - eexists _, _. split; [vm_compute; reflexivity|]. split; [|reflexivity].
    vm_compute. reflexivity.
Defined.

Section Sanitization.

Context (rt : Runtime).


Lemma to_host_section_parser_piggybacked self section_header m :
  piggybacked_raw_data (to_host_section_parser rt self section_header m).2
  = piggybacked_raw_data m.
Proof.
  unfold to_host_section_parser, setdefault_section.
  repeat case_match; by simplify_eq/=.
Qed.






End Sanitization.

Section Staging.

Context (rt : Runtime).

Lemma setdefault_section_lookup n m k :
  sections (setdefault_section n m) !! k
  = match sections m !! k with
    | Some l => Some l
    | None => if decide (n = k) then Some (length (heap m)) else None
    end.
Proof.
  unfold setdefault_section.
  destruct (sections m !! n) eqn:En; simpl.
  - destruct (sections m !! k) eqn:Ek; [done|].
    case_decide; [congruence|done].
  - rewrite lookup_insert. case_decide; subst.
    + by rewrite En.
    + by destruct (sections m !! k).
Qed.

Lemma setdefault_section_is_Some n m :
  is_Some (sections (setdefault_section n m) !! n).
Proof.
  rewrite setdefault_section_lookup.
  destruct (sections m !! n); [by eexists|]. rewrite decide_True by done.
  by eexists.
Qed.

Lemma setdefault_section_view n m :
  sections_view (setdefault_section n m) !! n
  = Some (default [] (sections_view m !! n)).
Proof.
  unfold sections_view. rewrite !lookup_fmap.
  unfold setdefault_section.
  destruct (sections m !! n) eqn:En; simpl.
  - by rewrite En.
  - rewrite lookup_insert_eq. simpl. unfold payload. simpl.
    by rewrite lookup_app_r, Nat.sub_diag.
Qed.

(** What [HostSectionParser.__init__] does to the shared objects. *)
Lemma to_host_section_parser_effect self hdr m :
  let m0 := setdefault_section (name hdr) m in
  let m' := (to_host_section_parser rt self hdr m).2 in
  heap m' = heap m0 ∧ sections m' = sections m0
  ∧ warnings m' = warnings m
  ∧ (persisted_sections m' = persisted_sections m
     ∨ ∃ U l, persist rt hdr = inr (Some U)
              ∧ sections m0 !! name hdr = Some l
              ∧ persisted_sections m'
                = <[name hdr := (cached_at self, U, l)]> (persisted_sections m)).
Proof.
  simpl. unfold to_host_section_parser.
  destruct (setdefault_section_is_Some (name hdr) m) as [l Hl].
  assert (persisted_sections (setdefault_section (name hdr) m)
          = persisted_sections m) as Hp.
  { unfold setdefault_section. by destruct (sections m !! name hdr). }
  assert (warnings (setdefault_section (name hdr) m) = warnings m) as Hw.
  { unfold setdefault_section. by destruct (sections m !! name hdr). }
  destruct (persist rt hdr) as [e|[U|]]; simpl; [by auto| |].
  - rewrite Hl.
    destruct (cached rt hdr) as [e|[|c0 [|c1 rest]]]; simpl;
      rewrite ?Hp; repeat split; try done; right; by exists U, l.
  - destruct (cached rt hdr) as [e|[|c0 [|c1 rest]]]; simpl;
      rewrite ?Hp; repeat split; try done; by left.
Qed.

Lemma from_headerline_is_header line hdr :
  from_headerline rt line = inr hdr → host_is_header line = true.
Proof.
  unfold from_headerline. by destruct (host_is_header line).
Qed.

(** In the NOOP state and inside a host section, a line that parses
    as a section header is handed to [to_host_section_parser]. *)
Lemma call_header self line m hdr :
  (state self = NOOPParser ∨ ∃ h, state self = HostSectionParser h) →
  from_headerline rt line = inr hdr →
  call rt self line m = except self line (to_host_section_parser rt self hdr m).
Proof.
  intros Hst Hhdr.
  pose proof (from_headerline_is_header _ _ Hhdr) as Hh.
  destruct (host_is_header_excludes _ Hh) as (Hb & Hph & Hpf & Hhf).
  unfold call.
  destruct Hst as [->|[h ->]]; unfold noop_call, host_call, host_parse_header;
    by rewrite Hb, Hph, ?Hhf, Hh, Hhdr.
Qed.

(** The effect of one transition on [sections] and [persisted_sections]:
    nothing, or what the constructor of a host-section parser does. *)
Lemma call_effect self line m :
  let m' := (call rt self line m).2 in
  (sections m' = sections m ∧ persisted_sections m' = persisted_sections m)
  ∨ ∃ hdr,
      sections m' = sections (setdefault_section (name hdr) m)
      ∧ (persisted_sections m' = persisted_sections m
         ∨ ∃ U l, sections m' !! name hdr = Some l
                  ∧ persisted_sections m'
                    = <[name hdr := (cached_at self, U, l)]> (persisted_sections m)).
Proof.
  simpl.
  unfold call, noop_call, piggyback_call, host_call, host_parse_header, except.
  repeat case_match; simplify_eq/=; try (by left);
    match goal with
    | H : to_host_section_parser _ _ ?h ?m = _ |- _ =>
        right; exists h;
        destruct (to_host_section_parser_effect self h m) as (_ & Hs & _ & Hp);
        rewrite H in Hs, Hp; simpl in Hs, Hp; rewrite ?Hs;
        split; [done|];
        destruct Hp as [Hp|(U & l & _ & Hl & Hp)]; [by left|];
        right; exists U, l; by rewrite ?Hs
    end.
Qed.

(** A name bound in [sections] stays bound to the same list object. *)
Lemma call_sections_keep self line m k l :
  sections m !! k = Some l → sections (call rt self line m).2 !! k = Some l.
Proof.
  intros Hk.
  destruct (call_effect self line m) as [[-> _]|(hdr & -> & _)]; [done|].
  by rewrite setdefault_section_lookup, Hk.
Qed.

Lemma feed_sections_keep pm lines k l :
  sections pm.2 !! k = Some l → sections (feed rt pm lines).2 !! k = Some l.
Proof.
  revert pm. induction lines as [|line lines IH]; intros pm Hk; [done|].
  rewrite feed_cons. by apply IH, call_sections_keep.
Qed.

Lemma call_linked self line m n :
  linked n m → linked n (call rt self line m).2.
Proof.
  intros (l & T & U & Hs & Hp).
  pose proof (call_sections_keep self line m n l Hs) as Hs'.
  destruct (call_effect self line m) as [[_ Hp']|(hdr & _ & [Hp'|Hp'])].
  - exists l, T, U. by rewrite Hp'.
  - exists l, T, U. by rewrite Hp'.
  - destruct Hp' as (U' & l' & Hl' & Hp').
    destruct (decide (name hdr = n)) as [<-|Hne].
    + exists l, (cached_at self), U'. split; [done|].
      rewrite Hp', lookup_insert_eq. congruence.
    + exists l, T, U. split; [done|]. by rewrite Hp', lookup_insert_ne.
Qed.

Lemma feed_linked pm lines n : linked n pm.2 → linked n (feed rt pm lines).2.
Proof.
  revert pm. induction lines as [|line lines IH]; intros pm Hl; [done|].
  rewrite feed_cons. by apply IH, call_linked.
Qed.

(** Through a linked name, the persisted payload is the live payload. *)
Lemma linked_view n m :
  linked n m →
  ∃ T U content,
    persisted_view m !! n = Some (T, U, content)
    ∧ sections_view m !! n = Some content.
Proof.
  intros (l & T & U & Hs & Hp). exists T, U, (payload m l).
  unfold persisted_view, sections_view. by rewrite !lookup_fmap, Hs, Hp.
Qed.

Lemma except_memory self line (r : result ParserState * Memory) :
  heap (except self line r).2 = heap r.2
  ∧ sections (except self line r).2 = sections r.2
  ∧ cache_info (except self line r).2 = cache_info r.2
  ∧ persisted_sections (except self line r).2 = persisted_sections r.2.
Proof. by destruct r as [[e|p] m']. Qed.

Lemma sections_view_ext m1 m2 :
  heap m1 = heap m2 → sections m1 = sections m2 →
  sections_view m1 = sections_view m2.
Proof. unfold sections_view, payload. by intros -> ->. Qed.

Lemma to_host_section_parser_raises self hdr m :
  init_raises rt hdr → raised (to_host_section_parser rt self hdr m).1.
Proof.
  unfold to_host_section_parser.
  destruct (setdefault_section_is_Some (name hdr) m) as [l Hl].
  intros [[e He]|[[e He]|[c Hc]]].
  - rewrite He. by eexists.
  - destruct (persist rt hdr) as [e'|[U|]]; [by eexists| |]; simpl;
      rewrite ?Hl, He; by eexists.
  - destruct (persist rt hdr) as [e'|[U|]]; [by eexists| |]; simpl;
      rewrite ?Hl, Hc; by eexists.
Qed.

(** C10: a host-section header that is recognised and tokenized binds
    [sections[name]] before any option value is read: to a fresh empty
    payload when the name is new, to its existing payload otherwise.
    The name is a key of the mapping from then on: with no content line
    following, and also when the constructor then raises on a malformed
    [persist] or [cached] value, which logs the line and leaves a NOOP
    parser. *)
Theorem header_binds_section (self : ParserState) (line : bytes) (m : Memory)
    (hdr : AgentParserSectionHeader) (lines : list bytes) :
  (state self = NOOPParser ∨ ∃ h, state self = HostSectionParser h) →
  from_headerline rt line = inr hdr →
  let pm := call rt self line m in
  sections_view pm.2 !! name hdr = Some (default [] (sections_view m !! name hdr))
  ∧ (init_raises rt hdr →
     state pm.1 = NOOPParser ∧ warnings pm.2 = warnings m ++ [line])
  ∧ name hdr ∈ dom (sections_view (feed rt pm lines).2).
Proof.
  intros Hst Hhdr pm.
  assert (pm = except self line (to_host_section_parser rt self hdr m)) as Hpm
    by by apply call_header.
  destruct (to_host_section_parser_effect self hdr m) as (Hheap & Hsec & Hw & _).
  destruct (except_memory self line (to_host_section_parser rt self hdr m))
    as (Hheap' & Hsec' & _).
  assert (sections_view pm.2 !! name hdr
          = Some (default [] (sections_view m !! name hdr))) as Hview.
  { rewrite <- setdefault_section_view, Hpm. f_equal.
    apply sections_view_ext; congruence. }
  split; [done|]. split.
  - intros [e He]%(to_host_section_parser_raises self hdr m).
    rewrite Hpm.
    destruct (to_host_section_parser rt self hdr m) as [r m'].
    simpl in *. subst r. simpl. by rewrite Hw.
  - apply elem_of_dom. unfold sections_view in *.
    rewrite lookup_fmap in *.
    destruct (sections pm.2 !! name hdr) as [l|] eqn:El; [|done].
    by rewrite (feed_sections_keep pm lines _ l El).
Qed.

Lemma persist_option hdr v U :
  options hdr !! u "persist" = Some v → int_of_str rt v = inr U →
  persist rt hdr = inr (Some U).
Proof. unfold persist. by intros -> ->. Qed.

Lemma to_host_section_parser_persist self hdr m U :
  persist rt hdr = inr (Some U) →
  let m' := (to_host_section_parser rt self hdr m).2 in
  (∃ l, sections m' !! name hdr = Some l
        ∧ persisted_sections m' !! name hdr = Some (cached_at self, U, l))
  ∧ cache_info m' !! name hdr
    = Some match cached rt hdr with
           | inr (c0 :: c1 :: _) => (c0, c1)
           | _ => (cached_at self, U - cached_at self)
           end.
Proof.
  intros Hp. simpl. unfold to_host_section_parser. rewrite Hp. simpl.
  destruct (setdefault_section_is_Some (name hdr) m) as [l Hl]. rewrite Hl.
  destruct (cached rt hdr) as [e|[|c0 [|c1 rest]]]; simpl;
    (split; [exists l; by rewrite lookup_insert_eq
            |by rewrite lookup_insert_eq]).
Qed.

Lemma cached_absent hdr :
  options hdr !! u "cached" = None → cached rt hdr = inr [].
Proof. unfold cached. by intros ->. Qed.

(** C4 (amended): a section header carrying [persist(U)], read at
    capture time [T], stages [persisted[name] = (T, U, payload)] where
    the payload is the list object bound to [sections[name]], so that
    rows appended to the section afterwards show in the persisted
    entry.  It leaves [cache_info[name] = (T, U - T)], unless the same
    header carries a [cached] option that reads as at least two
    numbers: then the first two of them are the cache information,
    [cache_info[name] = (c0, c1)]. *)
Theorem persist_option_staged (self : ParserState) (line : bytes) (m : Memory)
    (hdr : AgentParserSectionHeader) (v : str) (U : Z) :
  (state self = NOOPParser ∨ ∃ h, state self = HostSectionParser h) →
  from_headerline rt line = inr hdr →
  options hdr !! u "persist" = Some v →
  int_of_str rt v = inr U →
  let pm := call rt self line m in
  (∃ l, sections pm.2 !! name hdr = Some l
        ∧ persisted_sections pm.2 !! name hdr = Some (cached_at self, U, l))
  ∧ cache_info pm.2 !! name hdr
    = Some match cached rt hdr with
           | inr (c0 :: c1 :: _) => (c0, c1)
           | _ => (cached_at self, U - cached_at self)
           end
  ∧ (options hdr !! u "cached" = None →
     cache_info pm.2 !! name hdr = Some (cached_at self, U - cached_at self))
  ∧ ∀ lines, ∃ T' U' content,
      persisted_view (feed rt pm lines).2 !! name hdr = Some (T', U', content)
      ∧ sections_view (feed rt pm lines).2 !! name hdr = Some content.
Proof.
  intros Hst Hhdr Hv HU pm.
  assert (pm = except self line (to_host_section_parser rt self hdr m)) as Hpm
    by by apply call_header.
  pose proof (to_host_section_parser_persist self hdr m U
                (persist_option hdr v U Hv HU)) as [Hstaged Hcache].
  destruct (except_memory self line (to_host_section_parser rt self hdr m))
    as (_ & Hsec & Hci & Hps).
  rewrite <- Hpm in Hsec, Hci, Hps.
  rewrite Hsec, Hci, Hps.
  split; [done|]. split; [done|]. split.
  { intros Hc. by rewrite Hcache, (cached_absent hdr Hc). }
  intros lines. apply linked_view, feed_linked.
  destruct Hstaged as (l & Hl & Hp).
  exists l, (cached_at self), U. by rewrite Hsec, Hps.
Qed.

End Staging.


Lemma header_binds_section_witness :
  let pm := call Reference.runtime noop_me (b "<<<foo:persist(abc)>>>") empty_memory in
  sections_view pm.2 !! u "foo" = Some []
  ∧ state pm.1 = NOOPParser
  ∧ warnings pm.2 = [b "<<<foo:persist(abc)>>>"]
  ∧ u "foo" ∈ dom (sections_view (feed Reference.runtime pm [b "x"]).2).
Proof.
  destruct (header_binds_section Reference.runtime noop_me
              (b "<<<foo:persist(abc)>>>") empty_memory persist_abc [b "x"])
    as (Hbound & Hraise & Hkey).
  - by left.
  - vm_compute. reflexivity.
  - split; [exact Hbound|]. split; [|split; [|exact Hkey]].
    + apply Hraise. left. exists ValueError. vm_compute. reflexivity.
    + apply Hraise. left. exists ValueError. vm_compute. reflexivity.
Defined.

(** Scenario E4: [<<<foo:persist(2000)>>>], [a b] at capture time 1500. *)
Lemma persist_option_staged_witness :
  let pm := call Reference.runtime noop_me (b "<<<foo:persist(2000)>>>") empty_memory in
  (∃ l, sections pm.2 !! u "foo" = Some l
        ∧ persisted_sections pm.2 !! u "foo" = Some (1500, 2000, l))
  ∧ cache_info pm.2 !! u "foo" = Some (1500, 2000 - 1500)
  ∧ ∃ p m,
      _parse_host_section Reference.runtime (u "me") 1500
        (b "<<<foo:persist(2000)>>>" ++ [x0a] ++ b "a b" ++ [x0a]) 1 = inr (p, m)
      ∧ persisted_view m = {[ u "foo" := (1500, 2000, [[u "a"; u "b"]]) ]}
      ∧ sections_view m = {[ u "foo" := [[u "a"; u "b"]] ]}
      ∧ cache_info m = {[ u "foo" := (1500, 500) ]}.
Proof.
  destruct (persist_option_staged Reference.runtime noop_me
              (b "<<<foo:persist(2000)>>>") empty_memory persist_2000
              (u "2000") 2000) as (Hstaged & _ & Hcache & _).
  - by left.
  - vm_compute. reflexivity.
  - vm_compute. reflexivity.
  - vm_compute. reflexivity.
  - split; [exact Hstaged|]. split; [apply Hcache; vm_compute; reflexivity|].
    eexists _, _. split; [vm_compute; reflexivity|].
    repeat split; vm_compute; reflexivity.
Defined.

(** The header [<<<foo:persist(2000):cached(100,50)>>>] read at capture
    time 1500: the persisted entry is staged as for [persist] alone, and
    the cache information of the section is (100, 50), not
    (1500, 2000 - 1500). *)
Lemma persist_with_cached_counterexample :
  let line := b "<<<foo:persist(2000):cached(100,50)>>>" in
  let pm := call Reference.runtime noop_me line empty_memory in
  (∃ hdr, from_headerline Reference.runtime line = inr hdr
          ∧ name hdr = u "foo"
          ∧ options hdr !! u "persist" = Some (u "2000"))
  ∧ cached_at noop_me = 1500
  ∧ (∃ l, sections pm.2 !! u "foo" = Some l
          ∧ persisted_sections pm.2 !! u "foo" = Some (1500, 2000, l))
  ∧ cache_info pm.2 !! u "foo" = Some (100, 50)
  ∧ cache_info pm.2 !! u "foo" ≠ Some (1500, 2000 - 1500)
  ∧ ∃ p m,
      _parse_host_section Reference.runtime (u "me") 1500
        (line ++ [x0a] ++ b "a b" ++ [x0a]) 1 = inr (p, m)
      ∧ persisted_view m = {[ u "foo" := (1500, 2000, [[u "a"; u "b"]]) ]}
      ∧ cache_info m = {[ u "foo" := (100, 50) ]}.
Proof.
  cbv zeta.
  split.
  { eexists. split; [vm_compute; reflexivity|].
    split; vm_compute; reflexivity. }
  split; [reflexivity|].
  split.
  { eexists. split; vm_compute; reflexivity. }
  split; [vm_compute; reflexivity|].
  split.
  { intros H. vm_compute in H. discriminate H. }
  eexists _, _. split; [vm_compute; reflexivity|].
  split; vm_compute; reflexivity.
Qed.

(** ** Exactness of the binary64 computation on small integers *)

Lemma digits2_pos_bounds (p : positive) :
  2 ^ (Z.pos (digits2_pos p) - 1) ≤ Z.pos p < 2 ^ Z.pos (digits2_pos p).
Proof.
  induction p as [p IH|p IH|]; simpl digits2_pos; [| |by compute].
  - rewrite Pos2Z.inj_succ.
    replace (Z.succ (Z.pos (digits2_pos p)) - 1) with (Z.succ (Z.pos (digits2_pos p) - 1)) by lia.
    rewrite !Z.pow_succ_r by lia. lia.
  - rewrite Pos2Z.inj_succ.
    replace (Z.succ (Z.pos (digits2_pos p)) - 1) with (Z.succ (Z.pos (digits2_pos p) - 1)) by lia.
    rewrite !Z.pow_succ_r by lia. lia.
Qed.

Lemma digits2_pos_unique (p : positive) (d : Z) :
  2 ^ (d - 1) ≤ Z.pos p < 2 ^ d → Z.pos (digits2_pos p) = d.
Proof.
  intros [Hlo Hhi]. pose proof (digits2_pos_bounds p) as [Hlo' Hhi'].
  assert (0 < d).
  { destruct (decide (0 < d)); [done|].
    assert (2 ^ d ≤ 2 ^ 0) by (destruct (decide (d < 0));
      [rewrite Z.pow_neg_r by done; lia|apply Z.pow_le_mono_r; lia]).
    simpl in *. lia. }
  destruct (Z.lt_trichotomy (Z.pos (digits2_pos p)) d) as [Hlt|[->|Hgt]]; [|done|].
  - assert (2 ^ Z.pos (digits2_pos p) ≤ 2 ^ (d - 1)) by (apply Z.pow_le_mono_r; lia).
    lia.
  - assert (2 ^ d ≤ 2 ^ (Z.pos (digits2_pos p) - 1)) by (apply Z.pow_le_mono_r; lia).
    lia.
Qed.

Lemma iter_pos_nat {A} (f : A → A) (p : positive) (x : A) :
  SpecFloat.iter_pos f p x = Nat.iter (Pos.to_nat p) f x.
Proof.
  revert x. induction p as [p IH|p IH|]; intros x; [| |done].
  - rewrite Pos2Nat.inj_xI, Nat.iter_succ_r.
    replace (2 * Pos.to_nat p)%nat with (Pos.to_nat p + Pos.to_nat p)%nat by lia.
    rewrite Nat.iter_add. cbn [SpecFloat.iter_pos]. by rewrite !IH.
  - rewrite Pos2Nat.inj_xO.
    replace (2 * Pos.to_nat p)%nat with (Pos.to_nat p + Pos.to_nat p)%nat by lia.
    rewrite Nat.iter_add. cbn [SpecFloat.iter_pos]. by rewrite !IH.
Qed.

Lemma shr_1_even (q : positive) :
  shr_1 {| shr_m := 2 * Z.pos q; shr_r := false; shr_s := false |}
  = {| shr_m := Z.pos q; shr_r := false; shr_s := false |}.
Proof. done. Qed.

Lemma iter_shr_1_exact (n : nat) (k : positive) :
  Nat.iter n shr_1
    {| shr_m := Z.pos k * 2 ^ Z.of_nat n; shr_r := false; shr_s := false |}
  = {| shr_m := Z.pos k; shr_r := false; shr_s := false |}.
Proof.
  induction n as [|n IH].
  - simpl. by rewrite Z.mul_1_r.
  - rewrite Nat.iter_succ_r, Nat2Z.inj_succ, Z.pow_succ_r by lia.
    assert (∃ q, Z.pos k * 2 ^ Z.of_nat n = Z.pos q) as [q Hq].
    { destruct (Z.pos k * 2 ^ Z.of_nat n) eqn:E; [| by eexists |]; 
      assert (0 < Z.pos k * 2 ^ Z.of_nat n) by (apply Z.mul_pos_pos; [done|apply Z.pow_pos_nonneg; lia]); lia. }
    replace (Z.pos k * (2 * 2 ^ Z.of_nat n)) with (2 * Z.pos q) by lia.
    rewrite shr_1_even, <- Hq. apply IH.
Qed.

Lemma fexp_normal (x : Z) : -1074 ≤ x - 53 → fexp 53 1024 x = x - 53.
Proof. unfold fexp, emin. lia. Qed.

Lemma digits2_pos_shift (k q : positive) (n : nat) :
  Z.pos q = Z.pos k * 2 ^ Z.of_nat n →
  Z.pos (digits2_pos q) = Z.pos (digits2_pos k) + Z.of_nat n.
Proof.
  intros Hq. apply digits2_pos_unique. rewrite Hq.
  pose proof (digits2_pos_bounds k) as [Hlo Hhi].
  replace (Z.pos (digits2_pos k) + Z.of_nat n - 1)
    with ((Z.pos (digits2_pos k) - 1) + Z.of_nat n) by lia.
  rewrite !Z.pow_add_r by lia.
  assert (0 < 2 ^ Z.of_nat n) by (apply Z.pow_pos_nonneg; lia).
  split; [apply Z.mul_le_mono_nonneg_r; lia|apply Z.mul_lt_mono_pos_r; lia].
Qed.

Lemma shr_exact (k q : positive) (n : nat) (e : Z) :
  Z.pos q = Z.pos k * 2 ^ Z.of_nat n →
  shr {| shr_m := Z.pos q; shr_r := false; shr_s := false |} e (Z.of_nat n)
  = ({| shr_m := Z.pos k; shr_r := false; shr_s := false |}, e + Z.of_nat n).
Proof.
  intros Hq. destruct n as [|n].
  - simpl in *. rewrite Z.mul_1_r in Hq. rewrite Hq. by rewrite Z.add_0_r.
  - unfold shr. rewrite Hq.
    destruct (Z.of_nat (S n)) as [|p|p] eqn:Ep; [lia| |lia].
    rewrite iter_pos_nat.
    replace (Pos.to_nat p) with (S n) by lia.
    rewrite <- Ep. by rewrite iter_shr_1_exact.
Qed.

(** Rounding a mantissa that fits, followed by zeros, is exact. *)
Lemma binary_round_aux_exact (s : bool) (k q : positive) (n : nat) (e : Z) :
  Z.pos (digits2_pos k) = 53 →
  Z.pos q = Z.pos k * 2 ^ Z.of_nat n →
  -1074 ≤ e + Z.of_nat n ≤ 971 →
  binary_round_aux 53 1024 s (Z.pos q) e loc_Exact
  = S754_finite s k (e + Z.of_nat n).
Proof.
  intros Hk Hq He. unfold binary_round_aux, shr_fexp.
  cbn [Zdigits2 shr_record_of_loc].
  rewrite (digits2_pos_shift k q n Hq), Hk.
  rewrite fexp_normal by lia.
  replace (53 + Z.of_nat n + e - 53 - e) with (Z.of_nat n) by lia.
  rewrite (shr_exact k q n e Hq).
  cbn [shr_m loc_of_shr_record round_nearest_even Zdigits2 shr_record_of_loc].
  rewrite Hk, fexp_normal by lia.
  replace (53 + (e + Z.of_nat n) - 53 - (e + Z.of_nat n)) with 0 by lia.
  cbn [shr shr_m].
  destruct (Z.leb_spec (e + Z.of_nat n) (1024 - 53)); [done|lia].
Qed.

Lemma iter_xO_pow (p c : positive) :
  Z.pos (Pos.iter xO p c) = Z.pos p * 2 ^ Z.pos c.
Proof.
  induction c as [|c IH] using Pos.peano_ind.
  - simpl. lia.
  - rewrite Pos.iter_succ, Pos2Z.inj_xO, IH, Pos2Z.inj_succ, Z.pow_succ_r; lia.
Qed.

(** [float(n)] is exact below 2^53: a 53-bit mantissa [n * 2^(53 - d)]
    with exponent [d - 53], [d] the number of bits of [n]. *)
Lemma of_int_exact (p : positive) :
  Z.pos p < 2 ^ 53 →
  ∃ mz, Float.of_int (Z.pos p)
        = inr (S754_finite false mz (Z.pos (digits2_pos p) - 53))
        ∧ Z.pos mz * 2 ^ (Z.pos (digits2_pos p) - 1) = Z.pos p * 2 ^ 52
        ∧ Z.pos (digits2_pos mz) = 53.
Proof.
  intros Hp. pose proof (digits2_pos_bounds p) as [Hlo Hhi].
  set (d := Z.pos (digits2_pos p)) in *.
  assert (d ≤ 53).
  { destruct (decide (d ≤ 53)); [done|].
    assert (2 ^ 53 ≤ 2 ^ (d - 1)) by (apply Z.pow_le_mono_r; lia). lia. }
  unfold Float.of_int, binary_normalize, binary_round, shl_align,
    Float.prec, Float.emax.
  rewrite fexp_normal by lia. fold d.
  destruct (d + 0 - 53 - 0) as [|c|c] eqn:Ec; [|lia|].
  - assert (d = 53) as Hd by lia.
    rewrite (binary_round_aux_exact false p p 0) by (simpl; lia).
    simpl. rewrite Hd. exists p. split; [by rewrite Z.add_0_r|].
    split; [lia|done].
  - set (mz := Pos.iter xO p c).
    assert (Z.pos mz = Z.pos p * 2 ^ Z.pos c) as Hmz by apply iter_xO_pow.
    assert (Z.pos (digits2_pos mz) = 53) as Hdm.
    { rewrite (digits2_pos_shift p mz (Pos.to_nat c)).
      - fold d. lia.
      - by rewrite positive_nat_Z. }
    rewrite (binary_round_aux_exact false mz mz 0) by (simpl; lia).
    simpl. exists mz. split; [do 2 f_equal; lia|]. split; [|done].
    rewrite Hmz. replace (Z.pos c) with (53 - d) by lia.
    rewrite <- Z.mul_assoc, <- Z.pow_add_r by lia. do 2 f_equal. lia.
Qed.

Lemma float_90 :
  Float.of_int 60 = inr (S754_finite false 8444249301319680 (-47))
  ∧ Float.mul Float.lit_1_5 (S754_finite false 8444249301319680 (-47))
    = S754_finite false 6333186975989760 (-46).
Proof. split; vm_compute; reflexivity. Qed.

(** Below 2^46 the product [1.5 * 60 * check_interval] is computed
    without rounding: it is the integer [90 * check_interval]. *)
Lemma cache_age_of_exact (check_interval : Z) :
  0 ≤ check_interval < 2 ^ 46 → cache_age_of check_interval = inr (90 * check_interval).
Proof.
  intros [Hlo Hhi]. destruct check_interval as [|p|p]; [by vm_compute| |lia].
  destruct float_90 as [H60 H90].
  unfold cache_age_of. rewrite H60. cbn [bind].
  destruct (of_int_exact p) as (mz & -> & Hmz & Hdmz); [lia|].
  cbn [bind]. rewrite H90.
  destruct (of_int_exact (90 * p)) as (k & _ & Hk & Hdk); [lia|].
  pose proof (digits2_pos_bounds p) as [Hplo Hphi].
  pose proof (digits2_pos_bounds (90 * p)) as [Hqlo Hqhi].
  set (d := Z.pos (digits2_pos p)) in *.
  set (D := Z.pos (digits2_pos (90 * p))) in *.
  assert (0 < d) by done. assert (0 < D) by done.
  assert (D ≤ 53).
  { destruct (decide (D ≤ 53)); [done|].
    assert (2 ^ 53 ≤ 2 ^ (D - 1)) by (apply Z.pow_le_mono_r; lia). lia. }
  assert (d + 6 ≤ D).
  { destruct (decide (d + 6 ≤ D)); [done|].
    assert (2 ^ D ≤ 2 ^ (d + 5)) by (apply Z.pow_le_mono_r; lia).
    replace (d + 5) with ((d - 1) + 6) in * by lia.
    rewrite Z.pow_add_r in * by lia. change (2 ^ 6) with 64 in *. lia. }
  assert (0 < 2 ^ (d - 1)) by (apply Z.pow_pos_nonneg; lia).
  assert (0 < 2 ^ (D - 1)) by (apply Z.pow_pos_nonneg; lia).
  assert (Z.pos k = 90 * Z.pos p * 2 ^ (53 - D)) as Hk'.
  { apply (Z.mul_reg_r _ _ (2 ^ (D - 1))); [lia|].
    rewrite Hk, <- Z.mul_assoc, <- Z.pow_add_r by lia.
    replace (53 - D + (D - 1)) with 52 by lia. lia. }
  unfold Float.mul, SFmul. cbn [xorb].
  rewrite (binary_round_aux_exact false k _ (Z.to_nat (46 - d + D))).
  - unfold Float.to_int. cbn [cond_Zopp]. f_equal.
    rewrite Z2Nat.id by lia.
    replace (-46 + (d - 53) + (46 - d + D)) with (D - 53) by lia.
    destruct (Z.leb_spec 0 (D - 53)).
    + assert (D = 53) as -> by lia. rewrite Hk'. simpl. lia.
    + rewrite Hk'. replace (- (D - 53)) with (53 - D) by lia.
      rewrite Z.div_mul; [lia|]. apply Z.pow_nonzero; lia.
  - done.
  - rewrite Z2Nat.id by lia. rewrite Pos2Z.inj_mul.
    apply (Z.mul_reg_r _ _ (2 ^ (d - 1))); [lia|].
    rewrite <- Z.mul_assoc, Hmz, Hk'.
    rewrite <- !Z.mul_assoc, <- !Z.pow_add_r by lia.
    replace (53 - D + (46 - d + D + (d - 1))) with 98 by lia.
    change (Z.pos 6333186975989760) with (90 * 2 ^ 46).
    rewrite <- !Z.mul_assoc. f_equal.
    rewrite (Z.mul_comm (2 ^ 46)), <- Z.mul_assoc, <- Z.pow_add_r by lia.
    reflexivity.
  - rewrite Z2Nat.id by lia. lia.
Qed.

(** Inside a piggyback block, a host-section header is stored rewritten
    with the parser's own [cached_at] and [cache_age]. *)
Lemma piggyback_call_header (rt : Runtime) (self : ParserState) (t : str)
    (line : bytes) (m : Memory) :
  state self = PiggybackSectionParser t →
  host_is_header line = true →
  call rt self line m
  = (self, append_raw t (_add_cached_info (Py.strip line) (cached_at self)
                           (cache_age self)) m).
Proof.
  intros Hst Hh.
  destruct (host_is_header_excludes _ Hh) as (Hb & Hph & Hpf & Hhf).
  unfold call. rewrite Hst. unfold piggyback_call.
  by rewrite Hb, Hpf, Hph, Hh.
Qed.

(** C2: the orchestrator hands the state machine
    [cache_age = floor(1.5 * check_interval_seconds)], the configured
    interval [check_interval] being in minutes and [60 * check_interval]
    its value in seconds; every parser of the run carries that value, and
    it is the one written into rewritten piggyback inner headers. *)
Theorem cache_age_one_and_a_half_intervals (rt : Runtime) (self_hostname : str)
    (now : Z) (raw_data : bytes) (check_interval : Z) :
  0 ≤ check_interval < 2 ^ 46 →
  let check_interval_seconds := 60 * check_interval in
  let age := 3 * check_interval_seconds / 2 in
  cache_age_of check_interval = inr age
  ∧ (∃ p m,
       _parse_host_section rt self_hostname now raw_data check_interval = inr (p, m)
       ∧ cache_age p = age)
  ∧ ∀ lines line t,
      let pm := feed rt ({| hostname := self_hostname; cached_at := now;
                            cache_age := age; state := NOOPParser |},
                         empty_memory) lines in
      cache_age pm.1 = age
      ∧ (state pm.1 = PiggybackSectionParser t →
         host_is_header line = true →
         (call rt pm.1 line pm.2).2
         = append_raw t (_add_cached_info (Py.strip line) now age) pm.2).
Proof.
  intros Hci seconds age.
  assert (age = 90 * check_interval) as Hage.
  { unfold age, seconds.
    replace (3 * (60 * check_interval)) with (90 * check_interval * 2) by lia.
    by rewrite Z.div_mul. }
  assert (cache_age_of check_interval = inr age) as Hof
    by (rewrite Hage; by apply cache_age_of_exact).
  split; [done|]. split.
  - unfold _parse_host_section. rewrite Hof. cbn [bind].
    destruct (feed_fields rt
      ({| hostname := self_hostname; cached_at := now; cache_age := age;
          state := NOOPParser |}, empty_memory) (Py.split x0a raw_data))
      as (_ & _ & Hca).
    destruct (feed rt _ (Py.split x0a raw_data)) as [p m]. by exists p, m.
  - intros lines line t pm.
    destruct (feed_fields rt
      ({| hostname := self_hostname; cached_at := now; cache_age := age;
          state := NOOPParser |}, empty_memory) lines) as (_ & Hat & Hca).
    fold pm in Hat, Hca. simpl in Hat, Hca.
    split; [done|]. intros Hst Hh.
    by rewrite (piggyback_call_header rt pm.1 t line pm.2 Hst Hh), Hat, Hca.
Qed.

(** Scenario E2: a one-minute interval gives [cache_age = 90]. *)
Lemma cache_age_one_and_a_half_intervals_witness :
  cache_age_of 1 = inr 90
  ∧ ∃ p m,
      _parse_host_section Reference.runtime (u "me") 1000
        (b "<<<<web01>>>>" ++ [x0a] ++ b "<<<uptime>>>" ++ [x0a] ++ b "123"
           ++ [x0a] ++ b "<<<<>>>>" ++ [x0a]) 1 = inr (p, m)
      ∧ cache_age p = 90
      ∧ piggybacked_raw_data m
        = {[ u "web01" := [b "<<<uptime:cached(1000,90)>>>"; b "123"] ]}.
Proof.
  split.
  - apply (cache_age_one_and_a_half_intervals Reference.runtime (u "me") 1000 [] 1).
    lia.
  - eexists _, _. split; [vm_compute; reflexivity|].
    split; vm_compute; reflexivity.
Defined.

Section VersionCheck.

Context (rt : Runtime) (env : Environment).

Context (exit_spec : gmap str Z) (host_config : HostConfig).

Lemma is_expected_agent_version_raises agent_version expected_version e :
  compare_agent_version rt env agent_version expected_version = inl e →
  _is_expected_agent_version rt env agent_version expected_version
  = inl (version_check_error env agent_version expected_version e).
Proof.
  unfold _is_expected_agent_version, version_check_error. intros ->.
  by destruct (debug_enabled env).
Qed.

(** C3 (amended): an exception [e] raised while comparing the observed
    with the expected version leaves [_is_expected_agent_version] as
    [MKGeneralException("Unable to check agent version (...)")] when
    debug is disabled and as [e] itself when it is enabled; in both
    cases [_sub_result_version] and [_summarize_impl] pass it on to
    their caller and return no result. *)
Theorem version_check_error_propagates (agent_info : gmap str (option str))
    (version : option str) (e : exn) :
  agent_info !! u "version" = Some version →
  let agent_version := default (u "None") version in
  let expected_version := agent_target_version host_config in
  truthy expected_version = true →
  agent_version ≠ [] →
  compare_agent_version rt env (Some agent_version) expected_version = inl e →
  let raised_exn := version_check_error env (Some agent_version) expected_version e in
  (debug_enabled env = false →
   raised_exn = MKGeneralException
                  (version_check_message env (Some agent_version)
                     expected_version e))
  ∧ (debug_enabled env = true → raised_exn = e)
  ∧ _is_expected_agent_version rt env (Some agent_version) expected_version
    = inl raised_exn
  ∧ _sub_result_version rt env exit_spec host_config agent_info = inl raised_exn
  ∧ ∀ cmk_section,
      cmk_section ≠ None → cmk_section ≠ Some [] →
      _get_agent_info env cmk_section = inr agent_info →
      (is_cluster host_config = false → is_Some (agent_info !! u "agentos")) →
      _summarize_impl rt env exit_spec host_config cmk_section true
      = inl raised_exn.
Proof.
  intros Hv agent_version expected_version Ht Hne He raised_exn.
  pose proof (is_expected_agent_version_raises _ _ _ He) as Hexp.
  fold raised_exn in Hexp.
  assert (_sub_result_version rt env exit_spec host_config agent_info
          = inl raised_exn) as Hsub.
  { unfold _sub_result_version. rewrite Hv.
    fold agent_version expected_version.
    rewrite Ht, (bool_decide_eq_false_2 _ Hne). simpl.
    by rewrite Hexp. }
  split; [unfold raised_exn, version_check_error; by intros ->|].
  split; [unfold raised_exn, version_check_error; by intros ->|].
  split; [done|]. split; [done|].
  intros cmk_section Hn Hemp Hinfo Hos.
  unfold _summarize_impl. rewrite Hinfo. cbn [bind]. rewrite Hv. cbn [bind].
  destruct cmk_section as [[|row rows]|]; [done| |done].
  destruct (is_cluster host_config) eqn:Hc; cbn [bind andb negb].
  - by rewrite Hsub.
  - destruct (Hos eq_refl) as [os ->]. cbn [bind]. by rewrite Hsub.
Qed.

End VersionCheck.

(** The section [Version: 2.0.0-rc1] checked against
    [("at_least", {"daily_build": "2014.06.01"})] with debug disabled:
    the version counts as a build of branch "2.0.0", [int("rc1")] raises, no sub-result with the [wrong_version] status
    comes back, the summarizer raises [MKGeneralException]. *)
Lemma version_check_error_counterexample :
  debug_enabled ReferenceEnv.environment = false
  ∧ compare_agent_version Reference.runtime ReferenceEnv.environment
      (Some (u "2.0.0-rc1")) (agent_target_version at_least_build)
    = inl ValueError
  ∧ _get_agent_info ReferenceEnv.environment (Some rc_section)
    = inr rc_agent_info
  ∧ (∃ msg,
       _sub_result_version Reference.runtime ReferenceEnv.environment ∅
         at_least_build rc_agent_info
       = inl (MKGeneralException msg))
  ∧ (∃ msg,
       _summarize_impl Reference.runtime ReferenceEnv.environment ∅ at_least_build
         (Some rc_section) true
       = inl (MKGeneralException msg))
  ∧ ¬ ∃ status text perfdata,
        _summarize_impl Reference.runtime ReferenceEnv.environment ∅ at_least_build
          (Some rc_section) true
        = inr (status, text, perfdata).
Proof.
  split; [reflexivity|]. split; [vm_compute; reflexivity|].
  split; [vm_compute; reflexivity|].
  split; [eexists; vm_compute; reflexivity|].
  split; [eexists; vm_compute; reflexivity|].
  intros (status & text & perfdata & H). vm_compute in H. discriminate H.
Qed.

Lemma version_check_error_propagates_witness :
  ∃ msg,
    _sub_result_version Reference.runtime ReferenceEnv.environment ∅ at_least_build
      rc_agent_info
    = inl (MKGeneralException msg).
Proof.
  eexists.
  eapply (version_check_error_propagates Reference.runtime ReferenceEnv.environment
            ∅ at_least_build rc_agent_info (Some (u "2.0.0-rc1")) ValueError).
  - vm_compute. reflexivity.
  - reflexivity.
  - done.
  - vm_compute. reflexivity.
Defined.

#[global] Instance str_le_total : Total str_le.
Proof.
  intros x. induction x as [|a x IH]; intros y; [by left|].
  destruct y as [|c y]; [by right|]. simpl.
  destruct (N.lt_total a c) as [Hlt|[->|Hgt]].
  - left. apply orb_true_iff. left. by apply N.ltb_lt.
  - rewrite N.ltb_irrefl, N.eqb_refl. simpl. apply IH.
  - right. apply orb_true_iff. left. by apply N.ltb_lt.
Qed.

#[global] Instance str_le_trans : Transitive str_le.
Proof.
  intros x. induction x as [|a x IH]; intros y z; [done|].
  destruct y as [|c y]; [done|]. destruct z as [|d z]; [done|]. simpl.
  rewrite !orb_true_iff, !andb_true_iff, !N.ltb_lt, !N.eqb_eq.
  intros [Hac|[-> Hxy]] [Hcd|[-> Hyz]]; [left; lia|by left|by left|].
  right. split; [done|]. by eapply IH.
Qed.

#[global] Instance str_le_antisymm : AntiSymm (=) str_le.
Proof.
  intros x. induction x as [|a x IH]; intros y; [by destruct y|].
  destruct y as [|c y]; [done|]. simpl.
  rewrite !orb_true_iff, !andb_true_iff, !N.ltb_lt, !N.eqb_eq.
  intros [Hac|[-> Hxy]] [Hca|[Hca Hyx]]; try lia.
  f_equal. by apply IH.
Qed.

Lemma sorted_Sorted (s : gset str) : StronglySorted str_le (sorted s).
Proof. apply StronglySorted_merge_sort; apply _. Qed.

Lemma sorted_elem_of (s : gset str) (x : str) : x ∈ sorted s ↔ x ∈ s.
Proof. unfold sorted. by rewrite merge_sort_Permutation, elem_of_elements. Qed.

Lemma sorted_NoDup (s : gset str) : NoDup (sorted s).
Proof. unfold sorted. rewrite merge_sort_Permutation. apply NoDup_elements. Qed.

(** The listing does not depend on how the set was built: it is the one
    sorted duplicate-free list of its members. *)
Lemma sorted_unique (s : gset str) (l : list str) :
  StronglySorted str_le l → NoDup l → (∀ x, x ∈ l ↔ x ∈ s) → l = sorted s.
Proof.
  intros Hs Hn Hl.
  apply (StronglySorted_unique str_le); [done|apply sorted_Sorted|].
  apply NoDup_Permutation; [done|apply sorted_NoDup|].
  intros x. by rewrite Hl, sorted_elem_of.
Qed.

Lemma sorted_nil (s : gset str) : sorted s = [] ↔ s = ∅.
Proof.
  split.
  - intros Hs. apply set_eq. intros x. rewrite <- sorted_elem_of, Hs.
    set_solver.
  - intros ->. reflexivity.
Qed.

Lemma sorted_empty_test {A : Type} (s : gset str) (x y : A) :
  (if bool_decide (s = ∅) then x else y)
  = match sorted s with [] => x | _ => y end.
Proof.
  case_bool_decide as He; [by rewrite He|].
  destruct (sorted s) eqn:Es; [|done]. by apply sorted_nil in Es.
Qed.

Section OnlyFrom.

Context (env : Environment) (exit_spec : gmap str Z) (host_config : HostConfig).

(** C9: with both the agent's and the configured only-from present,
    equal sets of normalized ranges give status 0 and a line listing
    the allowed ranges; different sets give the configured
    [restricted_address_mismatch] status, 1 when not configured, and
    "Unexpected allowed IP ranges (...)" where the exceeding and the
    missing ranges each appear once, in lexicographic order. *)
Theorem only_from_sub_result (agent_info : gmap str (option str))
    (agent_only_from : str) (config_only_from : str + list str)
    (allowed expected : list str) :
  agent_info !! u "onlyfrom" = Some (Some agent_only_from) →
  only_from host_config = Some config_only_from →
  normalize_ip_addresses env (inl agent_only_from) = inr allowed →
  normalize_ip_addresses env config_only_from = inr expected →
  (∀ s, iter_set env s ≡ₚ elements s) →
  let allowed_nets : gset str := list_to_set allowed in
  let expected_nets : gset str := list_to_set expected in
  let mismatch_state := default 1 (exit_spec !! u "restricted_address_mismatch") in
  (allowed_nets = expected_nets →
   ∀ marker, Seq.index (state_markers env) 0 = inr marker →
   ∃ listed,
     _sub_result_only_from env exit_spec host_config agent_info
     = inr (Some (0, u "Allowed IP ranges: " ++ Str.join (u " ") listed ++ marker,
                  []))
     ∧ NoDup listed ∧ ∀ r, r ∈ listed ↔ r ∈ allowed)
  ∧ (allowed_nets ≠ expected_nets →
     ∀ marker, Seq.index (state_markers env) mismatch_state = inr marker →
     ∃ exceeding missing,
       _sub_result_only_from env exit_spec host_config agent_info
       = inr (Some (mismatch_state,
                    u "Unexpected allowed IP ranges ("
                      ++ Str.join (u ", ") (mismatch_infotexts exceeding missing)
                      ++ u ")" ++ marker,
                    []))
       ∧ StronglySorted str_le exceeding ∧ NoDup exceeding
       ∧ (∀ r, r ∈ exceeding ↔ r ∈ allowed ∧ r ∉ expected)
       ∧ StronglySorted str_le missing ∧ NoDup missing
       ∧ (∀ r, r ∈ missing ↔ r ∈ expected ∧ r ∉ allowed))
  ∧ (exit_spec !! u "restricted_address_mismatch" = None → mismatch_state = 1).
Proof.
  intros Hinfo Hconf Hallowed Hexpected Hiter allowed_nets expected_nets
    mismatch_state.
  split; [|split; [|intros Hnone; unfold mismatch_state; by rewrite Hnone]].
  - intros Heq marker Hmarker.
    exists (iter_set env allowed_nets).
    unfold _sub_result_only_from.
    rewrite Hinfo, Hconf, Hallowed. cbn [bind]. rewrite Hexpected.
    cbn [bind]. fold allowed_nets expected_nets.
    rewrite (bool_decide_eq_true_2 _ Heq), Hmarker. cbn [bind].
    split; [done|]. split.
    + rewrite Hiter. apply NoDup_elements.
    + intros r. rewrite Hiter, elem_of_elements.
      unfold allowed_nets. by rewrite elem_of_list_to_set.
  - intros Hne marker Hmarker.
    exists (sorted (allowed_nets ∖ expected_nets)),
           (sorted (expected_nets ∖ allowed_nets)).
    unfold _sub_result_only_from.
    rewrite Hinfo, Hconf, Hallowed. cbn [bind]. rewrite Hexpected.
    cbn [bind]. fold allowed_nets expected_nets.
    rewrite (bool_decide_eq_false_2 _ Hne).
    unfold exit_state. fold mismatch_state. rewrite Hmarker. cbn [bind].
    split.
    + unfold mismatch_infotexts. by rewrite !sorted_empty_test.
    + split; [apply sorted_Sorted|]. split; [apply sorted_NoDup|].
      split.
      { intros r. rewrite sorted_elem_of. unfold allowed_nets, expected_nets.
        set_solver. }
      split; [apply sorted_Sorted|]. split; [apply sorted_NoDup|].
      intros r. rewrite sorted_elem_of. unfold allowed_nets, expected_nets.
      set_solver.
Qed.

End OnlyFrom.

Lemma only_from_sub_result_witness :
  _sub_result_only_from ReferenceEnv.environment ∅ only_from_config only_from_info
  = inr (Some (1,
               u "Unexpected allowed IP ranges (exceeding: 8.8.8.8 9.9.9.9, missing: 1.2.3.4)(!)",
               []))
  ∧ ∃ exceeding missing,
      _sub_result_only_from ReferenceEnv.environment ∅ only_from_config only_from_info
      = inr (Some (1,
                   u "Unexpected allowed IP ranges ("
                     ++ Str.join (u ", ") (mismatch_infotexts exceeding missing)
                     ++ u ")" ++ u "(!)",
                   []))
      ∧ StronglySorted str_le exceeding ∧ NoDup exceeding
      ∧ (∀ r, r ∈ exceeding
              ↔ r ∈ [u "10.0.0.0/8"; u "9.9.9.9"; u "8.8.8.8"]
                ∧ r ∉ [u "10.0.0.0/8"; u "1.2.3.4"])
      ∧ StronglySorted str_le missing ∧ NoDup missing
      ∧ (∀ r, r ∈ missing
              ↔ r ∈ [u "10.0.0.0/8"; u "1.2.3.4"]
                ∧ r ∉ [u "10.0.0.0/8"; u "9.9.9.9"; u "8.8.8.8"]).
Proof.
  split; [vm_compute; reflexivity|].
  destruct (only_from_sub_result ReferenceEnv.environment ∅ only_from_config
              only_from_info (u "10.0.0.0/8 9.9.9.9 8.8.8.8")
              (inr [u "10.0.0.0/8"; u "1.2.3.4"])
              [u "10.0.0.0/8"; u "9.9.9.9"; u "8.8.8.8"]
              [u "10.0.0.0/8"; u "1.2.3.4"]) as (_ & Hmismatch & _).
  - vm_compute. reflexivity.
  - reflexivity.
  - vm_compute. reflexivity.
  - vm_compute. reflexivity.
  - done.
  - apply (Hmismatch).
    + apply (bool_decide_eq_false_1 (_ = _)). vm_compute. reflexivity.
    + vm_compute. reflexivity.
Defined.

(** * Part III: further properties of the code *)

(** ** Recognition of header and footer lines *)

Lemma endswith_suffix {A} `{EqDecision A} (s l : list A) :
  Py.endswith s l = true ↔ ∃ k, l = k ++ s.
Proof.
  unfold Py.endswith. rewrite startswith_prefix. split.
  - intros [k Hk]. exists (rev k).
    by rewrite <- (rev_involutive l), Hk, rev_app_distr, rev_involutive.
  - intros [k ->]. exists (rev k). by rewrite rev_app_distr.
Qed.

Lemma footers_exclude (line : bytes) :
  (piggyback_is_footer line = true →
   blank line = false ∧ piggyback_is_header line = false
   ∧ host_is_footer line = false ∧ host_is_header line = false)
  ∧ (host_is_footer line = true →
     blank line = false ∧ piggyback_is_header line = false
     ∧ piggyback_is_footer line = false ∧ host_is_header line = false).
Proof.
  unfold piggyback_is_footer, host_is_footer, blank, piggyback_is_header,
    host_is_header, piggyback_is_footer, host_is_footer.
  rewrite !strip_idemp.
  split; intros ->%bool_decide_eq_true; by vm_compute.
Qed.

(** X1: a line is of at most one kind among blank, piggyback header,
    piggyback footer, host-section header and host-section footer. *)
Theorem recognition_exclusive (line : bytes) :
  (length (filter (λ k : bool, k = true)
     [blank line; piggyback_is_header line; piggyback_is_footer line;
      host_is_header line; host_is_footer line]) ≤ 1)%nat.
Proof.
  destruct (footers_exclude line) as [Hpf Hhf].
  pose proof (host_is_header_excludes line) as Hhh.
  pose proof (piggyback_is_header_not_blank line) as Hph.
  destruct (host_is_header line) eqn:E1.
  { destruct (Hhh eq_refl) as (-> & -> & -> & ->). by vm_compute. }
  destruct (piggyback_is_footer line) eqn:E2.
  { destruct (Hpf eq_refl) as (-> & -> & -> & _). by vm_compute. }
  destruct (host_is_footer line) eqn:E3.
  { destruct (Hhf eq_refl) as (-> & -> & _ & _). by vm_compute. }
  destruct (piggyback_is_header line) eqn:E4.
  { rewrite (Hph eq_refl). by vm_compute. }
  destruct (blank line); vm_compute; repeat constructor.
Qed.

(** The lines recognised as piggyback headers: stripped, they are
    [<<<<], a non-empty name, [>>>>]. *)
Lemma piggyback_is_header_shape (line : bytes) :
  piggyback_is_header line = true
  ↔ ∃ body, body ≠ [] ∧ Py.strip line = b "<<<<" ++ body ++ b ">>>>".
Proof.
  unfold piggyback_is_header, piggyback_is_footer.
  rewrite !andb_true_iff, negb_true_iff, bool_decide_eq_false,
    startswith_prefix, endswith_suffix.
  split.
  - intros [[[k Hk] [k' Hk']] Hne]. rewrite Hk in Hk', Hne.
    destruct k' as [|c1 [|c2 [|c3 [|c4 body]]]]; try by simplify_eq/=.
    simplify_eq/=. exists body. split; [|done].
    intros ->. by apply Hne.
  - intros (body & Hne & ->). split; [split|].
    + by eexists.
    + exists (b "<<<<" ++ body). by rewrite <- app_assoc.
    + intros H%(f_equal length). rewrite !length_app in H. simpl in H.
      destruct body; [done|]. simpl in H. lia.
Qed.

Lemma slice_app {A} (p body s : list A) :
  Py.slice (length p) (length s) (p ++ body ++ s) = body.
Proof.
  unfold Py.slice. rewrite !length_app.
  replace (length p + (length body + length s) - length s)%nat
    with (length p + length body)%nat by lia.
  rewrite app_assoc, take_app_length'; [|by rewrite length_app].
  by rewrite drop_app_length.
Qed.

Lemma utf8_nil (l : bytes) : Str.utf8 l = Some [] → l = [].
Proof.
  destruct l as [|c0 t]; [done|]. simpl. intros H. exfalso.
  repeat match type of H with
    | context [if ?c then _ else _] => destruct c; simpl in H
    | context [match ?l with [] => _ | _ :: _ => _ end] =>
        destruct l; simpl in H
    | context [Str.cont ?c] => destruct (Str.cont c); simpl in H
    | context [Str.utf8 ?l] => destruct (Str.utf8 l); simpl in H
    end; discriminate H.
Qed.

(** X2: the name of a recognised piggyback header is never empty, so the
    assertion in [parse_header] cannot fail: the call raises only what
    decoding the name or translating it raises, and otherwise returns the
    translated name with every character outside the allowed class
    replaced by "_", position by position. *)
Theorem piggyback_parse_header_recognised (rt : Runtime) (line : bytes)
    (self_hostname : str) :
  piggyback_is_header line = true →
  ∃ body,
    body ≠ []
    ∧ Py.strip line = b "<<<<" ++ body ++ b ">>>>"
    ∧ piggyback_parse_header rt line self_hostname
      = (text <- ensure_str body ;;
         translated <- translate_piggyback_host rt self_hostname text ;;
         inr ((λ c, if REGEX_HOST_NAME_CHARS rt c then c else 95%N)
                <$> translated)).
Proof.
  intros (body & Hne & Hstrip)%piggyback_is_header_shape.
  exists body. split; [done|]. split; [done|].
  unfold piggyback_parse_header. rewrite Hstrip.
  change 4%nat with (length (b "<<<<")) at 1.
  change 4%nat with (length (b ">>>>")).
  rewrite slice_app.
  unfold ensure_str. destruct (Str.utf8 body) as [text|] eqn:E; [|done].
  simpl. destruct text; [|done].
  by apply utf8_nil in E.
Qed.

(** ** The option tokens of a header *)

Lemma split1_None (sep : N) (s : str) : Str.split1 sep s = None ↔ sep ∉ s.
Proof.
  induction s as [|c s IH]; simpl.
  - split; [intros _; apply not_elem_of_nil|done].
  - destruct (N.eqb_spec c sep) as [->|Hc].
    + split; [done|]. intros []. by left.
    + destruct (Str.split1 sep s) as [[h r]|] eqn:E; simpl.
      * split; [done|]. intros Hn. apply not_elem_of_cons in Hn as [_ Hn].
        by apply IH in Hn.
      * split; [|done]. intros _. apply not_elem_of_cons. split; [done|].
        by apply IH.
Qed.

(** X3: option tokens without an opening parenthesis are skipped: they
    change neither the options read from the other tokens nor whether
    the header is accepted. *)
Theorem parse_options_skips_plain_tokens (elems : list str) :
  parse_options (filter (λ tok, 40%N ∈ tok) elems) = parse_options elems.
Proof.
  induction elems as [|tok elems IH]; [done|].
  rewrite filter_cons. case_decide as Hin.
  - simpl. destruct (Str.split1 40 tok) as [[n v]|]; [|done].
    destruct (last v); [|done]. destruct (_ =? _)%N; [|done]. by rewrite IH.
  - simpl. by rewrite (proj2 (split1_None 40 tok) Hin).
Qed.

Lemma parse_options_rendered (pairs : list (str * str)) :
  (∀ kv, kv ∈ pairs → 40%N ∉ kv.1) →
  parse_options (render_option <$> pairs) = inr pairs.
Proof.
  induction pairs as [|[k v] pairs IH]; intros Hk; [done|].
  rewrite fmap_cons. unfold render_option at 1. simpl fst. simpl snd.
  cbn [parse_options].
  change (k ++ [40%N] ++ v ++ [41%N]) with (k ++ 40%N :: (v ++ [41%N])).
  rewrite split1_spec by (apply (Hk (k, v)); by left).
  rewrite last_snoc. simpl.
  rewrite IH by (intros kv Hkv; apply Hk; by right).
  simpl. by rewrite removelast_last.
Qed.

(** X4: reading back rendered options.  For option names without "(",
    the tokens [name(value)] parse to exactly the pairs they were
    written from, in order, whatever the values contain. *)
Theorem parse_options_render (pairs : list (str * str)) :
  (∀ kv, kv ∈ pairs → 40%N ∉ kv.1) →
  parse_options (render_option <$> pairs) = inr pairs.
Proof. apply parse_options_rendered. Qed.

Lemma dict_snoc (pairs : list (str * str)) (kv : str * str) :
  dict (pairs ++ [kv]) = <[kv.1 := kv.2]> (dict pairs).
Proof. unfold dict. by rewrite foldl_app. Qed.

Lemma dict_lookup (pairs : list (str * str)) (k : str) :
  dict pairs !! k = snd <$> last (filter (λ kv, kv.1 = k) pairs).
Proof.
  induction pairs as [|kv pairs IH] using rev_ind; [done|].
  rewrite dict_snoc, filter_app, filter_cons, filter_nil.
  case_decide as Hk.
  - by rewrite last_snoc, <- Hk, lookup_insert_eq.
  - by rewrite app_nil_r, lookup_insert_ne.
Qed.

Lemma split_join (sep : N) (x : str) (xs : list str) :
  (∀ y, y ∈ x :: xs → sep ∉ y) →
  Py.split sep (Str.join [sep] (x :: xs)) = x :: xs.
Proof.
  revert x. induction xs as [|y xs IH]; intros x Hsep.
  - simpl. apply split_no_sep, Hsep. by left.
  - change (Str.join [sep] (x :: y :: xs))
      with (x ++ sep :: Str.join [sep] (y :: xs)).
    rewrite split_app_sep, IH by (intros z Hz; apply Hsep; by right).
    rewrite split_no_sep by (apply Hsep; by left). done.
Qed.

(** X5: reading back a rendered header.  A header line whose text is a
    name and options [name:opt(value):...], with no ":" inside the name,
    the option names or the values and no "(" inside the option names,
    parses to that name and those options; of several options with one
    name the last one counts. *)
Theorem from_headerline_render (rt : Runtime) (line : bytes) (n sn : str)
    (pairs : list (str * str)) :
  host_is_header line = true →
  ensure_str (Py.slice 3 3 line) = inr (render_header n pairs) →
  58%N ∉ n →
  (∀ kv, kv ∈ pairs → (40%N ∉ kv.1) ∧ (58%N ∉ kv.1) ∧ (58%N ∉ kv.2)) →
  SectionName rt n = inr sn →
  ∃ hdr,
    from_headerline rt line = inr hdr
    ∧ name hdr = sn
    ∧ ∀ k, options hdr !! k = snd <$> last (filter (λ kv, kv.1 = k) pairs).
Proof.
  intros Hh Htext Hn Hpairs Hsn.
  exists {| name := sn; options := dict pairs |}.
  split; [|split; [done|apply dict_lookup]].
  unfold from_headerline. rewrite Hh, Htext. simpl negb. cbn [bind].
  unfold render_header. rewrite split_join.
  - simpl hd. rewrite Hsn. cbn [bind]. simpl tl.
    rewrite parse_options_rendered; [done|].
    intros kv Hkv. by apply Hpairs.
  - intros y [->|Hy]%elem_of_cons; [done|].
    apply list_elem_of_fmap in Hy as ([k v] & -> & Hkv).
    destruct (Hpairs _ Hkv) as (_ & Hk & Hv). unfold render_option. simpl in *.
    intros H. apply elem_of_app in H as [H|H]; [done|].
    apply elem_of_cons in H as [H|H]; [done|].
    apply elem_of_app in H as [H|H]; [done|].
    apply elem_of_cons in H as [H|H]; [done|]. by apply elem_of_nil in H.
Qed.

(** ** The line loop *)

(** X6: blank lines are invisible to the parser: removing them from the
    stream changes neither the final parser nor anything it stored. *)
Theorem blank_lines_ignored (rt : Runtime) (pm : ParserState * Memory)
    (lines : list bytes) :
  feed rt pm (filter (λ line, blank (Py.rstrip_byte x0a line) = false) lines)
  = feed rt pm lines.
Proof.
  revert pm. induction lines as [|line lines IH]; intros pm; [done|].
  rewrite filter_cons. case_decide as Hb.
  - by rewrite !feed_cons, IH.
  - rewrite feed_cons, IH. apply not_false_is_true in Hb.
    rewrite (call_blank _ _ _ _ Hb). by destruct pm.
Qed.

Lemma noop_call_content (rt : Runtime) (self : ParserState) (line : bytes)
    (m : Memory) :
  state self = NOOPParser →
  piggyback_is_header line = false → host_is_header line = false →
  call rt self line m = (self, m).
Proof.
  intros Hst Hp Hh. unfold call, noop_call. rewrite Hst, Hp, Hh.
  by destruct (blank line).
Qed.

(** X7: outside of any block the parser drops whatever is not a header:
    content lines and stray footers before the next header leave no
    trace, neither in the store nor as a warning. *)
Theorem noop_skips_until_header (rt : Runtime) (self : ParserState)
    (m : Memory) (junk rest : list bytes) :
  state self = NOOPParser →
  (∀ line, line ∈ junk →
     piggyback_is_header (Py.rstrip_byte x0a line) = false
     ∧ host_is_header (Py.rstrip_byte x0a line) = false) →
  feed rt (self, m) (junk ++ rest) = feed rt (self, m) rest.
Proof.
  intros Hst Hjunk. rewrite feed_app. f_equal.
  induction junk as [|line junk IH]; [done|].
  rewrite feed_cons. simpl.
  destruct (Hjunk line) as [Hp Hh]; [by left|].
  rewrite noop_call_content by done.
  apply IH. intros l Hl. apply Hjunk. by right.
Qed.

Lemma noop_skips_until_header_witness :
  feed Reference.runtime (noop_me, empty_memory)
    ([b "junk"; b "<<<>>>"; b "<<<<>>>>"] ++ [b "<<<a>>>"; b "x"])
  = feed Reference.runtime (noop_me, empty_memory) [b "<<<a>>>"; b "x"].
Proof.
  apply noop_skips_until_header; [reflexivity|].
  intros line Hl.
  repeat (apply elem_of_cons in Hl as [->|Hl]; [by vm_compute|]).
  by apply elem_of_nil in Hl.
Defined.

(** X8: how a piggyback header is handled, in every state.  A header
    naming another host opens a piggyback block for the sanitized name;
    one naming the receiving host itself closes an open piggyback block
    and leaves a host section open; one whose name cannot be read is
    logged and resets the parser.  The store is not touched otherwise. *)
Theorem piggyback_header_transitions (rt : Runtime) (self : ParserState)
    (line : bytes) (m : Memory) :
  piggyback_is_header line = true →
  match piggyback_parse_header rt line (hostname self) with
  | inl _ => call rt self line m = (to_noop_parser self, log_warning line m)
  | inr t =>
      call rt self line m
      = (if bool_decide (t = hostname self)
         then match state self with
              | PiggybackSectionParser _ => to_noop_parser self
              | _ => self
              end
         else to_piggyback_section_parser self t, m)
  end.
Proof.
  intros Hp.
  pose proof (piggyback_is_header_not_blank _ Hp) as Hb.
  destruct (footers_exclude line) as [Hpf _].
  assert (piggyback_is_footer line = false) as Hf.
  { destruct (piggyback_is_footer line) eqn:E; [|done].
    destruct (Hpf eq_refl) as (_ & ? & _). congruence. }
  unfold call, noop_call, piggyback_call, host_call.
  destruct (state self); rewrite Hb, ?Hf, Hp;
    destruct (piggyback_parse_header rt line (hostname self)); simpl; try done;
    by case_bool_decide.
Qed.

Lemma piggyback_header_transitions_witness :
  call Reference.runtime in_section_a (b "<<<<web 01>>>>") empty_memory
  = (to_piggyback_section_parser in_section_a (u "web_01"), empty_memory).
Proof.
  apply (piggyback_header_transitions Reference.runtime in_section_a
           (b "<<<<web 01>>>>") empty_memory).
  by vm_compute.
Defined.

(** X9: every warning resets the parser.  One line logs at most one
    warning; a line that logs one leaves the parser in NOOP, and the
    warning names that line (a content line as it was decoded:
    stripped, unless the section has the [nostrip] option). *)
Theorem warning_resets_parser (rt : Runtime) (self : ParserState)
    (line : bytes) (m : Memory) :
  let pm := call rt self line m in
  warnings pm.2 = warnings m
  ∨ (state pm.1 = NOOPParser
     ∧ (warnings pm.2 = warnings m ++ [line]
        ∨ warnings pm.2 = warnings m ++ [Py.strip line])).
Proof.
  simpl.
  unfold call, noop_call, piggyback_call, host_call, host_parse_header, except.
  repeat case_match; simplify_eq/=; auto;
    match goal with
    | H : to_host_section_parser _ ?s ?h ?m = _ |- _ =>
        destruct (to_host_section_parser_effect rt s h m) as (_ & _ & Hw & _);
        rewrite H in Hw; simpl in Hw; rewrite Hw; auto
    end.
Qed.

(** ** Piggyback blocks *)

Lemma piggyback_call_content (rt : Runtime) (self : ParserState) (t : str)
    (line : bytes) (m : Memory) :
  state self = PiggybackSectionParser t →
  blank line = false →
  piggyback_is_header line = false → piggyback_is_footer line = false →
  call rt self line m
  = (self,
     append_raw t
       (if host_is_header line
        then _add_cached_info (Py.strip line) (cached_at self) (cache_age self)
        else line) m).
Proof.
  intros Hst Hb Hp Hf. unfold call, piggyback_call. by rewrite Hst, Hb, Hp, Hf.
Qed.

(** X10: inside a piggyback block nothing is parsed.  Up to the next
    piggyback header or footer the parser stays in the block, logs
    nothing and leaves the host's own sections, cache info and persisted
    sections alone; the non-blank lines are appended to the raw data of
    the piggybacked host in stream order, verbatim except that section
    headers are stripped and given their cache information; the raw
    data of other hosts is not touched. *)
Theorem piggyback_block_verbatim (rt : Runtime) (self : ParserState) (t : str)
    (m : Memory) (lines : list bytes) :
  state self = PiggybackSectionParser t →
  (∀ line, line ∈ lines →
     piggyback_is_header (Py.rstrip_byte x0a line) = false
     ∧ piggyback_is_footer (Py.rstrip_byte x0a line) = false) →
  let pm := feed rt (self, m) lines in
  pm.1 = self
  ∧ heap pm.2 = heap m ∧ sections pm.2 = sections m
  ∧ cache_info pm.2 = cache_info m
  ∧ persisted_sections pm.2 = persisted_sections m
  ∧ warnings pm.2 = warnings m
  ∧ default [] (piggybacked_raw_data pm.2 !! t)
    = default [] (piggybacked_raw_data m !! t)
      ++ ((λ line,
             if host_is_header line
             then _add_cached_info (Py.strip line) (cached_at self)
                    (cache_age self)
             else line)
            <$> filter (λ line, blank line = false)
                  (Py.rstrip_byte x0a <$> lines))
  ∧ ∀ k, k ≠ t → piggybacked_raw_data pm.2 !! k = piggybacked_raw_data m !! k.
Proof.
  intros Hst Hlines. simpl. revert m.
  induction lines as [|line lines IH]; intros m.
  { simpl. by rewrite app_nil_r. }
  rewrite feed_cons. simpl fst. simpl snd. rewrite fmap_cons, filter_cons.
  destruct (Hlines line) as [Hp Hf]; [by left|].
  assert (∀ l, l ∈ lines →
            piggyback_is_header (Py.rstrip_byte x0a l) = false
            ∧ piggyback_is_footer (Py.rstrip_byte x0a l) = false) as Hrest.
  { intros l Hl. apply Hlines. by right. }
  destruct (blank (Py.rstrip_byte x0a line)) eqn:Hb.
  - rewrite (call_blank _ _ _ _ Hb). rewrite decide_False by done.
    by apply IH.
  - rewrite (piggyback_call_content rt self t) by done.
    rewrite decide_True by done.
    destruct (IH Hrest (append_raw t
      (if host_is_header (Py.rstrip_byte x0a line)
       then _add_cached_info (Py.strip (Py.rstrip_byte x0a line))
              (cached_at self) (cache_age self)
       else Py.rstrip_byte x0a line) m))
      as (-> & -> & -> & -> & -> & -> & -> & Hk).
    repeat split; try done.
    + simpl. rewrite lookup_insert_eq. simpl. by rewrite <- app_assoc.
    + intros k Hne. rewrite Hk by done. simpl. by rewrite lookup_insert_ne.
Qed.

Lemma piggyback_block_verbatim_witness :
  let self := to_piggyback_section_parser noop_me (u "web") in
  let pm := feed Reference.runtime (self, empty_memory)
              [b "<<<uptime>>>"; b ""; b " 123 "; b "<<<>>>"] in
  pm.1 = self
  ∧ sections pm.2 = ∅
  ∧ warnings pm.2 = []
  ∧ default [] (piggybacked_raw_data pm.2 !! u "web")
    = [b "<<<uptime:cached(1500,90)>>>"; b " 123 "; b "<<<>>>"].
Proof.
  destruct (piggyback_block_verbatim Reference.runtime
              (to_piggyback_section_parser noop_me (u "web")) (u "web")
              empty_memory [b "<<<uptime>>>"; b ""; b " 123 "; b "<<<>>>"])
    as (H1 & _ & H3 & _ & _ & H6 & H7 & _).
  - reflexivity.
  - intros line Hl.
    repeat (apply elem_of_cons in Hl as [->|Hl]; [by vm_compute|]).
    by apply elem_of_nil in Hl.
  - simpl. split; [exact H1|]. split; [exact H3|]. split; [exact H6|].
    exact H7.
Defined.

(** ** What is stored stays stored *)

Lemma setdefault_section_payload (n : str) (m : Memory) (l : loc) :
  payload (setdefault_section n m) l = payload m l.
Proof.
  unfold setdefault_section, payload. destruct (sections m !! n); [done|].
  simpl. destruct (decide (l < length (heap m))%nat) as [Hl|Hl].
  - by rewrite lookup_app_l.
  - rewrite lookup_app_r by lia. rewrite (lookup_ge_None_2 (heap m)) by lia.
    by destruct (l - length (heap m))%nat.
Qed.

Lemma to_host_section_parser_payload (rt : Runtime) (self : ParserState)
    (hdr : AgentParserSectionHeader) (m : Memory) (l : loc) :
  payload (to_host_section_parser rt self hdr m).2 l = payload m l.
Proof.
  destruct (to_host_section_parser_effect rt self hdr m) as (Hh & _).
  unfold payload in *. rewrite Hh. apply setdefault_section_payload.
Qed.

Lemma call_payload (rt : Runtime) (self : ParserState) (line : bytes)
    (m : Memory) (l : loc) :
  ∃ extra, payload (call rt self line m).2 l = payload m l ++ extra.
Proof.
  unfold call, noop_call, piggyback_call, host_call, host_parse_header, except.
  repeat case_match; simplify_eq/=;
    try (exists []; by rewrite app_nil_r);
    try match goal with
      | H : to_host_section_parser _ ?s ?h ?m = _ |- _ =>
          exists [];
          pose proof (to_host_section_parser_payload rt s h m l) as Hpl;
          rewrite H in Hpl; simpl in Hpl; unfold payload in *; simpl;
          by rewrite app_nil_r
      end.
  all: unfold payload; simpl;
    match goal with
    | |- context [alter _ ?l1 _ !! ?l2] =>
        destruct (decide (l1 = l2)) as [Heq|Hne]
    end;
    [subst; rewrite list_lookup_alter, decide_True by done;
     destruct (heap m !! _); [eexists; reflexivity|by exists []]
    |rewrite list_lookup_alter, decide_False by done;
     exists []; by rewrite app_nil_r].
Qed.

Lemma call_piggybacked_keep (rt : Runtime) (self : ParserState) (line : bytes)
    (m : Memory) (k : str) (ls : list bytes) :
  piggybacked_raw_data m !! k = Some ls →
  ∃ extra, piggybacked_raw_data (call rt self line m).2 !! k = Some (ls ++ extra).
Proof.
  intros Hk.
  unfold call, noop_call, piggyback_call, host_call, host_parse_header, except.
  pose proof (to_host_section_parser_piggybacked rt self) as Hinit.
  repeat case_match; simplify_eq/=;
    try (exists []; by rewrite app_nil_r);
    try match goal with
      | H : to_host_section_parser _ _ ?h ?m = _ |- _ =>
          specialize (Hinit h m); rewrite H in Hinit; simpl in Hinit;
          rewrite Hinit; exists []; by rewrite app_nil_r
      end.
  all: match goal with
       | |- context [<[?t := _]> _ !! ?k'] =>
           destruct (decide (t = k')) as [->|Hne]
       end;
    [rewrite lookup_insert_eq, Hk; simpl; eauto
    |rewrite lookup_insert_ne by done; exists []; by rewrite app_nil_r].
Qed.

(** X11: the parser only ever adds.  A section read so far is still there
    after any further lines, with the rows it had as a prefix of the
    rows it has then; the same holds for the lines collected for a
    piggybacked host. *)
Theorem stored_data_append_only (rt : Runtime) (pm : ParserState * Memory)
    (lines : list bytes) :
  (∀ n content,
     sections_view pm.2 !! n = Some content →
     ∃ extra, sections_view (feed rt pm lines).2 !! n = Some (content ++ extra))
  ∧ (∀ k ls,
       piggybacked_raw_data pm.2 !! k = Some ls →
       ∃ extra,
         piggybacked_raw_data (feed rt pm lines).2 !! k = Some (ls ++ extra)).
Proof.
  revert pm. induction lines as [|line lines IH]; intros pm.
  { split; intros ? c Hc; exists []; by rewrite app_nil_r. }
  rewrite feed_cons.
  destruct (IH (call rt pm.1 (Py.rstrip_byte x0a line) pm.2)) as [IHs IHp].
  split.
  - intros n content Hn. unfold sections_view in Hn.
    rewrite lookup_fmap in Hn.
    destruct (sections pm.2 !! n) as [l|] eqn:Hl; [|done].
    simpl in Hn. injection Hn as <-.
    destruct (call_payload rt pm.1 (Py.rstrip_byte x0a line) pm.2 l)
      as [extra Hextra].
    destruct (IHs n (payload pm.2 l ++ extra)) as [extra' Hextra'].
    { unfold sections_view. rewrite lookup_fmap.
      rewrite (call_sections_keep rt _ _ _ _ _ Hl). simpl. by rewrite Hextra. }
    exists (extra ++ extra'). by rewrite app_assoc.
  - intros k ls Hk.
    destruct (call_piggybacked_keep rt pm.1 (Py.rstrip_byte x0a line) pm.2 k ls Hk)
      as [extra Hextra].
    destruct (IHp k _ Hextra) as [extra' Hextra'].
    exists (extra ++ extra'). by rewrite app_assoc.
Qed.

Lemma stored_data_append_only_witness :
  ∃ extra,
    sections_view
      (feed Reference.runtime
         (in_section_a, setdefault_section (u "a") empty_memory)
         [b "x"; b "<<<b>>>"; b "y"]).2 !! u "a"
    = Some ([] ++ extra).
Proof.
  apply (proj1 (stored_data_append_only Reference.runtime
                  (in_section_a, setdefault_section (u "a") empty_memory)
                  [b "x"; b "<<<b>>>"; b "y"])).
  vm_compute; reflexivity.
Defined.

(** ** Parsing a stream piece by piece *)

(** X12: parsing is incremental.  Parsing two pieces joined by a newline
    is parsing the first and feeding the lines of the second to the
    parser this gave; in particular a final newline changes nothing. *)
Theorem parse_continues (rt : Runtime) (self_hostname : str) (now : Z)
    (raw1 raw2 : bytes) (check_interval : Z) (p : ParserState) (m : Memory) :
  _parse_host_section rt self_hostname now raw1 check_interval = inr (p, m) →
  _parse_host_section rt self_hostname now (raw1 ++ x0a :: raw2) check_interval
  = inr (feed rt (p, m) (Py.split x0a raw2))
  ∧ _parse_host_section rt self_hostname now (raw1 ++ [x0a]) check_interval
    = inr (p, m).
Proof.
  unfold _parse_host_section.
  destruct (cache_age_of check_interval) as [e|age]; [done|].
  cbn [bind]. intros [= H].
  rewrite !split_app_sep, !feed_app, H. split; [done|].
  simpl. by rewrite call_blank.
Qed.

Lemma parse_continues_witness :
  ∃ p m,
    _parse_host_section Reference.runtime (u "me") 1500 (b "<<<a>>>") 1
    = inr (p, m)
    ∧ _parse_host_section Reference.runtime (u "me") 1500
        (b "<<<a>>>" ++ x0a :: b "x y") 1
      = inr (feed Reference.runtime (p, m) (Py.split x0a (b "x y"))).
Proof.
  eexists _, _. split; [vm_compute; reflexivity|].
  refine (proj1 (parse_continues Reference.runtime (u "me") 1500 (b "<<<a>>>")
                   (b "x y") 1 _ _ _)).
  vm_compute; reflexivity.
Defined.

(** ** The invariant of the line loop *)

Lemma setdefault_section_heap (n : str) (m : Memory) :
  length (heap (setdefault_section n m))
  = match sections m !! n with
    | Some _ => length (heap m)
    | None => S (length (heap m))
    end.
Proof.
  unfold setdefault_section. destruct (sections m !! n); [done|].
  simpl. rewrite length_app. simpl. lia.
Qed.

Lemma setdefault_section_rest (n : str) (m : Memory) :
  cache_info (setdefault_section n m) = cache_info m
  ∧ persisted_sections (setdefault_section n m) = persisted_sections m
  ∧ piggybacked_raw_data (setdefault_section n m) = piggybacked_raw_data m
  ∧ warnings (setdefault_section n m) = warnings m.
Proof. unfold setdefault_section. by destruct (sections m !! n). Qed.

Lemma setdefault_section_store_ok (T : Z) (n : str) (m : Memory) :
  store_ok T m → store_ok T (setdefault_section n m).
Proof.
  intros (Ha & Hb & Hd & He).
  destruct (setdefault_section_rest n m) as (Hc & Hp & _ & _).
  pose proof (setdefault_section_heap n m) as Hh.
  pose proof (setdefault_section_lookup n m) as Hl.
  assert (∀ k l, sections m !! k = Some l →
                 sections (setdefault_section n m) !! k = Some l) as Hkeep.
  { intros k l Hk. by rewrite Hl, Hk. }
  repeat split.
  - intros k l. rewrite Hl, Hh.
    destruct (sections m !! k) as [l'|] eqn:Hk.
    + intros [= <-]. apply Ha in Hk. destruct (sections m !! n); lia.
    + case_decide as Hn; [|done]. subst k. rewrite Hk. intros [= <-]. lia.
  - intros k k' l. rewrite !Hl.
    destruct (sections m !! k) as [l1|] eqn:Hk;
      destruct (sections m !! k') as [l2|] eqn:Hk'.
    + intros [= <-] [= <-]. by eapply Hb.
    + intros ?. case_decide; [|done]. intros ?. simplify_eq.
      apply Ha in Hk. lia.
    + case_decide; [|done]. intros ? ?. simplify_eq. apply Ha in Hk'. lia.
    + repeat case_decide; try done. congruence.
  - rewrite Hp in *. by eapply Hd.
  - rewrite Hp in *. apply Hkeep. by eapply Hd.
  - intros k. rewrite Hc. intros [l Hk]%He. exists l. by apply Hkeep.
Qed.

Lemma to_host_section_parser_cache_info (rt : Runtime) (self : ParserState)
    (hdr : AgentParserSectionHeader) (m : Memory) (k : str) :
  is_Some (cache_info (to_host_section_parser rt self hdr m).2 !! k) →
  is_Some (cache_info m !! k) ∨ k = name hdr.
Proof.
  destruct (setdefault_section_rest (name hdr) m) as (Hc & _).
  unfold to_host_section_parser.
  repeat case_match; simplify_eq/=; rewrite ?Hc; auto;
    destruct (decide (k = name hdr)) as [->|Hne]; auto;
    rewrite ?lookup_insert_ne by done; rewrite ?Hc; auto.
Qed.

Lemma to_host_section_parser_store_ok (rt : Runtime) (self : ParserState)
    (hdr : AgentParserSectionHeader) (m : Memory) :
  store_ok (cached_at self) m →
  store_ok (cached_at self) (to_host_section_parser rt self hdr m).2
  ∧ is_Some (sections (to_host_section_parser rt self hdr m).2 !! name hdr).
Proof.
  intros Hok.
  apply (setdefault_section_store_ok _ (name hdr)) in Hok
    as (Ha & Hb & Hd & He).
  destruct (setdefault_section_rest (name hdr) m) as (Hc & Hp & _ & _).
  destruct (to_host_section_parser_effect rt self hdr m)
    as (Hh & Hs & _ & Hpers).
  pose proof (to_host_section_parser_cache_info rt self hdr m) as Hci.
  pose proof (setdefault_section_is_Some (name hdr) m) as Hbound.
  rewrite <- Hs in Ha, Hb, Hd, He, Hbound. rewrite <- Hh in Ha.
  rewrite Hp in Hd. rewrite Hc in He.
  split; [|done]. split; [done|]. split; [done|]. split.
  - intros n T' U l Hn.
    destruct Hpers as [Hpers|(U' & l' & _ & Hl' & Hpers)]; rewrite Hpers in Hn.
    + by eapply Hd.
    + destruct (decide (name hdr = n)) as [<-|Hne].
      * rewrite lookup_insert_eq in Hn. simplify_eq. by rewrite Hs.
      * rewrite lookup_insert_ne in Hn by done. by eapply Hd.
  - intros n [Hn| ->]%Hci; [by apply He|done].
Qed.

Lemma call_consistent (rt : Runtime) (self : ParserState) (line : bytes)
    (m : Memory) :
  consistent (self, m) → consistent (call rt self line m).
Proof.
  intros [Hok Hbound]. simpl in *.
  pose proof (to_host_section_parser_store_ok rt self) as Hinit.
  unfold call, noop_call, piggyback_call, host_call, host_parse_header, except.
  repeat case_match; simplify_eq/=;
    try (split; [done|]; simpl; by intros ? [=]);
    try (split; [done|]; simpl; intros hdr' Hst'; apply Hbound; congruence);
    try match goal with
      | H : to_host_section_parser _ _ ?h ?m = (inl _, _) |- _ =>
          destruct (Hinit h m Hok) as [Hok' _]; rewrite H in Hok';
          split; [done|]; simpl; by intros ? [=]
      | H : to_host_section_parser _ _ ?h ?m = (inr _, _) |- _ =>
          destruct (Hinit h m Hok) as [Hok' Hb']; rewrite H in Hok', Hb';
          apply to_host_section_parser_fields in H as (_ & Hc & _ & Hst);
          split; simpl; [by rewrite Hc|];
          intros hdr' Hst'; rewrite Hst in Hst'; by simplify_eq
      end.
  all: split; simpl;
    [|intros hdr' Hst'; apply Hbound; congruence];
    destruct Hok as (Ha & Hb & Hd & He);
    (split; [|split; [|split]]); simpl; [|done..];
    intros n' l' Hn'; rewrite length_alter; by eapply Ha.
Qed.

Lemma feed_consistent (rt : Runtime) (pm : ParserState * Memory)
    (lines : list bytes) :
  consistent pm → consistent (feed rt pm lines).
Proof.
  revert pm. induction lines as [|line lines IH]; intros pm Hpm; [done|].
  rewrite feed_cons. apply IH. destruct pm. by apply call_consistent.
Qed.

Lemma parse_consistent (rt : Runtime) (self_hostname : str) (now : Z)
    (raw_data : bytes) (check_interval : Z) (p : ParserState) (m : Memory) :
  _parse_host_section rt self_hostname now raw_data check_interval = inr (p, m) →
  consistent (p, m) ∧ cached_at p = now.
Proof.
  unfold _parse_host_section.
  destruct (cache_age_of check_interval) as [e|age]; [done|].
  cbn [bind]. intros [= H].
  split.
  - rewrite <- H. apply feed_consistent. split; [|by intros ? [=]].
    repeat split; simpl; try done; intros *; rewrite ?lookup_empty; try done;
      by intros [? ?].
  - apply (f_equal fst) in H. simpl in H. rewrite <- H.
    by destruct (feed_fields rt
      ({| hostname := self_hostname; cached_at := now; cache_age := age;
          state := NOOPParser |}, empty_memory) (Py.split x0a raw_data))
      as (_ & -> & _).
Qed.

(** X13: what a parse returns hangs together.  Whatever the stream:
    every section with cache information is among the sections; every
    persisted section is stamped with the time of the parse and is one
    of the sections, with the same rows; and the section of a block
    still open at the end of the stream is among the sections. *)
Theorem parse_result_consistent (rt : Runtime) (self_hostname : str) (now : Z)
    (raw_data : bytes) (check_interval : Z) (p : ParserState) (m : Memory) :
  _parse_host_section rt self_hostname now raw_data check_interval = inr (p, m) →
  (∀ n, is_Some (cache_info m !! n) → is_Some (sections_view m !! n))
  ∧ (∀ n T U content,
       persisted_view m !! n = Some (T, U, content) →
       T = now ∧ sections_view m !! n = Some content)
  ∧ (∀ hdr, state p = HostSectionParser hdr →
            is_Some (sections_view m !! name hdr)).
Proof.
  intros [[(Ha & Hb & Hd & He) Hbound] Hnow]%parse_consistent. simpl in *.
  unfold sections_view, persisted_view. split; [|split].
  - intros n Hn%He. by rewrite lookup_fmap, fmap_is_Some.
  - intros n T U content H. rewrite lookup_fmap in H.
    destruct (persisted_sections m !! n) as [[[T' U'] l]|] eqn:Hn; [|done].
    simpl in H. injection H as -> -> <-.
    apply Hd in Hn as [-> Hn]. split; [done|].
    by rewrite lookup_fmap, Hn.
  - intros hdr Hst%Hbound. by rewrite lookup_fmap, fmap_is_Some.
Qed.

Lemma parse_result_consistent_witness :
  ∃ p m,
    _parse_host_section Reference.runtime (u "me") 1500
      (b "<<<foo:persist(2000)>>>" ++ [x0a] ++ b "a b" ++ [x0a]) 1 = inr (p, m)
    ∧ (∀ n, is_Some (cache_info m !! n) → is_Some (sections_view m !! n))
    ∧ (∀ n T U content,
         persisted_view m !! n = Some (T, U, content) →
         T = 1500 ∧ sections_view m !! n = Some content).
Proof.
  eexists _, _. split; [vm_compute; reflexivity|].
  destruct (parse_result_consistent Reference.runtime (u "me") 1500
              (b "<<<foo:persist(2000)>>>" ++ [x0a] ++ b "a b" ++ [x0a]) 1 _ _
              ltac:(vm_compute; reflexivity)) as (H1 & H2 & _).
  split; [exact H1|exact H2].
Defined.

Lemma sections_view_alter (T : Z) (m : Memory) (n : str) (l : loc)
    (f : AgentSectionContent → AgentSectionContent) :
  store_ok T m →
  sections m !! n = Some l →
  sections_view (with_heap (alter f l) m)
  = <[n := f (payload m l)]> (sections_view m).
Proof.
  intros (Ha & Hb & _) Hn.
  apply map_eq. intros k. unfold sections_view. rewrite lookup_fmap. simpl.
  destruct (decide (n = k)) as [<-|Hne].
  - rewrite lookup_insert_eq, Hn. simpl. f_equal. unfold payload. simpl.
    rewrite list_lookup_alter, decide_True by done.
    destruct (lookup_lt_is_Some_2 (heap m) l (Ha _ _ Hn)) as [c ->]. done.
  - rewrite lookup_insert_ne, lookup_fmap by done.
    destruct (sections m !! k) as [l'|] eqn:Hk; [|done]. simpl. f_equal.
    unfold payload. simpl. rewrite list_lookup_alter, decide_False; [done|].
    intros <-. apply Hne. by eapply Hb.
Qed.

Lemma host_call_content (rt : Runtime) (p : ParserState) (m : Memory)
    (hdr : AgentParserSectionHeader) (line : bytes) (row : list str) :
  consistent (p, m) →
  state p = HostSectionParser hdr →
  blank line = false →
  piggyback_is_header line = false →
  host_is_footer line = false →
  host_is_header line = false →
  decode_row rt hdr (if nostrip hdr then line else Py.strip line) = inr row →
  ∃ content,
    sections_view m !! name hdr = Some content
    ∧ (call rt p line m).1 = p
    ∧ sections_view (call rt p line m).2
      = <[name hdr := content ++ [row]]> (sections_view m)
    ∧ cache_info (call rt p line m).2 = cache_info m
    ∧ piggybacked_raw_data (call rt p line m).2 = piggybacked_raw_data m
    ∧ persisted_sections (call rt p line m).2 = persisted_sections m
    ∧ warnings (call rt p line m).2 = warnings m.
Proof.
  intros [Hok Hbound] Hst Hb Hp Hf Hh Hrow. simpl in *.
  destruct (Hbound hdr Hst) as [l Hl].
  exists (payload m l). split.
  { unfold sections_view. by rewrite lookup_fmap, Hl. }
  unfold call, host_call. rewrite Hst, Hb, Hp, Hf, Hh, Hl, Hrow. simpl.
  repeat split. by eapply sections_view_alter.
Qed.

(** X14: a content line adds one row to the open section and nothing
    else.  After any stream that leaves a host section open, a further
    line that is neither blank nor a header or footer, and that decodes,
    is split into one row appended to the rows of that section; every
    other section, the cache information, the piggybacked data, the
    persisted entries and the warnings stay as they are, and the section
    stays open. *)
Theorem content_line_appends_row (rt : Runtime) (self_hostname : str) (now : Z)
    (raw_data : bytes) (check_interval : Z) (p : ParserState) (m : Memory)
    (hdr : AgentParserSectionHeader) (line : bytes) (row : list str) :
  _parse_host_section rt self_hostname now raw_data check_interval = inr (p, m) →
  state p = HostSectionParser hdr →
  blank line = false →
  piggyback_is_header line = false →
  host_is_footer line = false →
  host_is_header line = false →
  decode_row rt hdr (if nostrip hdr then line else Py.strip line) = inr row →
  ∃ content,
    sections_view m !! name hdr = Some content
    ∧ (call rt p line m).1 = p
    ∧ sections_view (call rt p line m).2
      = <[name hdr := content ++ [row]]> (sections_view m)
    ∧ cache_info (call rt p line m).2 = cache_info m
    ∧ piggybacked_raw_data (call rt p line m).2 = piggybacked_raw_data m
    ∧ persisted_sections (call rt p line m).2 = persisted_sections m
    ∧ warnings (call rt p line m).2 = warnings m.
Proof.
  intros [Hc _]%parse_consistent. by apply host_call_content.
Qed.

Lemma content_line_appends_row_witness :
  ∃ p m,
    _parse_host_section Reference.runtime (u "me") 1500
      (b "<<<df:sep(124)>>>" ++ [x0a] ++ b "a|b") 1 = inr (p, m)
    ∧ sections_view m !! u "df" = Some [[u "a"; u "b"]]
    ∧ sections_view (call Reference.runtime p (b " c||d ") m).2
      = <[u "df" := [[u "a"; u "b"]] ++ [[u "c"; u ""; u "d"]]]> (sections_view m).
Proof.
  eexists _, _. split; [vm_compute; reflexivity|].
  split; [vm_compute; reflexivity|].
  destruct (content_line_appends_row Reference.runtime (u "me") 1500
              (b "<<<df:sep(124)>>>" ++ [x0a] ++ b "a|b") 1 _ _
              {| name := u "df"; options := {[ u "sep" := u "124" ]} |}
              (b " c||d ") [u "c"; u ""; u "d"]
              ltac:(vm_compute; reflexivity) ltac:(vm_compute; reflexivity)
              ltac:(vm_compute; reflexivity) ltac:(vm_compute; reflexivity)
              ltac:(vm_compute; reflexivity) ltac:(vm_compute; reflexivity)
              ltac:(vm_compute; reflexivity))
    as (content & Hc & _ & Hv & _).
  assert (content = [[u "a"; u "b"]]) as ->.
  { vm_compute in Hc. by injection Hc as <-. }
  exact Hv.
Defined.

(** X15: a piggyback footer inside a host section is content.  The line
    [<<<<>>>>] closes nothing there: it is neither a header nor the
    footer of the section, so it is decoded like any other line and,
    when it decodes, appended to the open section as a row, and the
    section stays open. *)
Theorem piggyback_footer_in_host_section (rt : Runtime) (self_hostname : str)
    (now : Z) (raw_data : bytes) (check_interval : Z) (p : ParserState)
    (m : Memory) (hdr : AgentParserSectionHeader) (line : bytes)
    (row : list str) :
  _parse_host_section rt self_hostname now raw_data check_interval = inr (p, m) →
  state p = HostSectionParser hdr →
  piggyback_is_footer line = true →
  decode_row rt hdr (if nostrip hdr then line else Py.strip line) = inr row →
  ∃ content,
    sections_view m !! name hdr = Some content
    ∧ (call rt p line m).1 = p
    ∧ sections_view (call rt p line m).2
      = <[name hdr := content ++ [row]]> (sections_view m)
    ∧ warnings (call rt p line m).2 = warnings m.
Proof.
  intros [Hc _]%parse_consistent Hst Hf Hrow.
  destruct (footers_exclude line) as [Hex _].
  destruct (Hex Hf) as (Hb & Hp & Hhf & Hh).
  destruct (host_call_content rt p m hdr line row) as (content & H1 & H2 & H3 & H); try done.
  exists content. by destruct H as (_ & _ & _ & ?).
Qed.

Lemma piggyback_footer_in_host_section_witness :
  ∃ p m,
    _parse_host_section Reference.runtime (u "me") 1500
      (b "<<<<me>>>>" ++ [x0a] ++ b "<<<a>>>" ++ [x0a] ++ b "x") 1 = inr (p, m)
    ∧ sections_view m !! u "a" = Some [[u "x"]]
    ∧ sections_view (call Reference.runtime p (b "<<<<>>>>") m).2
      = <[u "a" := [[u "x"]] ++ [[u "<<<<>>>>"]]]> (sections_view m).
Proof.
  eexists _, _. split; [vm_compute; reflexivity|].
  split; [vm_compute; reflexivity|].
  destruct (piggyback_footer_in_host_section Reference.runtime (u "me") 1500
              (b "<<<<me>>>>" ++ [x0a] ++ b "<<<a>>>" ++ [x0a] ++ b "x") 1 _ _
              {| name := u "a"; options := ∅ |}
              (b "<<<<>>>>") [u "<<<<>>>>"]
              ltac:(vm_compute; reflexivity) ltac:(vm_compute; reflexivity)
              ltac:(vm_compute; reflexivity) ltac:(vm_compute; reflexivity))
    as (content & Hc & _ & Hv & _).
  assert (content = [[u "x"]]) as ->.
  { vm_compute in Hc. by injection Hc as <-. }
  exact Hv.
Defined.

(** X16: the parser's own data never changes.  Whatever the stream, the
    parser that is left at the end still carries the host name it was
    created for, the time of the parse as [cached_at], and the cache age
    computed from the check interval. *)
Theorem parse_keeps_fields (rt : Runtime) (self_hostname : str) (now : Z)
    (raw_data : bytes) (check_interval : Z) (p : ParserState) (m : Memory) :
  _parse_host_section rt self_hostname now raw_data check_interval = inr (p, m) →
  hostname p = self_hostname
  ∧ cached_at p = now
  ∧ cache_age_of check_interval = inr (cache_age p).
Proof.
  unfold _parse_host_section.
  destruct (cache_age_of check_interval) as [e|age]; [done|].
  cbn [bind]. intros [= H].
  destruct (feed_fields rt
    ({| hostname := self_hostname; cached_at := now; cache_age := age;
        state := NOOPParser |}, empty_memory) (Py.split x0a raw_data))
    as (Hh & Hc & Ha).
  rewrite H in Hh, Hc, Ha. simpl in *. by rewrite Hh, Hc, Ha.
Qed.

Lemma parse_keeps_fields_witness :
  ∃ p m,
    _parse_host_section Reference.runtime (u "me") 1000 piggyback_stream 1
    = inr (p, m)
    ∧ hostname p = u "me" ∧ cached_at p = 1000
    ∧ cache_age_of 1 = inr (cache_age p).
Proof.
  eexists _, _. split; [vm_compute; reflexivity|].
  eapply (parse_keeps_fields Reference.runtime (u "me") 1000 piggyback_stream 1).
  vm_compute; reflexivity.
Defined.

(** ** The agent information *)

Section AgentInfo.

Context (env : Environment).

Lemma get_agent_info_rows (rows : AgentSectionContent)
    (acc : gmap str (option str)) :
  foldl (λ acc line,
           agent_info <- acc ;;
           match line with
           | [] => inl IndexError
           | key :: rest =>
               let value :=
                 match rest with
                 | [] => None
                 | _ => Some (Str.join (u " ") rest)
                 end in
               inr (<[lower env (removelast key) := value]> agent_info)
           end)
        (inr acc) rows
  = if bool_decide ([] ∈ rows) then inl IndexError
    else inr (foldl (λ info line,
                       <[lower env (removelast (hd [] line))
                         := match tl line with
                            | [] => None
                            | rest => Some (Str.join (u " ") rest)
                            end]> info)
                acc rows).
Proof.
  revert acc. induction rows as [|row rows IH]; intros acc; [done|].
  simpl. destruct row as [|key rest].
  - rewrite bool_decide_eq_true_2 by (by left).
    clear IH. by induction rows.
  - simpl. rewrite IH. destruct rest; simpl;
      (case_bool_decide as H1; case_bool_decide as H2; try done;
       [exfalso; apply H2; by right
       |exfalso; apply elem_of_cons in H2 as [?|?]; done]).
Qed.

Lemma get_agent_info_unfold (cmk_section : option AgentSectionContent) :
  _get_agent_info env cmk_section
  = let rows := default [] cmk_section in
    if bool_decide ([] ∈ rows) then inl IndexError
    else inr (foldl (λ info line,
                       <[lower env (removelast (hd [] line))
                         := match tl line with
                            | [] => None
                            | rest => Some (Str.join (u " ") rest)
                            end]> info)
                {[ u "version" := Some (u "unknown");
                   u "agentos" := Some (u "unknown") ]} rows).
Proof.
  unfold _get_agent_info. destruct cmk_section as [[|row rows]|]; [done| |done].
  apply get_agent_info_rows.
Qed.

Lemma agent_info_fold_keeps (rows : AgentSectionContent)
    (acc : gmap str (option str)) (k : str) :
  is_Some (acc !! k) →
  is_Some (foldl (λ info line,
                    <[lower env (removelast (hd [] line))
                      := match tl line with
                         | [] => None
                         | rest => Some (Str.join (u " ") rest)
                         end]> info)
             acc rows !! k).
Proof.
  revert acc. induction rows as [|row rows IH]; intros acc Hk; [done|].
  simpl. apply IH. rewrite lookup_insert_is_Some.
  destruct (decide (lower env (removelast (hd [] row)) = k)); auto.
Qed.

Lemma agent_info_fold_other (rows : AgentSectionContent)
    (acc : gmap str (option str)) (k : str) :
  (∀ line, line ∈ rows → lower env (removelast (hd [] line)) ≠ k) →
  foldl (λ info line,
           <[lower env (removelast (hd [] line))
             := match tl line with
                | [] => None
                | rest => Some (Str.join (u " ") rest)
                end]> info)
    acc rows !! k
  = acc !! k.
Proof.
  revert acc. induction rows as [|row rows IH]; intros acc Hk; [done|].
  simpl. rewrite IH by (intros line Hl; apply Hk; by right).
  apply lookup_insert_ne, Hk. by left.
Qed.

(** X17: the agent information always has a version and an operating
    system entry, whatever rows the check_mk section has, and building
    it fails in one way only: with [IndexError], on a section that has
    an empty row. *)
Theorem get_agent_info_total (cmk_section : option AgentSectionContent) :
  match _get_agent_info env cmk_section with
  | inl e => e = IndexError ∧ ∃ rows, cmk_section = Some rows ∧ [] ∈ rows
  | inr agent_info =>
      is_Some (agent_info !! u "version")
      ∧ is_Some (agent_info !! u "agentos")
      ∧ ∀ rows, cmk_section = Some rows → [] ∉ rows
  end.
Proof.
  rewrite get_agent_info_unfold. simpl. case_bool_decide as Hrows.
  - split; [done|]. destruct cmk_section as [rows|]; [by exists rows|].
    by apply elem_of_nil in Hrows.
  - split; [|split].
    + apply agent_info_fold_keeps. by rewrite lookup_insert_eq.
    + apply agent_info_fold_keeps.
      rewrite lookup_insert_ne by (by vm_compute).
      by rewrite lookup_singleton_eq.
    + by intros rows ->.
Qed.

(** X18: of the rows of the check_mk section with one key the last one
    counts.  The key is the first word without its last character, in
    lower case; the value is the remaining words joined by single
    blanks, and [None] for a row that has the key only. *)
Theorem get_agent_info_last_row (pre post : AgentSectionContent)
    (key : str) (rest : list str) :
  [] ∉ pre →
  (∀ line, line ∈ post →
     line ≠ []
     ∧ lower env (removelast (hd [] line)) ≠ lower env (removelast key)) →
  ∃ agent_info,
    _get_agent_info env (Some (pre ++ (key :: rest) :: post)) = inr agent_info
    ∧ agent_info !! lower env (removelast key)
      = Some match rest with
             | [] => None
             | _ => Some (Str.join (u " ") rest)
             end.
Proof.
  intros Hpre Hpost. rewrite get_agent_info_unfold.
  cbv zeta. cbn [from_option id].
  rewrite bool_decide_eq_false_2.
  - eexists. split; [reflexivity|].
    rewrite foldl_app. cbn [foldl hd tail].
    rewrite agent_info_fold_other by (intros line Hl; by apply Hpost).
    rewrite lookup_insert_eq. by destruct rest.
  - intros [H|H]%elem_of_app; [done|].
    apply elem_of_cons in H as [H|H]; [done|].
    by destruct (Hpost _ H).
Qed.

End AgentInfo.

Lemma get_agent_info_last_row_witness :
  ∃ agent_info,
    _get_agent_info ReferenceEnv.environment
      (Some ([[u "Version:"; u "1.0"]]
             ++ [u "Version:"; u "2.0"; u "beta"] :: [[u "AgentOS:"; u "linux"]]))
    = inr agent_info
    ∧ agent_info !! u "version" = Some (Some (u "2.0 beta")).
Proof.
  apply (get_agent_info_last_row ReferenceEnv.environment
           [[u "Version:"; u "1.0"]] [[u "AgentOS:"; u "linux"]]
           (u "Version:") [u "2.0"; u "beta"]).
  - intros H. apply list_elem_of_singleton in H. discriminate H.
  - intros line Hl. apply list_elem_of_singleton in Hl as ->.
    split; [done|]. by vm_compute.
Defined.

(** ** The summary *)

Section Summary.

Context (rt : Runtime) (env : Environment).

Context (exit_spec : gmap str Z) (host_config : HostConfig).

Lemma default_agent_info_lookup :
  ({[ u "version" := Some (u "unknown"); u "agentos" := Some (u "unknown") ]}
     : gmap str (option str)) !! u "version" = Some (Some (u "unknown"))
  ∧ ({[ u "version" := Some (u "unknown"); u "agentos" := Some (u "unknown") ]}
       : gmap str (option str)) !! u "agentos" = Some (Some (u "unknown")).
Proof.
  split; [by rewrite lookup_insert_eq|].
  rewrite lookup_insert_ne by (by vm_compute). by rewrite lookup_singleton_eq.
Qed.

(** X19: without a check_mk section, or with an empty one, the summary is
    status 0 with no metrics, whatever the mode and the configuration:
    "Version: unknown, OS: unknown" for a host, the empty text for a
    cluster.  No sub-check runs. *)
Theorem summarize_without_check_mk (host_sections : Memory) (checking : bool)
    (check_mk : str) :
  SectionName rt (u "check_mk") = inr check_mk →
  sections_view host_sections !! check_mk = None
  ∨ sections_view host_sections !! check_mk = Some [] →
  summarize_success rt env exit_spec host_config host_sections checking
  = inr (0,
         if is_cluster host_config then []
         else u "Version: unknown, OS: unknown",
         []).
Proof.
  intros Hname Hsec. unfold summarize_success. rewrite Hname. cbn [bind].
  destruct default_agent_info_lookup as [Hv Ho].
  assert (_get_agent_info env (sections_view host_sections !! check_mk)
          = inr {[ u "version" := Some (u "unknown");
                   u "agentos" := Some (u "unknown") ]}) as Hinfo.
  { by destruct Hsec as [-> | ->]. }
  unfold _summarize_impl. rewrite Hinfo. cbn [bind]. rewrite Hv. cbn [bind].
  assert ((checking
           && match sections_view host_sections !! check_mk with
              | None | Some [] => false
              | Some _ => true
              end) = false) as ->.
  { destruct Hsec as [-> | ->]; by destruct checking. }
  destruct (is_cluster host_config); cbn [bind]; [done|].
  rewrite Ho. cbn [bind]. reflexivity.
Qed.

Lemma sub_result_version_shape (agent_info : gmap str (option str))
    (status : Z) (text : str) (perfdata : list MetricTuple) :
  _sub_result_version rt env exit_spec host_config agent_info
  = inr (Some (status, text, perfdata)) →
  status = exit_state exit_spec (u "wrong_version") ∧ perfdata = [].
Proof.
  unfold _sub_result_version.
  destruct (agent_info !! u "version") as [version|]; [|done].
  destruct (truthy _ && _); cbn [bind].
  - destruct (_is_expected_agent_version _ _ _ _) as [e|[|]]; cbn [bind andb negb];
      [done| |].
    + by case_bool_decide.
    + destruct (Seq.index _ _); cbn [bind]; [done|]. by intros [= <- _ <-].
  - by case_bool_decide.
Qed.

Lemma sub_result_only_from_shape (agent_info : gmap str (option str))
    (status : Z) (text : str) (perfdata : list MetricTuple) :
  _sub_result_only_from env exit_spec host_config agent_info
  = inr (Some (status, text, perfdata)) →
  (status = 0 ∨ status = exit_state exit_spec (u "restricted_address_mismatch"))
  ∧ perfdata = [].
Proof.
  unfold _sub_result_only_from.
  destruct (agent_info !! u "onlyfrom") as [[agent_only_from|]|]; [|done..].
  destruct (only_from host_config) as [config_only_from|]; [|done].
  destruct (normalize_ip_addresses env (inl agent_only_from)); cbn [bind]; [done|].
  destruct (normalize_ip_addresses env config_only_from); cbn [bind]; [done|].
  case_bool_decide.
  - destruct (Seq.index _ _); cbn [bind]; [done|]. intros [= <- _ <-]. auto.
  - destruct (Seq.index _ _); cbn [bind]; [done|]. intros [= <- _ <-]. auto.
Qed.

(** X20: what a summary can be.  The summarizer reports no metrics; its
    status is 0 or one of the two configured states, [wrong_version]
    and [restricted_address_mismatch] (1 where not configured), and
    never below 0; outside of checking mode it is 0. *)
Theorem summarize_status (cmk_section : option AgentSectionContent)
    (for_checking : bool) (status : Z) (text : str)
    (perfdata : list MetricTuple) :
  _summarize_impl rt env exit_spec host_config cmk_section for_checking
  = inr (status, text, perfdata) →
  perfdata = []
  ∧ 0 ≤ status
  ∧ (status = 0
     ∨ status = default 1 (exit_spec !! u "wrong_version")
     ∨ status = default 1 (exit_spec !! u "restricted_address_mismatch"))
  ∧ (for_checking = false → status = 0).
Proof.
  unfold _summarize_impl.
  destruct (_get_agent_info env cmk_section) as [e|agent_info]; cbn [bind];
    [done|].
  destruct (agent_info !! u "version") as [version|]; cbn [bind]; [|done].
  match goal with
  | |- context [bind ?a] => destruct a as [e|agentos]; cbn [bind]; [done|]
  end.
  destruct (for_checking && _) eqn:Hfc; cbn [bind].
  - apply andb_true_iff in Hfc as [-> _].
    pose proof (sub_result_version_shape agent_info) as Hv.
    pose proof (sub_result_only_from_shape agent_info) as Ho.
    destruct (_sub_result_version _ _ _ _ _) as [e|v]; cbn [bind]; [done|].
    destruct (_sub_result_only_from _ _ _ _) as [e|o]; cbn [bind]; [done|].
    unfold exit_state in *.
    destruct v as [[[s1 t1] p1]|]; destruct o as [[[s2 t2] p2]|]; simpl;
      intros [= <- _ <-];
      try (destruct (Hv _ _ _ eq_refl) as [-> ->]);
      try (destruct (Ho _ _ _ eq_refl) as [Hs2 ->]);
      (split; [done|]); (split; [lia|]); (split; [lia|done]).
  - simpl. intros [= <- _ <-]. repeat split; auto; lia.
Qed.

Lemma truthy_sentinel_check (agent_version : str)
    (expected_version : AgentTargetVersion) :
  agent_version ∈ [u "(unknown)"; u "None"] →
  _is_expected_agent_version rt env (Some agent_version) expected_version
  = inr false.
Proof.
  intros Hs. unfold _is_expected_agent_version, compare_agent_version.
  by rewrite bool_decide_eq_true_2.
Qed.

(** X21: checking against a literal target version compares texts and
    nothing else.  With a non-empty target text, a non-empty agent
    version and no minimum plugin version configured, the version
    sub-check passes exactly when the agent's version is that text and
    is neither "(unknown)" nor "None";
    otherwise it reports the [wrong_version] state (1 where not
    configured) and names both versions.  The comparison itself never
    raises. *)
Theorem literal_version_check (agent_info : gmap str (option str))
    (v e : str) :
  agent_info !! u "version" = Some (Some v) →
  v ≠ [] →
  agent_target_version host_config = TargetVersion e →
  e ≠ [] →
  agent_min_version env = 0 →
  _sub_result_version rt env exit_spec host_config agent_info
  = if bool_decide (v = e ∧ v ∉ [u "(unknown)"; u "None"]) then inr None
    else
      let status := default 1 (exit_spec !! u "wrong_version") in
      marker <- Seq.index (state_markers env) status ;;
      inr (Some (status,
                 u "unexpected agent version " ++ v ++ u " (should be "
                   ++ show_target env (TargetVersion e) ++ u ")" ++ marker,
                 [])).
Proof.
  intros Hv Hne Ht Hene Hmin. unfold _sub_result_version.
  rewrite Hv, Ht, Hmin. simpl default. unfold truthy.
  rewrite !(bool_decide_eq_false_2 (_ = [])) by done. simpl andb.
  unfold _is_expected_agent_version, compare_agent_version.
  destruct (decide (v ∈ [u "(unknown)"; u "None"])) as [Hs|Hs];
    destruct (decide (e = v)) as [Heq|Heq];
    rewrite ?(bool_decide_eq_true_2 _ Hs), ?(bool_decide_eq_false_2 _ Hs),
      ?(bool_decide_eq_true_2 _ Heq), ?(bool_decide_eq_false_2 _ Heq);
    cbn [bind negb].
  - rewrite (bool_decide_eq_false_2 (_ ∧ _)) by (by intros [_ ?]).
    reflexivity.
  - rewrite (bool_decide_eq_false_2 (_ ∧ _)) by (by intros [_ ?]).
    reflexivity.
  - rewrite (bool_decide_eq_true_2 (_ ∧ _)) by (by split).
    reflexivity.
  - rewrite (bool_decide_eq_false_2 (_ ∧ _)) by (by intros [? _]).
    reflexivity.
Qed.

(** X22: a version that reads "(unknown)" or "None" never counts as the
    expected one.  This includes the row that has the key [Version:] and
    no value.  Whatever non-empty target is configured, no version is
    compared, so the comparison cannot raise: the sub-check reports the
    [wrong_version] state. *)
Theorem sentinel_version_unexpected (agent_info : gmap str (option str))
    (version : option str) :
  agent_info !! u "version" = Some version →
  default (u "None") version ∈ [u "(unknown)"; u "None"] →
  truthy (agent_target_version host_config) = true →
  _sub_result_version rt env exit_spec host_config agent_info
  = (let status := default 1 (exit_spec !! u "wrong_version") in
     marker <- Seq.index (state_markers env) status ;;
     inr (Some (status,
                u "unexpected agent version " ++ default (u "None") version
                  ++ u " (should be "
                  ++ expected_text env (agent_target_version host_config)
                  ++ u ")" ++ marker,
                []))).
Proof.
  intros Hv Hs Ht. unfold _sub_result_version. rewrite Hv, Ht.
  rewrite bool_decide_eq_false_2.
  - simpl andb. cbv iota. rewrite truthy_sentinel_check by done. reflexivity.
  - intros Hnil. rewrite Hnil in Hs.
    apply elem_of_cons in Hs as [Hs|Hs]; [discriminate Hs|].
    apply list_elem_of_singleton in Hs. discriminate Hs.
Qed.

End Summary.

(** ** Cache information of piggybacked sections *)

Lemma host_is_header_shape (line : bytes) :
  host_is_header line = true →
  ∃ body, body ≠ [] ∧ Py.strip line = b "<<<" ++ body ++ b ">>>".
Proof.
  unfold host_is_header. cbv zeta.
  rewrite !andb_true_iff, !negb_true_iff. unfold host_is_footer.
  rewrite strip_idemp, bool_decide_eq_false, startswith_prefix, endswith_suffix.
  intros [[[[[k Hk] [k' Hk']] Hne] _] _]. rewrite Hk in Hk', Hne.
  destruct k' as [|c1 [|c2 [|c3 body]]]; try by simplify_eq/=.
  simplify_eq/=. exists body. split; [|done].
  intros ->. by apply Hne.
Qed.

Lemma strip_fixed (l : bytes) (c d : byte) :
  head l = Some c → last l = Some d →
  Py.is_space c = false → Py.is_space d = false →
  Py.strip l = l.
Proof.
  intros Hc Hd Hsc Hsd. unfold Py.strip, Py.rstrip.
  rewrite (lstrip_id l) by (intros ? ?; congruence).
  rewrite (lstrip_id (rev l)), rev_involutive; [done|].
  intros x Hx. rewrite <- (rev_involutive l) in Hd.
  destruct (rev l) as [|y r]; [done|]. simpl in Hd, Hx.
  rewrite last_snoc in Hd. congruence.
Qed.

Lemma utf8_app (l1 l2 : bytes) (t1 : str) :
  Str.utf8 l1 = Some t1 → Str.utf8 (l1 ++ l2) = (app t1) <$> Str.utf8 l2.
Proof.
  remember (length l1) as n eqn:Hn. revert l1 t1 Hn.
  induction n as [n IH] using lt_wf_ind. intros l1 t1 Hn H.
  destruct l1 as [|c0 t].
  { simpl in *. simplify_eq. by destruct (Str.utf8 l2). }
  rewrite <- app_comm_cons.
  cbn [Str.utf8] in H |- *. cbv zeta in H |- *.
  destruct (Byte.to_N c0 <? 128)%N.
  { destruct (Str.utf8 t) as [t'|] eqn:E; [|done]. simpl in H. simplify_eq.
    rewrite (IH (length t)) with (t1 := t') by (simpl; (lia || done)).
    by destruct (Str.utf8 l2). }
  destruct (Str.in_range 194 223 c0).
  { destruct t as [|c1 t]; [done|]. rewrite <- app_comm_cons.
    destruct (Str.cont c1) as [x1|]; [|done]. simpl in H |- *.
    destruct (Str.utf8 t) as [t'|] eqn:E; [|done]. simpl in H. simplify_eq.
    rewrite (IH (length t)) with (t1 := t') by (simpl; (lia || done)).
    by destruct (Str.utf8 l2). }
  destruct (Str.in_range 224 239 c0).
  { destruct t as [|c1 [|c2 t]]; [done..|]. rewrite <- !app_comm_cons.
    destruct (Str.cont c1) as [x1|]; [|done].
    destruct (Str.cont c2) as [x2|]; [|done]. simpl in H |- *.
    destruct (_ && _); [done|]. destruct (_ && _); [done|].
    destruct (Str.utf8 t) as [t'|] eqn:E; [|done]. simpl in H. simplify_eq.
    rewrite (IH (length t)) with (t1 := t') by (simpl; (lia || done)).
    by destruct (Str.utf8 l2). }
  destruct (Str.in_range 240 244 c0); [|done].
  destruct t as [|c1 [|c2 [|c3 t]]]; [done..|]. rewrite <- !app_comm_cons.
  destruct (Str.cont c1) as [x1|]; [|done].
  destruct (Str.cont c2) as [x2|]; [|done].
  destruct (Str.cont c3) as [x3|]; [|done]. simpl in H |- *.
  destruct (_ && _); [done|]. destruct (_ && _); [done|].
  destruct (Str.utf8 t) as [t'|] eqn:E; [|done]. simpl in H. simplify_eq.
  rewrite (IH (length t)) with (t1 := t') by (simpl; (lia || done)).
  by destruct (Str.utf8 l2).
Qed.

Lemma utf8_ascii (l : bytes) :
  Forall (λ c, (Byte.to_N c < 128)%N) l → Str.utf8 l = Some (Str.latin1 l).
Proof.
  induction 1 as [|c l Hc _ IH]; [done|].
  cbn [Str.utf8]. cbv zeta. rewrite (proj2 (N.ltb_lt _ _) Hc), IH. done.
Qed.

Lemma ensure_str_app_ascii (body tail : bytes) (text : str) :
  ensure_str body = inr text →
  Forall (λ c, (Byte.to_N c < 128)%N) tail →
  ensure_str (body ++ tail) = inr (text ++ Str.latin1 tail).
Proof.
  unfold ensure_str. intros Hb Ht.
  destruct (Str.utf8 body) as [t|] eqn:E; [|done]. simplify_eq.
  by rewrite (utf8_app _ _ _ E), (utf8_ascii _ Ht).
Qed.

(** The characters of ["%d" % n]: digits and the minus sign. *)
Lemma string_of_uint_digits (d : Decimal.uint) :
  Forall (λ c, c ∈ b "-0123456789")
    (list_byte_of_string (NilEmpty.string_of_uint d)).
Proof.
  induction d; simpl; constructor; try done;
    apply (bool_decide_eq_true_1 _); by vm_compute.
Qed.

Lemma fmt_d_digits (n : Z) : Forall (λ c, c ∈ b "-0123456789") (Py.fmt_d n).
Proof.
  unfold Py.fmt_d, NilZero.string_of_int, NilZero.string_of_uint.
  destruct (Z.to_int n) as [d|d].
  - destruct d; try apply string_of_uint_digits.
    repeat constructor.
  - simpl. constructor; [apply (bool_decide_eq_true_1 _); by vm_compute|].
    destruct d; try apply string_of_uint_digits. repeat constructor.
Qed.

Lemma parse_options_snoc (elems : list str) (opts : list (str * str))
    (k v : str) :
  parse_options elems = inr opts →
  40%N ∉ k →
  parse_options (elems ++ [k ++ 40%N :: v ++ [41%N]]) = inr (opts ++ [(k, v)]).
Proof.
  intros Hopts Hk. revert opts Hopts.
  induction elems as [|tok elems IH]; intros opts Hopts.
  - simpl in Hopts. simplify_eq. cbn [app parse_options].
    rewrite split1_spec by done. rewrite last_snoc. simpl.
    by rewrite removelast_last.
  - rewrite <- app_comm_cons. cbn [parse_options] in Hopts |- *.
    destruct (Str.split1 40 tok) as [[n value]|]; [|by apply IH].
    destruct (last value) as [c|]; [|done].
    destruct (c =? 41)%N; [|done].
    destruct (parse_options elems) as [e|rest]; [done|].
    cbn [bind] in Hopts. simplify_eq.
    by rewrite (IH rest eq_refl).
Qed.

Lemma rewritten_is_header (body tail : bytes) :
  host_is_header (b "<<<" ++ body ++ tail ++ b ")>>>") = true
  ∧ Py.strip (b "<<<" ++ body ++ tail ++ b ")>>>")
    = b "<<<" ++ body ++ tail ++ b ")>>>".
Proof.
  assert (Py.strip (b "<<<" ++ body ++ tail ++ b ")>>>")
          = b "<<<" ++ body ++ tail ++ b ")>>>") as Hstrip.
  { apply (strip_fixed _ "<" ">"); try done.
    change (b ")>>>") with (b ")>>" ++ [">"%byte]).
    rewrite !app_assoc. apply last_snoc. }
  split; [|done].
  assert (∀ (l : bytes) (c : byte),
            c ≠ ")"%byte →
            b "<<<" ++ body ++ tail ++ b ")>>>" ≠ l ++ c :: b ">>>") as Hend.
  { intros l c Hc H. apply (f_equal (@rev byte)) in H.
    rewrite !rev_app_distr in H. simpl in H.
    rewrite <- !app_assoc in H. by simplify_eq/=. }
  unfold host_is_header. cbv zeta. rewrite Hstrip.
  rewrite !andb_true_iff, !negb_true_iff.
  split; [split; [split; [split|]|]|].
  - apply startswith_app.
  - apply endswith_suffix. exists (b "<<<" ++ body ++ tail ++ b ")").
    by rewrite <- !app_assoc.
  - unfold host_is_footer. rewrite Hstrip. apply bool_decide_eq_false.
    intros H. by apply (Hend (b "<<") "<"%byte).
  - destruct (piggyback_is_header _) eqn:E; [|done].
    apply piggyback_is_header_shape in E as (body' & _ & E).
    rewrite Hstrip in E. exfalso.
    apply (Hend (b "<<<<" ++ body') ">"%byte); [done|].
    by rewrite <- app_assoc.
  - unfold piggyback_is_footer. rewrite Hstrip. apply bool_decide_eq_false.
    intros H. by apply (Hend (b "<<<<") ">"%byte).
Qed.

Lemma fmt_d_ascii (n : Z) : Forall (λ c, (Byte.to_N c < 128)%N) (Py.fmt_d n).
Proof.
  eapply Forall_impl; [apply fmt_d_digits|].
  intros c Hc. simpl in Hc.
  repeat (apply elem_of_cons in Hc as [->|Hc]; [by vm_compute|]).
  by apply elem_of_nil in Hc.
Qed.

Lemma fmt_d_lacks (n : Z) (c : N) :
  c ∈ [40%N; 44%N; 58%N] → c ∉ Str.latin1 (Py.fmt_d n).
Proof.
  intros Hc Hin. apply list_elem_of_fmap in Hin as (x & -> & Hx).
  pose proof (fmt_d_digits n) as Hd.
  rewrite Forall_forall in Hd. apply Hd in Hx. simpl in Hx.
  repeat (apply elem_of_cons in Hx as [->|Hx];
          [repeat (apply elem_of_cons in Hc as [Hc|Hc]; [discriminate Hc|]);
           by apply elem_of_nil in Hc|]).
  by apply elem_of_nil in Hx.
Qed.

(** X23: the cache information written into a piggybacked section
    header is what the header parser reads back.  For a header that
    parses and carries neither a [cached] nor a [persist] marker, the
    rewritten header parses too, to the same section name and the same
    options with [cached] added, and its [cached] property is the pair
    written: the parse time and the cache age.  A parser outside of any
    block that reads the rewritten header records exactly this pair as
    the cache information of the section. *)
Theorem add_cached_info_read_back (rt : Runtime) (line : bytes)
    (hdr : AgentParserSectionHeader) (T A : Z) :
  from_headerline rt (Py.strip line) = inr hdr →
  Py.contains (b ":cached(") (Py.strip line) = false →
  Py.contains (b ":persist(") (Py.strip line) = false →
  int_of_str rt (Str.latin1 (Py.fmt_d T)) = inr T →
  int_of_str rt (Str.latin1 (Py.fmt_d A)) = inr A →
  let rewritten := _add_cached_info (Py.strip line) T A in
  ∃ hdr',
    from_headerline rt rewritten = inr hdr'
    ∧ name hdr' = name hdr
    ∧ options hdr'
      = <[u "cached" := Str.latin1 (Py.fmt_d T ++ b "," ++ Py.fmt_d A)]>
          (options hdr)
    ∧ cached rt hdr' = inr [T; A]
    ∧ ∀ self m p,
        state self = NOOPParser →
        persist rt hdr = inr p →
        state (call rt self rewritten m).1 = HostSectionParser hdr'
        ∧ cache_info (call rt self rewritten m).2 !! name hdr = Some (T, A).
Proof.
  intros Hhdr Hc Hp HT HA rewritten.
  pose proof (from_headerline_is_header _ _ _ Hhdr) as Hh.
  destruct (host_is_header_shape _ Hh) as (body & _ & Hs).
  rewrite strip_idemp in Hs.
  set (value := Str.latin1 (Py.fmt_d T ++ b "," ++ Py.fmt_d A)).
  set (tail := b ":cached(" ++ Py.fmt_d T ++ b "," ++ Py.fmt_d A).
  assert (rewritten = b "<<<" ++ (body ++ tail ++ b ")") ++ b ">>>") as Hre.
  { unfold rewritten, _add_cached_info. rewrite Hc, Hp, Hs. simpl orb. cbv iota.
    change 3%nat with (length (b "<<<")) at 1.
    change 3%nat with (length (b ">>>")).
    rewrite slice_app. unfold tail. f_equal.
    rewrite <- !app_assoc. do 5 f_equal. }
  assert (host_is_header rewritten = true) as Hh'.
  { rewrite Hre. destruct (rewritten_is_header body tail) as [H _].
    replace (b "<<<" ++ (body ++ tail ++ b ")") ++ b ">>>")
      with (b "<<<" ++ body ++ tail ++ b ")>>>")
      by (rewrite <- !app_assoc; reflexivity).
    exact H. }
  unfold from_headerline in Hhdr. rewrite Hh in Hhdr. simpl negb in Hhdr.
  cbv iota in Hhdr. rewrite Hs in Hhdr.
  change 3%nat with (length (b "<<<")) in Hhdr at 1.
  change 3%nat with (length (b ">>>")) in Hhdr.
  rewrite slice_app in Hhdr.
  destruct (ensure_str body) as [e|text] eqn:Htext; [done|]. cbn [bind] in Hhdr.
  cbv zeta in Hhdr.
  destruct (SectionName rt (hd [] (Py.split 58%N text))) as [e|n] eqn:Hn;
    [done|]. cbn [bind] in Hhdr.
  destruct (parse_options (tl (Py.split 58%N text))) as [e|opts] eqn:Hopts;
    [done|]. cbn [bind] in Hhdr. injection Hhdr as <-.
  assert (ensure_str (Py.slice 3 3 rewritten)
          = inr (text ++ 58%N :: (u "cached" ++ 40%N :: value ++ [41%N])))
    as Htext'.
  { rewrite Hre.
    change 3%nat with (length (b "<<<")) at 1.
    change 3%nat with (length (b ">>>")).
    rewrite slice_app.
    rewrite (ensure_str_app_ascii _ _ _ Htext).
    - f_equal. f_equal. unfold tail, value, Str.latin1. rewrite !fmap_app.
      simpl. by rewrite <- !app_assoc.
    - unfold tail. repeat (apply Forall_app; split); try apply fmt_d_ascii;
        repeat constructor. }
  assert (58%N ∉ u "cached" ++ 40%N :: value ++ [41%N]) as Hcolon.
  { unfold value, Str.latin1. rewrite !fmap_app.
    intros H. apply elem_of_app in H as [H|H].
    { revert H. apply (bool_decide_eq_false_1 (_ ∈ _)). by vm_compute. }
    apply elem_of_cons in H as [H|H]; [done|].
    rewrite <- !app_assoc in H.
    apply elem_of_app in H as [H|H].
    { revert H. apply fmt_d_lacks. set_solver. }
    apply elem_of_app in H as [H|H].
    { revert H. apply (bool_decide_eq_false_1 (_ ∈ _)). by vm_compute. }
    apply elem_of_app in H as [H|H].
    { revert H. apply fmt_d_lacks. set_solver. }
    revert H. apply (bool_decide_eq_false_1 (_ ∈ _)). by vm_compute. }
  assert (cached rt {| name := n;
                       options := <[u "cached" := value]> (dict opts) |}
          = inr [T; A]) as Hcached.
  { unfold cached. cbn [options]. rewrite lookup_insert_eq.
    unfold value, Str.latin1. rewrite !fmap_app. simpl.
    rewrite split_app_sep.
    rewrite !split_no_sep by (apply fmt_d_lacks; set_solver).
    cbn [app map_result]. unfold Str.latin1 in HT, HA. by rewrite HT, HA. }
  exists {| name := n; options := <[u "cached" := value]> (dict opts) |}.
  assert (from_headerline rt rewritten
          = inr {| name := n; options := <[u "cached" := value]> (dict opts) |})
    as Hfrom.
  { unfold from_headerline. rewrite Hh', Htext'. simpl negb. cbv iota.
    cbn [bind]. cbv zeta. rewrite split_app_sep, (split_no_sep _ _ Hcolon).
    pose proof (split_nonempty 58%N text) as Hsplit.
    destruct (Py.split 58%N text) as [|first rest]; [done|].
    cbn [app hd tl] in *. rewrite Hn. cbn [bind].
    rewrite (parse_options_snoc _ _ _ _ Hopts)
      by (apply (bool_decide_eq_false_1 (_ ∈ _)); by vm_compute).
    cbn [bind]. by rewrite dict_snoc. }
  split; [done|]. split; [done|]. split; [done|]. split; [done|].
  intros self m p Hst Hpersist.
  rewrite (call_header rt self rewritten m _ (or_introl Hst) Hfrom).
  unfold to_host_section_parser. rewrite Hcached.
  assert (persist rt {| name := n;
                        options := <[u "cached" := value]> (dict opts) |}
          = inr p) as ->.
  { unfold persist in *. cbn [options] in *.
    rewrite lookup_insert_ne by (by vm_compute). done. }
  cbn [name].
  destruct (setdefault_section_is_Some n m) as [l Hl].
  destruct p as [U|]; cbn [sections with_cache_info]; rewrite ?Hl; simpl;
    by rewrite lookup_insert_eq.
Qed.

Lemma add_cached_info_read_back_witness :
  ∃ hdr',
    from_headerline Reference.runtime (b "<<<uptime:cached(1500,90)>>>") = inr hdr'
    ∧ name hdr' = u "uptime"
    ∧ cached Reference.runtime hdr' = inr [1500; 90].
Proof.
  pose proof (add_cached_info_read_back Reference.runtime (b " <<<uptime>>> ")
                {| name := u "uptime"; options := ∅ |} 1500 90
                ltac:(vm_compute; reflexivity) ltac:(vm_compute; reflexivity)
                ltac:(vm_compute; reflexivity) ltac:(vm_compute; reflexivity)
                ltac:(vm_compute; reflexivity)) as H.
  cbv zeta in H. destruct H as (hdr' & H1 & H2 & _ & H4 & _).
  exists hdr'. split; [exact H1|]. split; [exact H2|exact H4].
Defined.

Lemma piggyback_parse_header_recognised_witness :
  ∃ body,
    body ≠ []
    ∧ Py.strip (b "<<<<web 01>>>>") = b "<<<<" ++ body ++ b ">>>>"
    ∧ piggyback_parse_header Reference.runtime (b "<<<<web 01>>>>") (u "me")
      = (text <- ensure_str body ;;
         translated <- translate_piggyback_host Reference.runtime (u "me") text ;;
         inr ((λ c, if REGEX_HOST_NAME_CHARS Reference.runtime c then c else 95%N)
                <$> translated)).
Proof.
  apply (piggyback_parse_header_recognised Reference.runtime
           (b "<<<<web 01>>>>") (u "me")).
  vm_compute; reflexivity.
Defined.

Lemma parse_options_render_witness :
  parse_options (render_option <$> [(u "sep", u "124"); (u "cached", u "1,2")])
  = inr [(u "sep", u "124"); (u "cached", u "1,2")].
Proof.
  apply parse_options_render. intros kv Hkv.
  repeat (apply elem_of_cons in Hkv as [->|Hkv];
          [apply (bool_decide_eq_false_1 (_ ∈ _)); vm_compute; reflexivity|]).
  by apply elem_of_nil in Hkv.
Defined.

Lemma from_headerline_render_witness :
  ∃ hdr,
    from_headerline Reference.runtime (b "<<<mem:sep(124):cached(1,2):sep(9)>>>")
    = inr hdr
    ∧ name hdr = u "mem"
    ∧ options hdr !! u "sep" = Some (u "9")
    ∧ options hdr !! u "cached" = Some (u "1,2")
    ∧ options hdr !! u "persist" = None.
Proof.
  destruct (from_headerline_render Reference.runtime
              (b "<<<mem:sep(124):cached(1,2):sep(9)>>>") (u "mem") (u "mem")
              [(u "sep", u "124"); (u "cached", u "1,2"); (u "sep", u "9")])
    as (hdr & H1 & H2 & H3).
  - vm_compute; reflexivity.
  - vm_compute; reflexivity.
  - apply (bool_decide_eq_false_1 (_ ∈ _)); vm_compute; reflexivity.
  - intros kv Hkv.
    repeat (apply elem_of_cons in Hkv as [->|Hkv];
            [repeat split;
             apply (bool_decide_eq_false_1 (_ ∈ _)); vm_compute; reflexivity|]).
    by apply elem_of_nil in Hkv.
  - vm_compute; reflexivity.
  - exists hdr. split; [exact H1|]. split; [exact H2|].
    rewrite !H3. repeat split; vm_compute; reflexivity.
Defined.

Lemma summarize_without_check_mk_witness :
  summarize_success Reference.runtime ReferenceEnv.environment ∅ at_least_build
    empty_memory true
  = inr (0, u "Version: unknown, OS: unknown", []).
Proof.
  apply (summarize_without_check_mk Reference.runtime ReferenceEnv.environment ∅
           at_least_build empty_memory true (u "check_mk")).
  - vm_compute; reflexivity.
  - left. vm_compute; reflexivity.
Defined.

Lemma summarize_status_witness :
  ∃ text,
    _summarize_impl Reference.runtime ReferenceEnv.environment ∅ only_from_config
      (Some [[u "Version:"; u "1.0"]; [u "OnlyFrom:"; u "8.8.8.8"]]) true
    = inr (1, text, [])
    ∧ (1 = 0 ∨ 1 = default 1 ((∅ : gmap str Z) !! u "wrong_version")
       ∨ 1 = default 1 ((∅ : gmap str Z) !! u "restricted_address_mismatch")).
Proof.
  eexists. split; [vm_compute; reflexivity|].
  eapply (summarize_status Reference.runtime ReferenceEnv.environment ∅
            only_from_config
            (Some [[u "Version:"; u "1.0"]; [u "OnlyFrom:"; u "8.8.8.8"]]) true).
  vm_compute; reflexivity.
Defined.

Lemma literal_version_check_witness :
  _sub_result_version Reference.runtime ReferenceEnv.environment ∅ literal_target
    rc_agent_info
  = inr (Some (1, u "unexpected agent version 2.0.0-rc1 (should be 2.0.0)(!)", [])).
Proof.
  rewrite (literal_version_check Reference.runtime ReferenceEnv.environment ∅
             literal_target rc_agent_info (u "2.0.0-rc1") (u "2.0.0"));
    [vm_compute; reflexivity|vm_compute; reflexivity|discriminate|reflexivity
    |discriminate|reflexivity].
Defined.

Lemma sentinel_version_unexpected_witness :
  _sub_result_version Reference.runtime ReferenceEnv.environment ∅ at_least_build
    {[ u "version" := None ]}
  = inr (Some (1,
               u "unexpected agent version None (should be at least build 2014.06.01)(!)",
               [])).
Proof.
  rewrite (sentinel_version_unexpected Reference.runtime ReferenceEnv.environment
             ∅ at_least_build {[ u "version" := None ]} None);
    [vm_compute; reflexivity|vm_compute; reflexivity| |reflexivity].
  right. left.
Defined.

(** ** Requirements of the form "at least" *)

Section AtLeast.

Context (rt : Runtime) (env : Environment).

(** X24: when an "at least" requirement decides without comparing.  For
    a version other than "(unknown)" and "None": a pair whose first
    component is not "at_least" is always met; a requirement that names
    only a daily build is met by every release version; one that names
    only a release is met by no daily build. *)
Theorem at_least_without_comparison (agent_version kind : str)
    (spec : gmap str str) (daily : bool) :
  agent_version ∉ [u "(unknown)"; u "None"] →
  is_daily_build_version env agent_version = inr daily →
  (kind ≠ u "at_least" →
   _is_expected_agent_version rt env (Some agent_version) (TargetTuple kind spec)
   = inr true)
  ∧ (daily = false → spec !! u "release" = None →
     _is_expected_agent_version rt env (Some agent_version)
       (TargetTuple (u "at_least") spec)
     = inr true)
  ∧ (daily = true → spec !! u "daily_build" = None →
     is_Some (spec !! u "release") →
     _is_expected_agent_version rt env (Some agent_version)
       (TargetTuple (u "at_least") spec)
     = inr false).
Proof.
  intros Hs Hd. unfold _is_expected_agent_version, compare_agent_version.
  rewrite (bool_decide_eq_false_2 _ Hs).
  split; [|split].
  - intros Hk. by rewrite (bool_decide_eq_false_2 _ Hk).
  - intros -> Hr. rewrite bool_decide_eq_true_2 by done.
    rewrite Hd, Hr. cbn [bind]. by destruct (spec !! u "daily_build").
  - intros -> Hb [r Hr]. rewrite bool_decide_eq_true_2 by done.
    rewrite Hd, Hb, Hr. reflexivity.
Qed.

End AtLeast.

Lemma at_least_without_comparison_witness :
  _is_expected_agent_version Reference.runtime ReferenceEnv.environment
    (Some (u "1.6.0p2"))
    (TargetTuple (u "at_least") {[ u "daily_build" := u "2014.06.01" ]})
  = inr true.
Proof.
  refine (proj1 (proj2 (at_least_without_comparison Reference.runtime
                          ReferenceEnv.environment (u "1.6.0p2") (u "at_least")
                          {[ u "daily_build" := u "2014.06.01" ]} false _ _))
            eq_refl _).
  - apply (bool_decide_eq_false_1 (_ ∈ _)); vm_compute; reflexivity.
  - vm_compute; reflexivity.
  - vm_compute; reflexivity.
Defined.

(** ** Whitespace around content *)

Lemma blank_strip (line : bytes) : blank (Py.strip line) = blank line.
Proof. unfold blank. by rewrite strip_idemp. Qed.

Lemma host_is_header_strip (line : bytes) :
  host_is_header (Py.strip line) = host_is_header line.
Proof. unfold host_is_header. by rewrite strip_idemp. Qed.

(** X25: inside a host section without the [nostrip] option, whitespace
    around a content line is immaterial: the line and the stripped line
    have the same effect, down to the warning logged when the line
    cannot be read. *)
Theorem content_whitespace_immaterial (rt : Runtime) (self : ParserState)
    (hdr : AgentParserSectionHeader) (line : bytes) (m : Memory) :
  state self = HostSectionParser hdr →
  nostrip hdr = false →
  host_is_header line = false →
  piggyback_is_header line = false →
  call rt self line m = call rt self (Py.strip line) m.
Proof.
  intros Hst Hns Hh Hp. unfold call, host_call. rewrite Hst.
  rewrite blank_strip, piggyback_is_header_strip, host_is_footer_strip,
    host_is_header_strip, Hns, strip_idemp, Hh, Hp. done.
Qed.

Lemma content_whitespace_immaterial_witness :
  call Reference.runtime in_section_a (b "  x y  ")
    (setdefault_section (u "a") empty_memory)
  = call Reference.runtime in_section_a (Py.strip (b "  x y  "))
      (setdefault_section (u "a") empty_memory).
Proof.
  apply (content_whitespace_immaterial Reference.runtime in_section_a section_a);
    vm_compute; reflexivity.
Defined.

(** ** The fields of a row *)




Section Rows.

Context (rt : Runtime).



End Rows.


